(** * AtomicChessOSC: a shallow embedding of the rule engine of
    [atomic_chess.py] and the properties of its specification.

    The engine is the class [AtomicChessGame].  Its attributes become the
    record [Game]; its methods become functions on [Game].  Rendering
    (pygame surfaces, fonts) is left out; the OSC client is kept as the list
    of the messages handed to it. *)

From Stdlib Require Import ZArith QArith Qround Qminmax Lia String Ascii Bool.
From stdpp Require Import base option list gmap sets strings pretty.

Set Warnings "-register-all".

Local Open Scope string_scope.
Local Open Scope list_scope.
Local Open Scope Z_scope.

(** ** Python values

    JSON documents and the values Python keeps in its dictionaries.
    A Python [float] is modelled as a rational. *)

Inductive PyVal : Type :=
  | PNone
  | PBool (b : bool)
  | PInt (z : Z)
  | PFloat (q : Q)
  | PStr (s : string)
  | PList (l : list PyVal)
  | PDict (d : list (string * PyVal)).

(** A number stored by the engine: [int] or [float]. *)
Inductive Num : Type :=
  | NInt (z : Z)
  | NFloat (q : Q).

(** Python's exceptions, as far as the engine can raise them. *)
Inductive PyExn : Type :=
  | TypeError
  | ValueError
  | IndexError
  | KeyError
  | AttributeError.

(** [int(q)] on a float truncates toward zero. *)
Definition Qtrunc (q : Q) : Z :=
  if Qle_bool 0 q then Qfloor q else Qceiling q.

Definition num_int (n : Num) : Z :=
  match n with
  | NInt z => z
  | NFloat q => Qtrunc q
  end.

Definition num_float (n : Num) : Q :=
  match n with
  | NInt z => inject_Z z
  | NFloat q => q
  end.

(** Truthiness of a number: [0] and [0.0] are falsy. *)
Definition num_truthy (n : Num) : bool :=
  match n with
  | NInt z => negb (z =? 0)
  | NFloat q => negb (Qeq_bool q 0)
  end.

Definition Qltb (a b : Q) : bool := negb (Qle_bool b a).

(** ** Strings *)

Definition lower_ascii (c : ascii) : ascii :=
  let n := nat_of_ascii c in
  if (Nat.leb 65 n && Nat.leb n 90)%bool then ascii_of_nat (n + 32) else c.

Definition upper_ascii (c : ascii) : ascii :=
  let n := nat_of_ascii c in
  if (Nat.leb 97 n && Nat.leb n 122)%bool then ascii_of_nat (n - 32) else c.

(** [s.lower()], on ASCII text. *)
Fixpoint lower (s : string) : string :=
  match s with
  | EmptyString => EmptyString
  | String c r => String (lower_ascii c) (lower r)
  end.

(** [s[0].upper()]: [None] stands for the [IndexError] on the empty string. *)
Definition first_upper (s : string) : option string :=
  match s with
  | EmptyString => None
  | String c _ => Some (String (upper_ascii c) EmptyString)
  end.

Definition str_truthy (s : string) : bool :=
  match s with
  | EmptyString => false
  | _ => true
  end.

(** ** Insertion-ordered dictionaries with string keys

    A Python [dict] iterates in insertion order; assigning to a key that is
    present keeps its place. *)

Fixpoint dict_get {V : Type} (k : string) (d : list (string * V)) : option V :=
  match d with
  | [] => None
  | (k', v) :: r => if String.eqb k k' then Some v else dict_get k r
  end.

Fixpoint dict_set {V : Type} (k : string) (v : V) (d : list (string * V))
  : list (string * V) :=
  match d with
  | [] => [(k, v)]
  | (k', v') :: r =>
      if String.eqb k k' then (k, v) :: r else (k', v') :: dict_set k v r
  end.

Definition dict_mem {V : Type} (k : string) (d : list (string * V)) : bool :=
  match dict_get k d with
  | Some _ => true
  | None => false
  end.

(** [range(a, b)] *)
Definition range (a b : Z) : list Z :=
  map (fun i => a + Z.of_nat i) (seq 0 (Z.to_nat (b - a))).

(** ** Data model *)

Definition Square : Type := Z * Z.

(** class [PieceType] *)
Record PieceType : Type := {
  name : string;
  kind : string;
  directions : list (Z * Z);
  max_range : option Z;
  can_jump : bool;
  explosion_radius : option Z;
  immune_to_explosion : bool;
  damaged_ok : bool;
  is_royal : bool;
  script_name : option string;
  script_param : Num
}.

(** The constructor's defaults: [PieceType(name, kind, directions, max_range,
    can_jump)] leaves the rest at [None], [False], [0.0]. *)
Definition PieceType_basic (n k : string) (dirs : list (Z * Z))
    (mr : option Z) (cj : bool) : PieceType :=
  {| name := n; kind := k; directions := dirs; max_range := mr; can_jump := cj;
     explosion_radius := None; immune_to_explosion := false;
     damaged_ok := false; is_royal := false;
     script_name := None; script_param := NFloat 0 |}.

(** [Piece.state], the per-instance dictionary: one optional entry per key
    the engine ever stores. *)
Record PieceState : Type := {
  script_name_override : option string;
  script_param_override : option Num;
  range_bonus : option Z;
  heat_bonus : option Z;
  decay_left : option Z;
  charge_count : option Z;
  heat_count : option Z;
  entropy_level : option Z
}.

Definition empty_state : PieceState :=
  {| script_name_override := None; script_param_override := None;
     range_bonus := None; heat_bonus := None; decay_left := None;
     charge_count := None; heat_count := None; entropy_level := None |}.

(** class [Piece].  [oid] is the identity of the Python object, which the
    engine compares with [is]; objects are numbered as they are created. *)
Record Piece : Type := {
  oid : Z;
  color : string;
  type_name : string;
  symbol : string;
  state : PieceState
}.

Definition with_state (p : Piece) (st : PieceState) : Piece :=
  {| oid := oid p; color := color p; type_name := type_name p;
     symbol := symbol p; state := st |}.

(** A chunk's ["fill"] dictionary. *)
Record Fill : Type := {
  fill_color : option string;
  fill_type : option string
}.

(** A chunk's ["enter_script"] / ["leave_script"] dictionary. *)
Record ChunkScript : Type := {
  cs_name : option string;
  cs_param : option Num
}.

(** An entry of [self.chunks]. *)
Record Chunk : Type := {
  rect : Z * Z * Z * Z;
  fill : option Fill;
  active : bool;
  owner : string;
  enter_script : option ChunkScript;
  leave_script : option ChunkScript
}.

Definition set_active (b : bool) (ch : Chunk) : Chunk :=
  {| rect := rect ch; fill := fill ch; active := b; owner := owner ch;
     enter_script := enter_script ch; leave_script := leave_script ch |}.

(** An entry of [self.edge_triggers]: the dictionary with a ["chunk"] key, or
    the one with ["mode": "random"]. *)
Inductive Trigger : Type :=
  | TrigChunk (ttype : string) (dist : Z) (chunk : string)
  | TrigRandom (ttype : string) (dist : Z) (minw maxw minh maxh : Z).

(** [self.rules] *)
Record Rules : Type := {
  capture_mode : string;
  atomic_radius : Z;
  center_damages : bool;
  center_survives : bool;
  damage_blocks_move : bool;
  victory : string;
  max_fullmoves : Z;
  max_seconds : Z;
  limit_result : string;
  osc_neighbour_radius : Z;
  osc_neighbours : bool;
  osc_label : string
}.

(** An entry of [ExplosionManager.explosions]. *)
Record Explosion : Type := {
  ex_cells : list Square;
  ex_start_ms : Z;
  ex_radius : Z
}.

(** The texts handed to [add_dsl_message], by format string. *)
Inductive Message : Type :=
  | MsgChunkUnknown (n : string)
  | MsgChunkDisabled (n : string)
  | MsgChunkEnabled (n : string)
  | MsgRandomChunk (n : string) (x1 y1 x2 y2 : Z) (edge : string)
  | MsgEntered (c t n : string)
  | MsgLeft (c t n : string).

(** The messages handed to the OSC client.  Squares are kept as coordinates
    ([coord_to_alg] only prints them). *)
Inductive OscMessage : Type :=
  | OscMove (fm : Z) (from to : Square) (captured : string)
      (white_count black_count : Z) (neighbours : list (Square * string))
      (label : string)
  | OscGameOver (result outcome : string).

(** class [AtomicChessGame].  The grid [self.board] is the finite map from
    the occupied squares [(x, y)] to their pieces; every write of the source
    is behind an [in_bounds] test.  [random_draws] is the state of Python's
    [random] module: the values its next calls to [random.random()] yield. *)
Record Game : Type := {
  cols : Z;
  rows : Z;
  square_size : Z;
  board : gmap Square Piece;
  piece_types : list (string * PieceType);
  turn : string;
  fullmove : Z;
  last_move : option (Square * Square);
  game_over : bool;
  result_text : string;
  selected_square : option Square;
  legal_targets : list Square;
  explosions : list Explosion;
  damaged : gset Square;
  rules : Rules;
  start_time_ms : Z;
  dsl_mode : bool;
  dsl_messages : list Message;
  osc_out : list OscMessage;
  chunks : list (string * Chunk);
  edge_triggers : list Trigger;
  rand_chunk_counter : Z;
  random_draws : list Q;
  next_oid : Z
}.

Definition set_cols (v : Z) (r : Game) : Game :=
  Build_Game v (rows r) (square_size r) (board r) (piece_types r) (turn r) (fullmove r) (last_move r) (game_over r) (result_text r) (selected_square r) (legal_targets r) (explosions r) (damaged r) (rules r) (start_time_ms r) (dsl_mode r) (dsl_messages r) (osc_out r) (chunks r) (edge_triggers r) (rand_chunk_counter r) (random_draws r) (next_oid r).

Definition set_rows (v : Z) (r : Game) : Game :=
  Build_Game (cols r) v (square_size r) (board r) (piece_types r) (turn r) (fullmove r) (last_move r) (game_over r) (result_text r) (selected_square r) (legal_targets r) (explosions r) (damaged r) (rules r) (start_time_ms r) (dsl_mode r) (dsl_messages r) (osc_out r) (chunks r) (edge_triggers r) (rand_chunk_counter r) (random_draws r) (next_oid r).

Definition set_square_size (v : Z) (r : Game) : Game :=
  Build_Game (cols r) (rows r) v (board r) (piece_types r) (turn r) (fullmove r) (last_move r) (game_over r) (result_text r) (selected_square r) (legal_targets r) (explosions r) (damaged r) (rules r) (start_time_ms r) (dsl_mode r) (dsl_messages r) (osc_out r) (chunks r) (edge_triggers r) (rand_chunk_counter r) (random_draws r) (next_oid r).

Definition set_board (v : gmap Square Piece) (r : Game) : Game :=
  Build_Game (cols r) (rows r) (square_size r) v (piece_types r) (turn r) (fullmove r) (last_move r) (game_over r) (result_text r) (selected_square r) (legal_targets r) (explosions r) (damaged r) (rules r) (start_time_ms r) (dsl_mode r) (dsl_messages r) (osc_out r) (chunks r) (edge_triggers r) (rand_chunk_counter r) (random_draws r) (next_oid r).

Definition set_piece_types (v : list (string * PieceType)) (r : Game) : Game :=
  Build_Game (cols r) (rows r) (square_size r) (board r) v (turn r) (fullmove r) (last_move r) (game_over r) (result_text r) (selected_square r) (legal_targets r) (explosions r) (damaged r) (rules r) (start_time_ms r) (dsl_mode r) (dsl_messages r) (osc_out r) (chunks r) (edge_triggers r) (rand_chunk_counter r) (random_draws r) (next_oid r).

Definition set_turn (v : string) (r : Game) : Game :=
  Build_Game (cols r) (rows r) (square_size r) (board r) (piece_types r) v (fullmove r) (last_move r) (game_over r) (result_text r) (selected_square r) (legal_targets r) (explosions r) (damaged r) (rules r) (start_time_ms r) (dsl_mode r) (dsl_messages r) (osc_out r) (chunks r) (edge_triggers r) (rand_chunk_counter r) (random_draws r) (next_oid r).

Definition set_fullmove (v : Z) (r : Game) : Game :=
  Build_Game (cols r) (rows r) (square_size r) (board r) (piece_types r) (turn r) v (last_move r) (game_over r) (result_text r) (selected_square r) (legal_targets r) (explosions r) (damaged r) (rules r) (start_time_ms r) (dsl_mode r) (dsl_messages r) (osc_out r) (chunks r) (edge_triggers r) (rand_chunk_counter r) (random_draws r) (next_oid r).

Definition set_last_move (v : option (Square * Square)) (r : Game) : Game :=
  Build_Game (cols r) (rows r) (square_size r) (board r) (piece_types r) (turn r) (fullmove r) v (game_over r) (result_text r) (selected_square r) (legal_targets r) (explosions r) (damaged r) (rules r) (start_time_ms r) (dsl_mode r) (dsl_messages r) (osc_out r) (chunks r) (edge_triggers r) (rand_chunk_counter r) (random_draws r) (next_oid r).

Definition set_game_over (v : bool) (r : Game) : Game :=
  Build_Game (cols r) (rows r) (square_size r) (board r) (piece_types r) (turn r) (fullmove r) (last_move r) v (result_text r) (selected_square r) (legal_targets r) (explosions r) (damaged r) (rules r) (start_time_ms r) (dsl_mode r) (dsl_messages r) (osc_out r) (chunks r) (edge_triggers r) (rand_chunk_counter r) (random_draws r) (next_oid r).

Definition set_result_text (v : string) (r : Game) : Game :=
  Build_Game (cols r) (rows r) (square_size r) (board r) (piece_types r) (turn r) (fullmove r) (last_move r) (game_over r) v (selected_square r) (legal_targets r) (explosions r) (damaged r) (rules r) (start_time_ms r) (dsl_mode r) (dsl_messages r) (osc_out r) (chunks r) (edge_triggers r) (rand_chunk_counter r) (random_draws r) (next_oid r).

Definition set_selected_square (v : option Square) (r : Game) : Game :=
  Build_Game (cols r) (rows r) (square_size r) (board r) (piece_types r) (turn r) (fullmove r) (last_move r) (game_over r) (result_text r) v (legal_targets r) (explosions r) (damaged r) (rules r) (start_time_ms r) (dsl_mode r) (dsl_messages r) (osc_out r) (chunks r) (edge_triggers r) (rand_chunk_counter r) (random_draws r) (next_oid r).

Definition set_legal_targets (v : list Square) (r : Game) : Game :=
  Build_Game (cols r) (rows r) (square_size r) (board r) (piece_types r) (turn r) (fullmove r) (last_move r) (game_over r) (result_text r) (selected_square r) v (explosions r) (damaged r) (rules r) (start_time_ms r) (dsl_mode r) (dsl_messages r) (osc_out r) (chunks r) (edge_triggers r) (rand_chunk_counter r) (random_draws r) (next_oid r).

Definition set_explosions (v : list Explosion) (r : Game) : Game :=
  Build_Game (cols r) (rows r) (square_size r) (board r) (piece_types r) (turn r) (fullmove r) (last_move r) (game_over r) (result_text r) (selected_square r) (legal_targets r) v (damaged r) (rules r) (start_time_ms r) (dsl_mode r) (dsl_messages r) (osc_out r) (chunks r) (edge_triggers r) (rand_chunk_counter r) (random_draws r) (next_oid r).

Definition set_damaged (v : gset Square) (r : Game) : Game :=
  Build_Game (cols r) (rows r) (square_size r) (board r) (piece_types r) (turn r) (fullmove r) (last_move r) (game_over r) (result_text r) (selected_square r) (legal_targets r) (explosions r) v (rules r) (start_time_ms r) (dsl_mode r) (dsl_messages r) (osc_out r) (chunks r) (edge_triggers r) (rand_chunk_counter r) (random_draws r) (next_oid r).

Definition set_rules (v : Rules) (r : Game) : Game :=
  Build_Game (cols r) (rows r) (square_size r) (board r) (piece_types r) (turn r) (fullmove r) (last_move r) (game_over r) (result_text r) (selected_square r) (legal_targets r) (explosions r) (damaged r) v (start_time_ms r) (dsl_mode r) (dsl_messages r) (osc_out r) (chunks r) (edge_triggers r) (rand_chunk_counter r) (random_draws r) (next_oid r).

Definition set_start_time_ms (v : Z) (r : Game) : Game :=
  Build_Game (cols r) (rows r) (square_size r) (board r) (piece_types r) (turn r) (fullmove r) (last_move r) (game_over r) (result_text r) (selected_square r) (legal_targets r) (explosions r) (damaged r) (rules r) v (dsl_mode r) (dsl_messages r) (osc_out r) (chunks r) (edge_triggers r) (rand_chunk_counter r) (random_draws r) (next_oid r).


Definition set_dsl_messages (v : list Message) (r : Game) : Game :=
  Build_Game (cols r) (rows r) (square_size r) (board r) (piece_types r) (turn r) (fullmove r) (last_move r) (game_over r) (result_text r) (selected_square r) (legal_targets r) (explosions r) (damaged r) (rules r) (start_time_ms r) (dsl_mode r) v (osc_out r) (chunks r) (edge_triggers r) (rand_chunk_counter r) (random_draws r) (next_oid r).

Definition set_osc_out (v : list OscMessage) (r : Game) : Game :=
  Build_Game (cols r) (rows r) (square_size r) (board r) (piece_types r) (turn r) (fullmove r) (last_move r) (game_over r) (result_text r) (selected_square r) (legal_targets r) (explosions r) (damaged r) (rules r) (start_time_ms r) (dsl_mode r) (dsl_messages r) v (chunks r) (edge_triggers r) (rand_chunk_counter r) (random_draws r) (next_oid r).

Definition set_chunks (v : list (string * Chunk)) (r : Game) : Game :=
  Build_Game (cols r) (rows r) (square_size r) (board r) (piece_types r) (turn r) (fullmove r) (last_move r) (game_over r) (result_text r) (selected_square r) (legal_targets r) (explosions r) (damaged r) (rules r) (start_time_ms r) (dsl_mode r) (dsl_messages r) (osc_out r) v (edge_triggers r) (rand_chunk_counter r) (random_draws r) (next_oid r).

Definition set_edge_triggers (v : list Trigger) (r : Game) : Game :=
  Build_Game (cols r) (rows r) (square_size r) (board r) (piece_types r) (turn r) (fullmove r) (last_move r) (game_over r) (result_text r) (selected_square r) (legal_targets r) (explosions r) (damaged r) (rules r) (start_time_ms r) (dsl_mode r) (dsl_messages r) (osc_out r) (chunks r) v (rand_chunk_counter r) (random_draws r) (next_oid r).

Definition set_rand_chunk_counter (v : Z) (r : Game) : Game :=
  Build_Game (cols r) (rows r) (square_size r) (board r) (piece_types r) (turn r) (fullmove r) (last_move r) (game_over r) (result_text r) (selected_square r) (legal_targets r) (explosions r) (damaged r) (rules r) (start_time_ms r) (dsl_mode r) (dsl_messages r) (osc_out r) (chunks r) (edge_triggers r) v (random_draws r) (next_oid r).

Definition set_random_draws (v : list Q) (r : Game) : Game :=
  Build_Game (cols r) (rows r) (square_size r) (board r) (piece_types r) (turn r) (fullmove r) (last_move r) (game_over r) (result_text r) (selected_square r) (legal_targets r) (explosions r) (damaged r) (rules r) (start_time_ms r) (dsl_mode r) (dsl_messages r) (osc_out r) (chunks r) (edge_triggers r) (rand_chunk_counter r) v (next_oid r).

Definition set_next_oid (v : Z) (r : Game) : Game :=
  Build_Game (cols r) (rows r) (square_size r) (board r) (piece_types r) (turn r) (fullmove r) (last_move r) (game_over r) (result_text r) (selected_square r) (legal_targets r) (explosions r) (damaged r) (rules r) (start_time_ms r) (dsl_mode r) (dsl_messages r) (osc_out r) (chunks r) (edge_triggers r) (rand_chunk_counter r) (random_draws r) v.

Definition set_script_name_override (v : option string) (r : PieceState) : PieceState :=
  Build_PieceState v (script_param_override r) (range_bonus r) (heat_bonus r) (decay_left r) (charge_count r) (heat_count r) (entropy_level r).

Definition set_script_param_override (v : option Num) (r : PieceState) : PieceState :=
  Build_PieceState (script_name_override r) v (range_bonus r) (heat_bonus r) (decay_left r) (charge_count r) (heat_count r) (entropy_level r).

Definition set_range_bonus (v : option Z) (r : PieceState) : PieceState :=
  Build_PieceState (script_name_override r) (script_param_override r) v (heat_bonus r) (decay_left r) (charge_count r) (heat_count r) (entropy_level r).

Definition set_heat_bonus (v : option Z) (r : PieceState) : PieceState :=
  Build_PieceState (script_name_override r) (script_param_override r) (range_bonus r) v (decay_left r) (charge_count r) (heat_count r) (entropy_level r).

Definition set_decay_left (v : option Z) (r : PieceState) : PieceState :=
  Build_PieceState (script_name_override r) (script_param_override r) (range_bonus r) (heat_bonus r) v (charge_count r) (heat_count r) (entropy_level r).

Definition set_charge_count (v : option Z) (r : PieceState) : PieceState :=
  Build_PieceState (script_name_override r) (script_param_override r) (range_bonus r) (heat_bonus r) (decay_left r) v (heat_count r) (entropy_level r).

Definition set_heat_count (v : option Z) (r : PieceState) : PieceState :=
  Build_PieceState (script_name_override r) (script_param_override r) (range_bonus r) (heat_bonus r) (decay_left r) (charge_count r) v (entropy_level r).

Definition set_entropy_level (v : option Z) (r : PieceState) : PieceState :=
  Build_PieceState (script_name_override r) (script_param_override r) (range_bonus r) (heat_bonus r) (decay_left r) (charge_count r) (heat_count r) v.

Definition set_capture_mode (v : string) (r : Rules) : Rules :=
  Build_Rules v (atomic_radius r) (center_damages r) (center_survives r) (damage_blocks_move r) (victory r) (max_fullmoves r) (max_seconds r) (limit_result r) (osc_neighbour_radius r) (osc_neighbours r) (osc_label r).

Definition set_atomic_radius (v : Z) (r : Rules) : Rules :=
  Build_Rules (capture_mode r) v (center_damages r) (center_survives r) (damage_blocks_move r) (victory r) (max_fullmoves r) (max_seconds r) (limit_result r) (osc_neighbour_radius r) (osc_neighbours r) (osc_label r).

Definition set_center_damages (v : bool) (r : Rules) : Rules :=
  Build_Rules (capture_mode r) (atomic_radius r) v (center_survives r) (damage_blocks_move r) (victory r) (max_fullmoves r) (max_seconds r) (limit_result r) (osc_neighbour_radius r) (osc_neighbours r) (osc_label r).

Definition set_center_survives (v : bool) (r : Rules) : Rules :=
  Build_Rules (capture_mode r) (atomic_radius r) (center_damages r) v (damage_blocks_move r) (victory r) (max_fullmoves r) (max_seconds r) (limit_result r) (osc_neighbour_radius r) (osc_neighbours r) (osc_label r).

Definition set_damage_blocks_move (v : bool) (r : Rules) : Rules :=
  Build_Rules (capture_mode r) (atomic_radius r) (center_damages r) (center_survives r) v (victory r) (max_fullmoves r) (max_seconds r) (limit_result r) (osc_neighbour_radius r) (osc_neighbours r) (osc_label r).

Definition set_victory (v : string) (r : Rules) : Rules :=
  Build_Rules (capture_mode r) (atomic_radius r) (center_damages r) (center_survives r) (damage_blocks_move r) v (max_fullmoves r) (max_seconds r) (limit_result r) (osc_neighbour_radius r) (osc_neighbours r) (osc_label r).

Definition set_max_fullmoves (v : Z) (r : Rules) : Rules :=
  Build_Rules (capture_mode r) (atomic_radius r) (center_damages r) (center_survives r) (damage_blocks_move r) (victory r) v (max_seconds r) (limit_result r) (osc_neighbour_radius r) (osc_neighbours r) (osc_label r).

Definition set_max_seconds (v : Z) (r : Rules) : Rules :=
  Build_Rules (capture_mode r) (atomic_radius r) (center_damages r) (center_survives r) (damage_blocks_move r) (victory r) (max_fullmoves r) v (limit_result r) (osc_neighbour_radius r) (osc_neighbours r) (osc_label r).

Definition set_limit_result (v : string) (r : Rules) : Rules :=
  Build_Rules (capture_mode r) (atomic_radius r) (center_damages r) (center_survives r) (damage_blocks_move r) (victory r) (max_fullmoves r) (max_seconds r) v (osc_neighbour_radius r) (osc_neighbours r) (osc_label r).

Definition set_osc_neighbour_radius (v : Z) (r : Rules) : Rules :=
  Build_Rules (capture_mode r) (atomic_radius r) (center_damages r) (center_survives r) (damage_blocks_move r) (victory r) (max_fullmoves r) (max_seconds r) (limit_result r) v (osc_neighbours r) (osc_label r).

Definition set_osc_neighbours (v : bool) (r : Rules) : Rules :=
  Build_Rules (capture_mode r) (atomic_radius r) (center_damages r) (center_survives r) (damage_blocks_move r) (victory r) (max_fullmoves r) (max_seconds r) (limit_result r) (osc_neighbour_radius r) v (osc_label r).

Definition set_osc_label (v : string) (r : Rules) : Rules :=
  Build_Rules (capture_mode r) (atomic_radius r) (center_damages r) (center_survives r) (damage_blocks_move r) (victory r) (max_fullmoves r) (max_seconds r) (limit_result r) (osc_neighbour_radius r) (osc_neighbours r) v.


(** ** Results of methods that can raise

    [Done a g]: the method returned [a], leaving the engine in [g].
    [Raised e g]: it raised [e]; [g] is the engine as the exception left it.
    [Unmodelled]: the input holds a value outside the types above (a list
    where a string is expected, and the like). *)
Inductive Outcome (A : Type) : Type :=
  | Done (a : A) (g : Game)
  | Raised (e : PyExn) (g : Game)
  | Unmodelled.

Arguments Done {A} a g.
Arguments Raised {A} e g.
Arguments Unmodelled {A}.

Definition obind {A B : Type} (m : Outcome A) (k : A -> Game -> Outcome B)
  : Outcome B :=
  match m with
  | Done a g => k a g
  | Raised e g => Raised e g
  | Unmodelled => Unmodelled
  end.

(** ** Configuration constants *)

Definition BOARD_PIXELS : Z := 640.

(** ** Rules *)

Definition default_rules : Rules :=
  {| capture_mode := "atomic";
     atomic_radius := 1;
     center_damages := true;
     center_survives := true;
     damage_blocks_move := true;
     victory := "elimination";
     max_fullmoves := 0;
     max_seconds := 0;
     limit_result := "draw";
     osc_neighbour_radius := 2;
     osc_neighbours := true;
     osc_label := "" |}.

Definition init_default_rules (g : Game) : Game :=
  set_rules default_rules g.

(** ** Geometry helpers *)

Definition compute_square_size (c r : Z) : Z :=
  BOARD_PIXELS / Z.max c r.

(** [resize_board(cols, rows)]; [now] is [pygame.time.get_ticks()]. *)
Definition resize_board (c r : Z) (now : Z) (g : Game) : Game :=
  let c' := Z.max 2 (Z.min 20 c) in
  let r' := Z.max 2 (Z.min 20 r) in
  set_start_time_ms now
    (set_damaged ∅
    (set_result_text ""
    (set_game_over false
    (set_fullmove 1
    (set_turn "white"
    (set_last_move None
    (set_legal_targets []
    (set_selected_square None
    (set_board ∅
    (set_square_size (compute_square_size c' r')
    (set_rows r'
    (set_cols c' g)))))))))))).

Definition clear_board (g : Game) : Game :=
  set_damaged ∅ (set_board ∅ g).

(** ** Piece type definitions *)

Definition king_dirs : list (Z * Z) :=
  [(1, 0); (-1, 0); (0, 1); (0, -1); (1, 1); (1, -1); (-1, 1); (-1, -1)].

Definition rook_dirs : list (Z * Z) :=
  [(1, 0); (-1, 0); (0, 1); (0, -1)].

Definition bishop_dirs : list (Z * Z) :=
  [(1, 1); (1, -1); (-1, 1); (-1, -1)].

Definition knight_dirs : list (Z * Z) :=
  [(2, 1); (1, 2); (-1, 2); (-2, 1); (-2, -1); (-1, -2); (1, -2); (2, -1)].

Definition default_piece_types : list (string * PieceType) :=
  [ ("king",
     {| name := "king"; kind := "king"; directions := king_dirs;
        max_range := Some 1; can_jump := false; explosion_radius := None;
        immune_to_explosion := false; damaged_ok := false; is_royal := true;
        script_name := None; script_param := NFloat 0 |});
    ("rook", PieceType_basic "rook" "rook" rook_dirs None false);
    ("bishop", PieceType_basic "bishop" "bishop" bishop_dirs None false);
    ("queen", PieceType_basic "queen" "queen" king_dirs None false);
    ("knight", PieceType_basic "knight" "knight" knight_dirs (Some 1) true);
    ("pawn", PieceType_basic "pawn" "pawn" [] (Some 1) false) ].

Definition init_default_piece_types (g : Game) : Game :=
  set_piece_types default_piece_types g.

(** ** Setup positions *)

Definition in_bounds (g : Game) (x y : Z) : bool :=
  (0 <=? x) && (x <? cols g) && (0 <=? y) && (y <? rows g).

(** [Piece(color, type_name, symbol)]: a new object with an empty state. *)
Definition new_piece (c t s : string) (g : Game) : Piece * Game :=
  ({| oid := next_oid g; color := c; type_name := t; symbol := s;
      state := empty_state |},
   set_next_oid (next_oid g + 1) g).

Definition place_piece (x y : Z) (piece : Piece) (g : Game) : Game :=
  if in_bounds g x y then set_board (<[(x, y) := piece]> (board g)) g
  else g.

(** [self.place_piece(x, y, Piece(c, t, s))] *)
Definition place_new (x y : Z) (c t s : string) (g : Game) : Game :=
  let '(p, g) := new_piece c t s g in place_piece x y p g.

Definition setup_standard_position (now : Z) (g : Game) : Game :=
  let g := resize_board 8 8 now g in
  let g :=
    foldl (fun g x =>
             place_new x 6 "black" "pawn" "P"
               (place_new x 1 "white" "pawn" "P" g))
          g (range 0 8) in
  let g := place_new 0 0 "white" "rook" "R" g in
  let g := place_new 7 0 "white" "rook" "R" g in
  let g := place_new 0 7 "black" "rook" "R" g in
  let g := place_new 7 7 "black" "rook" "R" g in
  let g := place_new 1 0 "white" "knight" "N" g in
  let g := place_new 6 0 "white" "knight" "N" g in
  let g := place_new 1 7 "black" "knight" "N" g in
  let g := place_new 6 7 "black" "knight" "N" g in
  let g := place_new 2 0 "white" "bishop" "B" g in
  let g := place_new 5 0 "white" "bishop" "B" g in
  let g := place_new 2 7 "black" "bishop" "B" g in
  let g := place_new 5 7 "black" "bishop" "B" g in
  let g := place_new 3 0 "white" "queen" "Q" g in
  let g := place_new 3 7 "black" "queen" "Q" g in
  let g := place_new 4 0 "white" "king" "K" g in
  let g := place_new 4 7 "black" "king" "K" g in
  set_start_time_ms now
    (set_damaged ∅
    (set_legal_targets []
    (set_selected_square None
    (set_last_move None
    (set_result_text ""
    (set_game_over false
    (set_fullmove 1
    (set_turn "white" g)))))))).

(** [AtomicChessGame.__init__]: the attributes in the order the constructor
    sets them, then the default registry and the standard position.
    [draws] is the random generator's stream. *)
Definition new_game (now : Z) (draws : list Q) : Game :=
  let g :=
    {| cols := 8; rows := 8; square_size := compute_square_size 8 8;
       board := ∅; piece_types := []; turn := "white"; fullmove := 1;
       last_move := None; game_over := false; result_text := "";
       selected_square := None; legal_targets := []; explosions := [];
       damaged := ∅; rules := default_rules; start_time_ms := now;
       dsl_mode := false; dsl_messages := []; osc_out := [];
       chunks := []; edge_triggers := []; rand_chunk_counter := 0;
       random_draws := draws; next_oid := 0 |} in
  setup_standard_position now (init_default_piece_types g).

(** [add_dsl_message]: append, keep the last 16. *)
Definition add_dsl_message (m : Message) (g : Game) : Game :=
  let l := dsl_messages g ++ [m] in
  set_dsl_messages (drop (length l - 16)%nat l) g.

(** ** Move generation *)

Definition square_blocked_by_damage (g : Game) (x y : Z)
    (piece_type : option PieceType) : bool :=
  if negb (bool_decide ((x, y) ∈ damaged g)) then false
  else if negb (damage_blocks_move (rules g)) then false
  else match piece_type with
       | Some pt => if damaged_ok pt then false else true
       | None => true
       end.

Definition is_none {A : Type} (o : option A) : bool :=
  match o with
  | None => true
  | Some _ => false
  end.

Definition pawn_moves (g : Game) (piece : Piece) (ptype : PieceType)
    (x y : Z) : list Square :=
  let dir_y := if String.eqb (color piece) "white" then 1 else -1 in
  let start_rank := if String.eqb (color piece) "white" then 1 else rows g - 2 in
  let ny := y + dir_y in
  let ny2 := y + 2 * dir_y in
  let forward :=
    if in_bounds g x ny && is_none (board g !! (x, ny))
       && negb (square_blocked_by_damage g x ny (Some ptype))
    then (x, ny) ::
         (if (y =? start_rank) && in_bounds g x ny2
             && is_none (board g !! (x, ny2))
             && negb (square_blocked_by_damage g x ny2 (Some ptype))
          then [(x, ny2)] else [])
    else [] in
  let captures :=
    flat_map
      (fun dx =>
         let nx := x + dx in
         if in_bounds g nx ny
            && negb (square_blocked_by_damage g nx ny (Some ptype))
         then match board g !! (nx, ny) with
              | Some target =>
                  if negb (String.eqb (color target) (color piece))
                  then [(nx, ny)] else []
              | None => []
              end
         else [])
      [-1; 1] in
  forward ++ captures.

Definition leaper_moves (g : Game) (piece : Piece) (ptype : PieceType)
    (x y : Z) : list Square :=
  flat_map
    (fun d : Z * Z =>
       let nx := x + fst d in
       let ny := y + snd d in
       if negb (in_bounds g nx ny) then []
       else if square_blocked_by_damage g nx ny (Some ptype) then []
       else match board g !! (nx, ny) with
            | None => [(nx, ny)]
            | Some target =>
                if negb (String.eqb (color target) (color piece))
                then [(nx, ny)] else []
            end)
    (directions ptype).

(** The inner loop [for step in range(1, max_range + 1)] with its [break]s. *)
Fixpoint slide (g : Game) (piece : Piece) (ptype : PieceType) (x y dx dy : Z)
    (steps : list Z) : list Square :=
  match steps with
  | [] => []
  | step :: rest =>
      let nx := x + dx * step in
      let ny := y + dy * step in
      if negb (in_bounds g nx ny) then []
      else if square_blocked_by_damage g nx ny (Some ptype) then []
      else match board g !! (nx, ny) with
           | None => (nx, ny) :: slide g piece ptype x y dx dy rest
           | Some target =>
               if negb (String.eqb (color target) (color piece))
               then [(nx, ny)] else []
           end
  end.

Definition nonempty {A : Type} (l : list A) : bool :=
  match l with
  | [] => false
  | _ => true
  end.

Definition slider_moves (g : Game) (piece : Piece) (ptype : PieceType)
    (x y : Z) : list Square :=
  if nonempty (directions ptype) then
    let base_max :=
      match max_range ptype with
      | Some r => r
      | None => Z.max (cols g) (rows g)
      end in
    let bonus := default 0 (range_bonus (state piece)) in
    let max_range' :=
      match max_range ptype with
      | Some _ => base_max + bonus
      | None => base_max
      end in
    flat_map
      (fun d : Z * Z =>
         slide g piece ptype x y (fst d) (snd d) (range 1 (max_range' + 1)))
      (directions ptype)
  else [].

Definition generate_moves_for_piece (g : Game) (x y : Z) : list Square :=
  match board g !! (x, y) with
  | None => []
  | Some piece =>
      match dict_get (type_name piece) (piece_types g) with
      | None => []
      | Some ptype =>
          if String.eqb (kind ptype) "pawn" then pawn_moves g piece ptype x y
          else
            let leaps :=
              if String.eqb (kind ptype) "knight"
                 || (can_jump ptype && nonempty (directions ptype))
              then leaper_moves g piece ptype x y else [] in
            if (String.eqb (kind ptype) "knight"
                || (can_jump ptype && nonempty (directions ptype)))
               && (String.eqb (kind ptype) "knight" || can_jump ptype)
            then leaps
            else leaps ++ slider_moves g piece ptype x y
      end
  end.

(** ** The random module *)

(** [random.random()]: the next draw, a value in [0, 1). *)
Definition next_random (g : Game) : Q * Game :=
  match random_draws g with
  | [] => (0%Q, g)
  | q :: r => (q, set_random_draws r g)
  end.

(** Index chosen among [n] equally likely ones by a draw [q]. *)
Definition draw_index (q : Q) (n : Z) : Z :=
  Z.max 0 (Z.min (n - 1) (Qfloor (q * inject_Z n))).

(** [random.choice(l)] on a non-empty list ([d] is only a filler). *)
Definition random_choice {A : Type} (l : list A) (d : A) (g : Game)
  : A * Game :=
  let '(q, g') := next_random g in
  (nth (Z.to_nat (draw_index q (Z.of_nat (length l)))) l d, g').

(** [random.randint(a, b)]; raises [ValueError] on an empty range. *)
Definition random_randint (a b : Z) (g : Game) : Outcome Z :=
  if b <? a then Raised ValueError g
  else let '(q, g') := next_random g in
       Done (a + draw_index q (b - a + 1)) g'.

(** ** Mutation of a piece object

    [piece.state[...] = ...] through a reference to the object numbered [i]:
    the cell that holds this object, if any, sees the change. *)
Definition mutate_piece (i : Z) (f : PieceState -> PieceState) (g : Game)
  : Game :=
  set_board
    ((fun p => if oid p =? i then with_state p (f (state p)) else p)
       <$> board g) g.

(** ** Script hooks *)

Definition resolve_script_descriptor (piece : Piece)
    (ptype : option PieceType) : option string * Num :=
  match ptype with
  | None => (None, NFloat 0)
  | Some pt =>
      let sname :=
        match script_name_override (state piece) with
        | Some s => Some s
        | None => script_name pt
        end in
      match sname with
      | None => (None, NFloat 0)
      | Some s =>
          if negb (str_truthy s) then (None, NFloat 0)
          else
            let param :=
              match script_param_override (state piece) with
              | Some p => p
              | None =>
                  if num_truthy (script_param pt) then script_param pt
                  else NFloat 0
              end in
            (Some s, param)
      end
  end.

(** [max(0.0, min(1.0, p if p <= 1.0 else p / 100.0))] *)
Definition percent_clamp (p : Q) : Q :=
  Qmax 0 (Qmin 1 (if Qle_bool p 1 then p else (p / 100)%Q)).

(** Returns the new target, or [None] when the move is cancelled. *)
Definition apply_script_pre_move (piece : Piece) (ptype : option PieceType)
    (from_sq to_sq : Square) (legal_moves : list Square) (g : Game)
  : option Square * Game :=
  match resolve_script_descriptor piece ptype with
  | (None, _) => (Some to_sq, g)
  | (Some sname, param) =>
      let sname := lower sname in
      if String.eqb sname "stutter" then
        let p := percent_clamp (num_float param) in
        let '(r, g) := next_random g in
        if Qltb r p then (None, g) else (Some to_sq, g)
      else if String.eqb sname "jitter" then
        let p := percent_clamp (num_float param) in
        if nonempty legal_moves then
          let '(r, g) := next_random g in
          if Qltb r p then
            let '(sq, g) := random_choice legal_moves to_sq g in (Some sq, g)
          else (Some to_sq, g)
        else (Some to_sq, g)
      else if String.eqb sname "entropy" then
        let base_p := num_float param in
        let level := default 0 (entropy_level (state piece)) in
        let p := (base_p * (1 + (1 # 10) * inject_Z level))%Q in
        let p := Qmax 0 (Qmin 1 p) in
        if nonempty legal_moves then
          let '(r, g) := next_random g in
          if Qltb r p then
            let '(sq, g) := random_choice legal_moves to_sq g in (Some sq, g)
          else (Some to_sq, g)
        else (Some to_sq, g)
      else (Some to_sq, g)
  end.

(** [piece] is the object the caller found on [to_sq]. *)
Definition apply_script_post_move (piece : Piece) (ptype : option PieceType)
    (from_sq to_sq : Square) (g : Game) : Game :=
  match resolve_script_descriptor piece ptype with
  | (None, _) => g
  | (Some sname, param) =>
      let sname := lower sname in
      if String.eqb sname "decay" then
        let max_moves := num_int param in
        if max_moves <=? 0 then g
        else
          let left := default max_moves (decay_left (state piece)) - 1 in
          let g := mutate_piece (oid piece) (set_decay_left (Some left)) g in
          if left <=? 0 then
            let '(tx, ty) := to_sq in
            if in_bounds g tx ty
               && match board g !! (tx, ty) with
                  | Some q => oid q =? oid piece
                  | None => false
                  end
            then set_board (delete (tx, ty) (board g)) g
            else g
          else g
      else if String.eqb sname "charge" then
        let threshold := num_int param in
        if threshold <=? 0 then g
        else
          let count := default 0 (charge_count (state piece)) + 1 in
          let g := mutate_piece (oid piece) (set_charge_count (Some count)) g in
          if threshold <=? count then
            let bonus := default 0 (range_bonus (state piece)) + 1 in
            mutate_piece (oid piece)
              (fun st => set_range_bonus (Some bonus)
                           (set_charge_count (Some 0) st)) g
          else g
      else if String.eqb sname "heat" then
        let threshold := num_int param in
        if threshold <=? 0 then g
        else
          let count := default 0 (heat_count (state piece)) + 1 in
          let g := mutate_piece (oid piece) (set_heat_count (Some count)) g in
          if threshold <=? count then
            let bonus := default 0 (heat_bonus (state piece)) + 1 in
            mutate_piece (oid piece)
              (fun st => set_heat_bonus (Some bonus)
                           (set_heat_count (Some 0) st)) g
          else g
      else if String.eqb sname "entropy" then
        let level := default 0 (entropy_level (state piece)) + 1 in
        mutate_piece (oid piece) (set_entropy_level (Some level)) g
      else g
  end.

(** ** OSC helpers *)

(** [piece_name]: ["none"] or ["<color>_<type>"]. *)
Definition piece_name (piece : option Piece) : string :=
  match piece with
  | None => "none"
  | Some p => String.append (color p) (String.append "_" (type_name p))
  end.

(** The squares of the block of Chebyshev radius [radius] around [(cx, cy)],
    in the order of the loops [for dy ...: for dx ...]. *)
Definition block_cells (cx cy radius : Z) : list Square :=
  flat_map
    (fun dy => map (fun dx => (cx + dx, cy + dy)) (range (- radius) (radius + 1)))
    (range (- radius) (radius + 1)).

Definition get_neighbour_pieces (center : Square) (g : Game)
  : list (Square * string) :=
  if negb (osc_neighbours (rules g)) then []
  else
    let radius := Z.max 0 (osc_neighbour_radius (rules g)) in
    let '(cx, cy) := center in
    flat_map
      (fun c : Square =>
         if in_bounds g (fst c) (snd c) then
           match board g !! c with
           | Some p => [(c, piece_name (Some p))]
           | None => []
           end
         else [])
      (block_cells cx cy radius).

(** The squares of the grid, row by row. *)
Definition grid_cells (g : Game) : list Square :=
  flat_map (fun y => map (fun x => (x, y)) (range 0 (cols g)))
           (range 0 (rows g)).

Definition count_pieces (g : Game) : Z * Z :=
  foldl
    (fun (acc : Z * Z) c =>
       match board g !! c with
       | Some p =>
           if String.eqb (color p) "white" then (fst acc + 1, snd acc)
           else (fst acc, snd acc + 1)
       | None => acc
       end)
    (0, 0) (grid_cells g).

Definition send_move_osc (from_sq to_sq : Square) (captured_piece_name : string)
    (neighbour_list : list (Square * string)) (g : Game) : Game :=
  let '(white_count, black_count) := count_pieces g in
  set_osc_out
    (osc_out g ++
     [OscMove (fullmove g) from_sq to_sq captured_piece_name
        white_count black_count neighbour_list (osc_label (rules g))]) g.

Definition send_game_over_osc (result outcome_str : string) (g : Game) : Game :=
  set_osc_out (osc_out g ++ [OscGameOver result outcome_str]) g.

(** ** Game state helpers *)

Definition set_result (text result outcome_str : string) (g : Game) : Game :=
  send_game_over_osc result outcome_str
    (set_result_text text (set_game_over true g)).

Definition apply_limit_result (reason_text osc_reason limit_result : string)
    (g : Game) : Game :=
  if game_over g then g
  else if String.eqb limit_result "white" then
    set_result (String.append "1–0 (" (String.append reason_text ")"))
      "1-0" (String.append osc_reason "_WHITE") g
  else if String.eqb limit_result "black" then
    set_result (String.append "0–1 (" (String.append reason_text ")"))
      "0-1" (String.append osc_reason "_BLACK") g
  else
    set_result (String.append "½–½ (" (String.append reason_text ")"))
      "1/2-1/2" (String.append osc_reason "_DRAW") g.

(** [now] is [pygame.time.get_ticks()]. *)
Definition check_limits_game_over (now : Z) (g : Game) : Game :=
  if game_over g then g
  else
    let max_moves := max_fullmoves (rules g) in
    let max_secs := max_seconds (rules g) in
    let limit := limit_result (rules g) in
    if (0 <? max_moves) && (max_moves <? fullmove g) then
      apply_limit_result "Move limit reached" "MOVE_LIMIT" limit g
    else if 0 <? max_secs then
      let elapsed_ms := now - start_time_ms g in
      if max_secs * 1000 <=? elapsed_ms then
        apply_limit_result "Time limit reached" "TIME_LIMIT" limit g
      else g
    else g.

Definition count_royals (g : Game) : Z * Z :=
  foldl
    (fun (acc : Z * Z) c =>
       match board g !! c with
       | None => acc
       | Some p =>
           match dict_get (type_name p) (piece_types g) with
           | None => acc
           | Some pt =>
               if negb (is_royal pt) then acc
               else if String.eqb (color p) "white"
                    then (fst acc + 1, snd acc)
                    else (fst acc, snd acc + 1)
           end
       end)
    (0, 0) (grid_cells g).

(** The three-way test shared by both victory modes; [None] when neither
    count is zero. *)
Definition decide_by_counts (white black : Z)
    (both white_lost black_lost : string * string * string) (g : Game)
  : option Game :=
  if (white =? 0) && (black =? 0) then
    Some (set_result (fst (fst both)) (snd (fst both)) (snd both) g)
  else if white =? 0 then
    Some (set_result (fst (fst white_lost)) (snd (fst white_lost))
            (snd white_lost) g)
  else if black =? 0 then
    Some (set_result (fst (fst black_lost)) (snd (fst black_lost))
            (snd black_lost) g)
  else None.

Definition update_game_over (now : Z) (g : Game) : Game :=
  if game_over g then g
  else
    let mode := victory (rules g) in
    let by_royals :=
      if String.eqb mode "king_capture" then
        let '(white_royals, black_royals) := count_royals g in
        decide_by_counts white_royals black_royals
          ("½–½ (No royals left)", "1/2-1/2", "NO_ROYALS")
          ("0–1 (White royal lost)", "0-1", "WHITE_ROYAL_LOST")
          ("1–0 (Black royal lost)", "1-0", "BLACK_ROYAL_LOST") g
      else None in
    match by_royals with
    | Some g' => g'
    | None =>
        let by_count :=
          if String.eqb mode "elimination" then
            let '(white_count, black_count) := count_pieces g in
            decide_by_counts white_count black_count
              ("½–½ (Mutual destruction)", "1/2-1/2", "MUTUAL_DESTRUCTION")
              ("0–1 (White eliminated)", "0-1", "WHITE_ELIMINATED")
              ("1–0 (Black eliminated)", "1-0", "BLACK_ELIMINATED") g
          else None in
        match by_count with
        | Some g' => g'
        | None => check_limits_game_over now g
        end
    end.

(** ** Chunk / edge logic *)

(** [x1, y1, x2, y2 = rect] followed by the two swaps. *)
Definition normalize_rect (r : Z * Z * Z * Z) : Z * Z * Z * Z :=
  let '(x1, y1, x2, y2) := r in
  let '(x1, x2) := if x2 <? x1 then (x2, x1) else (x1, x2) in
  let '(y1, y2) := if y2 <? y1 then (y2, y1) else (y1, y2) in
  (x1, y1, x2, y2).

(** The cells of [for y in range(y1, y2 + 1): for x in range(x1, x2 + 1)]. *)
Definition rect_cells (r : Z * Z * Z * Z) : list Square :=
  let '(x1, y1, x2, y2) := r in
  flat_map (fun y => map (fun x => (x, y)) (range x1 (x2 + 1)))
           (range y1 (y2 + 1)).

Definition pos_in_rect (pos : Square) (r : Z * Z * Z * Z) : bool :=
  let '(x, y) := pos in
  let '(x1, y1, x2, y2) := normalize_rect r in
  (x1 <=? x) && (x <=? x2) && (y1 <=? y) && (y <=? y2).

(** Body of the "turn OFF" loop. *)
Definition void_cell (g : Game) (c : Square) : Game :=
  if negb (in_bounds g (fst c) (snd c)) then g
  else set_damaged ({[ c ]} ∪ damaged g) (set_board (delete c (board g)) g).

(** Body of the "turn ON" loop over the damaged set. *)
Definition undamage_cell (g : Game) (c : Square) : Game :=
  if negb (in_bounds g (fst c) (snd c)) then g
  else if bool_decide (c ∈ damaged g) then set_damaged (damaged g ∖ {[ c ]}) g
  else g.

(** Body of the fill loop, once [tname[0].upper()] is known to be [sym]. *)
Definition fill_cell (c t sym : string) (g : Game) (sq : Square) : Game :=
  if negb (in_bounds g (fst sq) (snd sq)) then g
  else match board g !! sq with
       | None =>
           let '(p, g) := new_piece c t sym g in
           set_board (<[sq := p]> (board g)) g
       | Some _ => g
       end.

Definition set_chunk_active (n : string) (ch : Chunk) (b : bool) (g : Game)
  : Game :=
  set_chunks (dict_set n (set_active b ch) (chunks g)) g.

Definition toggle_chunk (n : string) (mover_color : option string) (g : Game)
  : Outcome unit :=
  match dict_get n (chunks g) with
  | None => Done tt (add_dsl_message (MsgChunkUnknown n) g)
  | Some ch =>
      let r := normalize_rect (rect ch) in
      let blocked :=
        match mover_color with
        | Some mc =>
            (String.eqb (owner ch) "white" || String.eqb (owner ch) "black")
            && negb (String.eqb mc (owner ch))
        | None => false
        end in
      if blocked then Done tt g
      else if active ch then
        let g := foldl void_cell g (rect_cells r) in
        let g := set_chunk_active n ch false g in
        Done tt (add_dsl_message (MsgChunkDisabled n) g)
      else
        let g := foldl undamage_cell g (rect_cells r) in
        let g := set_chunk_active n ch true g in
        match fill ch with
        | None => Done tt (add_dsl_message (MsgChunkEnabled n) g)
        | Some f =>
            let c := lower (default "white" (fill_color f)) in
            let t := lower (default "pawn" (fill_type f)) in
            let with_type : Outcome unit :=
              if dict_mem t (piece_types g) then Done tt g
              else match dict_get "queen" (piece_types g) with
                   | None => Raised AttributeError g
                   | Some base =>
                       Done tt
                         (set_piece_types
                            (dict_set t
                               (PieceType_basic t (kind base) (directions base)
                                  (max_range base) (can_jump base))
                               (piece_types g)) g)
                   end in
            obind with_type (fun _ g =>
              match first_upper t with
              | None =>
                  if existsb
                       (fun sq => in_bounds g (fst sq) (snd sq)
                                  && is_none (board g !! sq))
                       (rect_cells r)
                  then Raised IndexError g
                  else Done tt (add_dsl_message (MsgChunkEnabled n) g)
              | Some sym =>
                  let g := foldl (fill_cell c t sym) g (rect_cells r) in
                  Done tt (add_dsl_message (MsgChunkEnabled n) g)
              end)
        end
  end.

(** [f"rand_{n}"] *)
Definition rand_chunk_name (n : Z) : string :=
  String.append "rand_" (pretty n).

Definition spawn_random_chunk_near_edge (pos : Square) (trig_dist : Z)
    (minw maxw minh maxh : Z) (g : Game) : Outcome unit :=
  let '(x, y) := pos in
  let d_left := x in
  let d_right := cols g - 1 - x in
  let d_bottom := y in
  let d_top := rows g - 1 - y in
  let dists :=
    [("left", d_left); ("right", d_right); ("bottom", d_bottom);
     ("top", d_top)] in
  let mind := Z.min (Z.min d_left d_right) (Z.min d_bottom d_top) in
  if trig_dist <? mind then Done tt g
  else
    let nearest_edges :=
      map fst (filter (fun ed : string * Z => snd ed = mind) dists) in
    let '(edge, g) := random_choice nearest_edges "left" g in
    let minw := Z.max 1 minw in
    let maxw := Z.max minw maxw in
    let minh := Z.max 1 minh in
    let maxh := Z.max minh maxh in
    obind (random_randint minw (Z.min maxw (cols g)) g) (fun w g =>
    obind (random_randint minh (Z.min maxh (rows g)) g) (fun h g =>
      let '(x1, y1, x2, y2) :=
        if String.eqb edge "left" || String.eqb edge "right" then
          let y1 := Z.max 0 (y - h / 2) in
          let y2 := Z.min (rows g - 1) (y1 + h - 1) in
          if String.eqb edge "left" then
            (0, y1, Z.min (cols g - 1) (0 + w - 1), y2)
          else
            (Z.max 0 (cols g - 1 - w + 1), y1, cols g - 1, y2)
        else
          let x1 := Z.max 0 (x - w / 2) in
          let x2 := Z.min (cols g - 1) (x1 + w - 1) in
          if String.eqb edge "bottom" then
            (x1, 0, x2, Z.min (rows g - 1) (0 + h - 1))
          else
            (x1, Z.max 0 (rows g - 1 - h + 1), x2, rows g - 1) in
      let n := rand_chunk_name (rand_chunk_counter g) in
      let g := set_rand_chunk_counter (rand_chunk_counter g + 1) g in
      let g :=
        set_chunks
          (dict_set n
             {| rect := (x1, y1, x2, y2); fill := None; active := true;
                owner := "any"; enter_script := None; leave_script := None |}
             (chunks g)) g in
      Done tt (add_dsl_message (MsgRandomChunk n x1 y1 x2 y2 edge) g))).

(** [piece] is the mover, whether or not it still stands on the board. *)
Definition apply_chunk_script_override (piece : Piece)
    (scr : option ChunkScript) (g : Game) : Game :=
  match scr with
  | None => g
  | Some s =>
      match cs_name s with
      | None => g
      | Some n =>
          if negb (str_truthy n) then g
          else if String.eqb n "none" then
            mutate_piece (oid piece)
              (fun st => set_script_param_override None
                           (set_script_name_override None st)) g
          else
            mutate_piece (oid piece)
              (fun st => set_script_param_override
                           (Some (default (NFloat 0) (cs_param s)))
                           (set_script_name_override (Some n) st)) g
      end
  end.

Definition trigger_step (piece : Piece) (pos : Square) (min_dist : Z)
    (g : Game) (trig : Trigger) : Outcome unit :=
  match trig with
  | TrigRandom ttype dist minw maxw minh maxh =>
      if negb (String.eqb ttype "any")
         && negb (String.eqb ttype (type_name piece)) then Done tt g
      else if dist <? min_dist then Done tt g
      else spawn_random_chunk_near_edge pos dist minw maxw minh maxh g
  | TrigChunk ttype dist chunk =>
      if negb (String.eqb ttype "any")
         && negb (String.eqb ttype (type_name piece)) then Done tt g
      else if dist <? min_dist then Done tt g
      else if negb (str_truthy chunk) then Done tt g
      else toggle_chunk chunk (Some (color piece)) g
  end.

Definition check_edge_triggers (piece : Piece) (pos : Square) (g : Game)
  : Outcome unit :=
  let '(x, y) := pos in
  let d_left := x in
  let d_right := cols g - 1 - x in
  let d_bottom := y in
  let d_top := rows g - 1 - y in
  let min_dist := Z.min (Z.min d_left d_right) (Z.min d_bottom d_top) in
  foldl (fun (acc : Outcome unit) trig =>
           obind acc (fun _ g => trigger_step piece pos min_dist g trig))
        (Done tt g) (edge_triggers g).

(** A script dictionary is truthy unless it is empty. *)
Definition script_truthy (scr : option ChunkScript) : bool :=
  match scr with
  | None => false
  | Some s =>
      match cs_name s, cs_param s with
      | None, None => false
      | _, _ => true
      end
  end.

Definition chunk_entry_exit_step (piece : Piece) (from_sq to_sq : Square)
    (g : Game) (entry : string * Chunk) : Game :=
  let '(n, ch) := entry in
  if negb (active ch) then g
  else if (String.eqb (owner ch) "white" || String.eqb (owner ch) "black")
          && negb (String.eqb (color piece) (owner ch)) then g
  else
    let in_from := pos_in_rect from_sq (rect ch) in
    let in_to := pos_in_rect to_sq (rect ch) in
    let g :=
      if in_to && negb in_from && script_truthy (enter_script ch) then
        add_dsl_message (MsgEntered (color piece) (type_name piece) n)
          (apply_chunk_script_override piece (enter_script ch) g)
      else g in
    if in_from && negb in_to && script_truthy (leave_script ch) then
      add_dsl_message (MsgLeft (color piece) (type_name piece) n)
        (apply_chunk_script_override piece (leave_script ch) g)
    else g.

Definition apply_chunk_entry_exit (piece : Piece) (from_sq to_sq : Square)
    (g : Game) : Game :=
  foldl (chunk_entry_exit_step piece from_sq to_sq) g (chunks g).

(** ** Making a move

    [try_make_move] is cut into the blocks its comments name. *)

(** "Move piece first" *)
Definition move_piece (piece : Piece) (from_sq to_sq : Square) (g : Game)
  : Game :=
  set_board (<[to_sq := piece]> (delete from_sq (board g))) g.

(** "Determine explosion radius" and "heat-based bonus" *)
Definition blast_radius (piece : Piece) (ptype : option PieceType) (g : Game)
  : Z :=
  let base_radius := atomic_radius (rules g) in
  let base_radius := if base_radius <? 0 then 0 else base_radius in
  let base_radius :=
    match ptype with
    | Some pt =>
        match explosion_radius pt with
        | Some r => Z.max 0 r
        | None => base_radius
        end
    | None => base_radius
    end in
  let heat :=
    match heat_bonus (state piece) with
    | Some h => h
    | None => 0
    end in
  Z.max 0 (base_radius + Z.max 0 heat).

(** [ExplosionManager.trigger_explosion] *)
Definition trigger_explosion (center : Square) (now_ms radius_cells : Z)
    (g : Game) : Game :=
  set_explosions
    (explosions g ++
     [{| ex_cells := block_cells (fst center) (snd center) radius_cells;
         ex_start_ms := now_ms; ex_radius := radius_cells |}]) g.

(** Body of "Remove all pieces in neighbourhood; optionally spare the
    center". *)
Definition blast_cell (to_sq : Square) (spare_center : bool) (g : Game)
    (c : Square) : Game :=
  if negb (in_bounds g (fst c) (snd c)) then g
  else if spare_center && (fst c =? fst to_sq) && (snd c =? snd to_sq) then g
  else match board g !! c with
       | None => g
       | Some victim =>
           match dict_get (type_name victim) (piece_types g) with
           | Some vtype =>
               if immune_to_explosion vtype then g
               else set_board (delete c (board g)) g
           | None => set_board (delete c (board g)) g
           end
       end.

(** "Handle capture modes"; [target] is what stood on [to_sq] before the
    move. *)
Definition resolve_capture (piece : Piece) (ptype : option PieceType)
    (target : option Piece) (to_sq : Square) (now : Z) (g : Game) : Game :=
  let mode := capture_mode (rules g) in
  let is_capture := negb (is_none target) && negb (String.eqb mode "none") in
  if negb is_capture then g
  else if String.eqb mode "normal" then g
  else if String.eqb mode "atomic" then
    let radius := blast_radius piece ptype g in
    let g :=
      if 0 <? radius then
        let g := trigger_explosion to_sq now radius g in
        let g :=
          foldl (blast_cell to_sq (center_survives (rules g))) g
                (block_cells (fst to_sq) (snd to_sq) radius) in
        if negb (center_survives (rules g))
        then set_board (delete to_sq (board g)) g
        else g
      else g in
    if center_damages (rules g)
    then set_damaged ({[ to_sq ]} ∪ damaged g) g
    else g
  else g.

(** "Apply post-move script if piece survived" *)
Definition post_move_script (piece : Piece) (ptype : option PieceType)
    (from_sq to_sq : Square) (g : Game) : Game :=
  if in_bounds g (fst to_sq) (snd to_sq) then
    match board g !! to_sq with
    | Some piece_after =>
        if oid piece_after =? oid piece
        then apply_script_post_move piece_after ptype from_sq to_sq g
        else g
    | None => g
    end
  else g.

(** "Toggle turn & fullmove" *)
Definition toggle_turn (g : Game) : Game :=
  let g :=
    if String.eqb (turn g) "black" then set_fullmove (fullmove g + 1) g
    else g in
  set_turn (if String.eqb (turn g) "black" then "white" else "black") g.

(** "Neighbour pieces", "Toggle turn & fullmove", "Send OSC" and "Clear
    selection". *)
Definition hand_over (from_sq to_sq : Square) (captured_name : string)
    (g : Game) : Game :=
  let neighbours := get_neighbour_pieces to_sq g in
  let g := toggle_turn g in
  let g := send_move_osc from_sq to_sq captured_name neighbours g in
  set_legal_targets [] (set_selected_square None g).

Definition try_make_move (from_sq to_sq : Square) (now : Z) (g : Game)
  : Outcome bool :=
  match board g !! from_sq with
  | None => Done false g
  | Some piece =>
      let legal := generate_moves_for_piece g (fst from_sq) (snd from_sq) in
      if negb (bool_decide (to_sq ∈ legal)) then Done false g
      else
        let ptype := dict_get (type_name piece) (piece_types g) in
        let '(new_target, g) :=
          apply_script_pre_move piece ptype from_sq to_sq legal g in
        match new_target with
        | None => Done false g
        | Some to_sq =>
            if negb (in_bounds g (fst to_sq) (snd to_sq)) then Done false g
            else
              let target := board g !! to_sq in
              let captured_name := piece_name target in
              let g := move_piece piece from_sq to_sq g in
              let g := resolve_capture piece ptype target to_sq now g in
              let g := set_last_move (Some (from_sq, to_sq)) g in
              let g := post_move_script piece ptype from_sq to_sq g in
              let g := hand_over from_sq to_sq captured_name g in
              obind (check_edge_triggers piece to_sq g) (fun _ g =>
                let g := apply_chunk_entry_exit piece from_sq to_sq g in
                Done true (update_game_over now g))
        end
  end.

(** ** Input handling *)

Definition screen_to_square (px py sq_size r c : Z) : option Square :=
  if (px <? 0) || (py <? 0) then None
  else
    let max_w := c * sq_size in
    let max_h := r * sq_size in
    if (max_w <=? px) || (max_h <=? py) then None
    else
      let col := px / sq_size in
      let row_from_top := py / sq_size in
      let y := r - 1 - row_from_top in
      let x := col in
      if (0 <=? x) && (x <? c) && (0 <=? y) && (y <? r) then Some (x, y)
      else None.

Definition select_square (x y : Z) (g : Game) : Game :=
  set_legal_targets (generate_moves_for_piece g x y)
    (set_selected_square (Some (x, y)) g).

Definition own_piece (piece : option Piece) (g : Game) : bool :=
  match piece with
  | Some p => String.eqb (color p) (turn g)
  | None => false
  end.

(** A left click at pixel [pos]: the only caller of [try_make_move]. *)
Definition handle_click (pos : Z * Z) (now : Z) (g : Game) : Outcome unit :=
  if game_over g || dsl_mode g then Done tt g
  else
    match screen_to_square (fst pos) (snd pos) (square_size g) (rows g)
            (cols g) with
    | None => Done tt g
    | Some (x, y) =>
        let piece := board g !! (x, y) in
        match selected_square g with
        | None =>
            if own_piece piece g then Done tt (select_square x y g)
            else Done tt g
        | Some sel =>
            if bool_decide ((x, y) = sel) then
              Done tt (set_legal_targets [] (set_selected_square None g))
            else
              obind (try_make_move sel (x, y) now g) (fun moved g =>
                if negb moved then
                  if own_piece piece g then Done tt (select_square x y g)
                  else Done tt g
                else Done tt g)
        end
    end.

(** [reset_game] *)
Definition reset_game (now : Z) (g : Game) : Game :=
  set_edge_triggers []
    (set_chunks []
      (setup_standard_position now
        (init_default_piece_types (init_default_rules g)))).

(** ** Configuration save/load

    [export_config] builds a Python dictionary and [import_config] reads one;
    both are modelled on [PyVal].  A [PDict] lists its keys once each, as a
    Python dictionary does. *)

(** *** Reading Python values *)

(** Result of reading one value: read, raised, or outside the model. *)
Inductive Dec (A : Type) : Type :=
  | DOk (a : A)
  | DExn (e : PyExn)
  | DBad.

Arguments DOk {A} a.
Arguments DExn {A} e.
Arguments DBad {A}.

Definition dbind {A B : Type} (m : Dec A) (k : A -> Dec B) : Dec B :=
  match m with
  | DOk a => k a
  | DExn e => DExn e
  | DBad => DBad
  end.

(** Lifts a read into an engine step: an exception leaves the engine as it
    is at that point. *)
Definition lift {A B : Type} (m : Dec A) (g : Game)
    (k : A -> Outcome B) : Outcome B :=
  match m with
  | DOk a => k a
  | DExn e => Raised e g
  | DBad => Unmodelled
  end.

(** [int(v)].  Parsing of strings is not modelled. *)
Definition py_int (v : PyVal) : Dec Z :=
  match v with
  | PInt z => DOk z
  | PBool b => DOk (if b then 1 else 0)
  | PFloat q => DOk (Qtrunc q)
  | PStr _ => DBad
  | PNone | PList _ | PDict _ => DExn TypeError
  end.

(** [bool(v)] *)
Definition py_truthy (v : PyVal) : bool :=
  match v with
  | PNone => false
  | PBool b => b
  | PInt z => negb (z =? 0)
  | PFloat q => negb (Qeq_bool q 0)
  | PStr s => str_truthy s
  | PList l => nonempty l
  | PDict d => nonempty d
  end.

(** [d.get(k, dflt)] *)
Definition py_get (k : string) (d : list (string * PyVal)) (dflt : PyVal)
  : PyVal :=
  default dflt (dict_get k d).

(** [str(v)], on strings. *)
Definition py_str (v : PyVal) : Dec string :=
  match v with
  | PStr s => DOk s
  | _ => DBad
  end.

(** [try: int(v) except Exception: dflt] *)
Definition py_int_or (v : PyVal) (dflt : Z) : Dec Z :=
  match py_int v with
  | DOk z => DOk z
  | DExn _ => DOk dflt
  | DBad => DBad
  end.

(** Values that must already have the type the engine gives them. *)
Definition as_str (v : PyVal) : Dec string :=
  match v with
  | PStr s => DOk s
  | _ => DBad
  end.

Definition as_bool (v : PyVal) : Dec bool :=
  match v with
  | PBool b => DOk b
  | _ => DBad
  end.

Definition as_int (v : PyVal) : Dec Z :=
  match v with
  | PInt z => DOk z
  | _ => DBad
  end.

Definition as_opt_int (v : PyVal) : Dec (option Z) :=
  match v with
  | PNone => DOk None
  | PInt z => DOk (Some z)
  | _ => DBad
  end.

Definition as_opt_str (v : PyVal) : Dec (option string) :=
  match v with
  | PNone => DOk None
  | PStr s => DOk (Some s)
  | _ => DBad
  end.

Definition as_num (v : PyVal) : Dec Num :=
  match v with
  | PInt z => DOk (NInt z)
  | PFloat q => DOk (NFloat q)
  | _ => DBad
  end.

(** *** Writing Python values *)

Definition enc_num (n : Num) : PyVal :=
  match n with
  | NInt z => PInt z
  | NFloat q => PFloat q
  end.

Definition enc_opt {A : Type} (f : A -> PyVal) (o : option A) : PyVal :=
  match o with
  | Some a => f a
  | None => PNone
  end.

Definition enc_pair (p : Z * Z) : PyVal :=
  PList [PInt (fst p); PInt (snd p)].

Definition enc_rules (r : Rules) : PyVal :=
  PDict
    [ ("capture_mode", PStr (capture_mode r));
      ("atomic_radius", PInt (atomic_radius r));
      ("center_damages", PBool (center_damages r));
      ("center_survives", PBool (center_survives r));
      ("damage_blocks_move", PBool (damage_blocks_move r));
      ("victory", PStr (victory r));
      ("max_fullmoves", PInt (max_fullmoves r));
      ("max_seconds", PInt (max_seconds r));
      ("limit_result", PStr (limit_result r));
      ("osc_neighbour_radius", PInt (osc_neighbour_radius r));
      ("osc_neighbours", PBool (osc_neighbours r));
      ("osc_label", PStr (osc_label r)) ].

(** A dictionary entry that is present only when its value is. *)
Definition opt_entry {A : Type} (k : string) (f : A -> PyVal) (o : option A)
  : list (string * PyVal) :=
  match o with
  | Some a => [(k, f a)]
  | None => []
  end.

Definition enc_fill (f : Fill) : PyVal :=
  PDict (opt_entry "color" PStr (fill_color f)
         ++ opt_entry "type" PStr (fill_type f)).

Definition enc_script (s : ChunkScript) : PyVal :=
  PDict (opt_entry "name" PStr (cs_name s)
         ++ opt_entry "param" enc_num (cs_param s)).

Definition enc_chunk (ch : Chunk) : PyVal :=
  let '(x1, y1, x2, y2) := rect ch in
  PDict
    [ ("rect", PList [PInt x1; PInt y1; PInt x2; PInt y2]);
      ("fill", enc_opt enc_fill (fill ch));
      ("active", PBool (active ch));
      ("owner", PStr (owner ch));
      ("enter_script", enc_opt enc_script (enter_script ch));
      ("leave_script", enc_opt enc_script (leave_script ch)) ].

Definition enc_trigger (t : Trigger) : PyVal :=
  match t with
  | TrigChunk ttype dist chunk =>
      PDict [("type", PStr ttype); ("dist", PInt dist); ("chunk", PStr chunk)]
  | TrigRandom ttype dist minw maxw minh maxh =>
      PDict [("type", PStr ttype); ("dist", PInt dist);
             ("mode", PStr "random");
             ("minw", PInt minw); ("maxw", PInt maxw);
             ("minh", PInt minh); ("maxh", PInt maxh)]
  end.

Definition enc_piece_type (pt : PieceType) : PyVal :=
  PDict
    [ ("kind", PStr (kind pt));
      ("directions", PList (map enc_pair (directions pt)));
      ("max_range", enc_opt PInt (max_range pt));
      ("can_jump", PBool (can_jump pt));
      ("explosion_radius", enc_opt PInt (explosion_radius pt));
      ("immune_to_explosion", PBool (immune_to_explosion pt));
      ("damaged_ok", PBool (damaged_ok pt));
      ("is_royal", PBool (is_royal pt));
      ("script_name", enc_opt PStr (script_name pt));
      ("script_param", enc_num (script_param pt)) ].

Definition enc_board_entry (sq : Square) (p : Piece) : PyVal :=
  PDict
    [ ("x", PInt (fst sq)); ("y", PInt (snd sq));
      ("color", PStr (color p)); ("type", PStr (type_name p));
      ("symbol", PStr (symbol p)) ].

Definition map_values {A : Type} (f : A -> PyVal) (d : list (string * A))
  : list (string * PyVal) :=
  map (fun kv => (fst kv, f (snd kv))) d.

(** [export_config].  The damaged set is listed in the enumeration order of
    the set. *)
Definition export_config (g : Game) : list (string * PyVal) :=
  [ ("cols", PInt (cols g));
    ("rows", PInt (rows g));
    ("turn", PStr (turn g));
    ("fullmove", PInt (fullmove g));
    ("damaged", PList (map enc_pair (elements (damaged g))));
    ("piece_types", PDict (map_values enc_piece_type (piece_types g)));
    ("board",
     PList
       (flat_map
          (fun sq =>
             match board g !! sq with
             | Some p => [enc_board_entry sq p]
             | None => []
             end)
          (grid_cells g)));
    ("rules", enc_rules (rules g));
    ("chunks", PDict (map_values enc_chunk (chunks g)));
    ("edge_triggers", PList (map enc_trigger (edge_triggers g))) ].

(** *** Reading the parts of a configuration *)

(** A loop whose body may raise. *)
Fixpoint ofold {A : Type} (f : Game -> A -> Outcome unit) (l : list A)
    (g : Game) : Outcome unit :=
  match l with
  | [] => Done tt g
  | a :: r => obind (f g a) (fun _ g => ofold f r g)
  end.

(** [for d in v]: lists yield their items, strings their characters,
    dictionaries their keys; [None] and numbers raise. *)
Definition py_iter (v : PyVal) : Dec (list PyVal) :=
  match v with
  | PList l => DOk l
  | PStr s => DOk (map (fun c => PStr (String c EmptyString)) (list_ascii_of_string s))
  | PDict d => DOk (map (fun kv => PStr (fst kv)) d)
  | PNone | PBool _ | PInt _ | PFloat _ => DExn TypeError
  end.

(** One assignment of [self.rules.update(cfg_rules)]. *)
Definition update_rule (k : string) (v : PyVal) (r : Rules) : Dec Rules :=
  if String.eqb k "capture_mode" then
    dbind (as_str v) (fun s => DOk (set_capture_mode s r))
  else if String.eqb k "atomic_radius" then
    dbind (as_int v) (fun z => DOk (set_atomic_radius z r))
  else if String.eqb k "center_damages" then
    dbind (as_bool v) (fun b => DOk (set_center_damages b r))
  else if String.eqb k "center_survives" then
    dbind (as_bool v) (fun b => DOk (set_center_survives b r))
  else if String.eqb k "damage_blocks_move" then
    dbind (as_bool v) (fun b => DOk (set_damage_blocks_move b r))
  else if String.eqb k "victory" then
    dbind (as_str v) (fun s => DOk (set_victory s r))
  else if String.eqb k "max_fullmoves" then
    dbind (as_int v) (fun z => DOk (set_max_fullmoves z r))
  else if String.eqb k "max_seconds" then
    dbind (as_int v) (fun z => DOk (set_max_seconds z r))
  else if String.eqb k "limit_result" then
    dbind (as_str v) (fun s => DOk (set_limit_result s r))
  else if String.eqb k "osc_neighbour_radius" then
    dbind (as_int v) (fun z => DOk (set_osc_neighbour_radius z r))
  else if String.eqb k "osc_neighbours" then
    dbind (as_bool v) (fun b => DOk (set_osc_neighbours b r))
  else if String.eqb k "osc_label" then
    dbind (as_str v) (fun s => DOk (set_osc_label s r))
  else DBad.

Fixpoint update_rules (d : list (string * PyVal)) (r : Rules) : Dec Rules :=
  match d with
  | [] => DOk r
  | (k, v) :: rest => dbind (update_rule k v r) (update_rules rest)
  end.

Fixpoint dec_fill_entries (d : list (string * PyVal)) (f : Fill) : Dec Fill :=
  match d with
  | [] => DOk f
  | (k, v) :: rest =>
      if String.eqb k "color" then
        dbind (as_str v) (fun s =>
          dec_fill_entries rest
            {| fill_color := Some s; fill_type := fill_type f |})
      else if String.eqb k "type" then
        dbind (as_str v) (fun s =>
          dec_fill_entries rest
            {| fill_color := fill_color f; fill_type := Some s |})
      else DBad
  end.

(** [fill if isinstance(fill, dict) else None] *)
Definition dec_fill (v : PyVal) : Dec (option Fill) :=
  match v with
  | PDict d =>
      dbind (dec_fill_entries d {| fill_color := None; fill_type := None |})
            (fun f => DOk (Some f))
  | _ => DOk None
  end.

Fixpoint dec_script_entries (d : list (string * PyVal)) (s : ChunkScript)
  : Dec ChunkScript :=
  match d with
  | [] => DOk s
  | (k, v) :: rest =>
      if String.eqb k "name" then
        dbind (as_str v) (fun n =>
          dec_script_entries rest {| cs_name := Some n; cs_param := cs_param s |})
      else if String.eqb k "param" then
        dbind (as_num v) (fun p =>
          dec_script_entries rest {| cs_name := cs_name s; cs_param := Some p |})
      else DBad
  end.

(** [scr if isinstance(scr, dict) else None] *)
Definition dec_script (v : PyVal) : Dec (option ChunkScript) :=
  match v with
  | PDict d =>
      dbind (dec_script_entries d {| cs_name := None; cs_param := None |})
            (fun s => DOk (Some s))
  | _ => DOk None
  end.

(** [owner if owner in ("white", "black", "any") else "any"] *)
Definition dec_owner (v : PyVal) : string :=
  match v with
  | PStr s =>
      if String.eqb s "white" || String.eqb s "black" || String.eqb s "any"
      then s else "any"
  | _ => "any"
  end.

(** Body of [for name, data in cfg_chunks.items()]. *)
Definition import_chunk (g : Game) (entry : string * PyVal) : Outcome unit :=
  let '(n, data) := entry in
  match data with
  | PDict d =>
      let rect_v := py_get "rect" d PNone in
      let fill_v := py_get "fill" d PNone in
      let active_v := py_truthy (py_get "active" d (PBool false)) in
      let owner_v := py_get "owner" d (PStr "any") in
      let enter_v := py_get "enter_script" d PNone in
      let leave_v := py_get "leave_script" d PNone in
      match rect_v with
      | PList [vx1; vy1; vx2; vy2] =>
          lift (py_int vx1) g (fun x1 =>
          lift (py_int vy1) g (fun y1 =>
          lift (py_int vx2) g (fun x2 =>
          lift (py_int vy2) g (fun y2 =>
          lift (dec_fill fill_v) g (fun f =>
          lift (dec_script enter_v) g (fun es =>
          lift (dec_script leave_v) g (fun ls =>
            Done tt
              (set_chunks
                 (dict_set n
                    {| rect := (x1, y1, x2, y2); fill := f;
                       active := active_v; owner := dec_owner owner_v;
                       enter_script := es; leave_script := ls |}
                    (chunks g)) g))))))))
      | _ => Done tt g
      end
  | _ => Raised AttributeError g
  end.

(** Body of [for t in cfg_trigs]. *)
Definition import_trigger (g : Game) (t : PyVal) : Outcome unit :=
  match t with
  | PDict d =>
      let mode := py_get "mode" d (PStr "chunk") in
      let is_random :=
        match mode with
        | PStr m => String.eqb m "random"
        | _ => false
        end in
      if is_random then
        lift (py_int_or (py_get "dist" d (PInt 0)) 0) g (fun dist_val =>
        lift (py_int_or (py_get "minw" d (PInt 1)) 1) g (fun minw =>
        lift (py_int_or (py_get "maxw" d (PInt (cols g))) (cols g)) g (fun maxw =>
        lift (py_int_or (py_get "minh" d (PInt 1)) 1) g (fun minh =>
        lift (py_int_or (py_get "maxh" d (PInt (rows g))) (rows g)) g (fun maxh =>
        lift (py_str (py_get "type" d (PStr "any"))) g (fun ttype =>
          Done tt
            (set_edge_triggers
               (edge_triggers g ++
                [TrigRandom ttype (Z.max 0 dist_val) minw maxw minh maxh])
               g)))))))
      else
        let ttype := py_get "type" d (PStr "any") in
        lift (py_int (py_get "dist" d (PInt 0))) g (fun dist =>
          let chunk := py_get "chunk" d PNone in
          if negb (py_truthy chunk) then Done tt g
          else
            lift (py_str ttype) g (fun ttype =>
            lift (py_str chunk) g (fun chunk =>
              Done tt
                (set_edge_triggers
                   (edge_triggers g ++ [TrigChunk ttype (Z.max 0 dist) chunk])
                   g))))
  | _ => Done tt g
  end.

(** The loop [for d in dirs] over the items of a list. *)
Fixpoint dec_dir_items (l : list PyVal) : Dec (list (Z * Z)) :=
  match l with
  | [] => DOk []
  | PList [a; b] :: rest =>
      dbind (py_int a) (fun dx =>
      dbind (py_int b) (fun dy =>
      dbind (dec_dir_items rest) (fun ds => DOk ((dx, dy) :: ds))))
  | _ :: rest => dec_dir_items rest
  end.

Definition dec_directions (dirs : PyVal) : Dec (list (Z * Z)) :=
  match dirs with
  | PList l => dec_dir_items l
  | PStr _ | PDict _ => DOk []
  | PNone | PBool _ | PInt _ | PFloat _ => DExn TypeError
  end.

Definition dec_piece_type (n : string) (d : list (string * PyVal))
  : Dec PieceType :=
  dbind (as_str (py_get "kind" d (PStr "custom"))) (fun k =>
  dbind (as_opt_int (py_get "max_range" d (PInt 1))) (fun mr =>
  dbind (as_opt_int (py_get "explosion_radius" d PNone)) (fun er =>
  dbind (as_opt_str (py_get "script_name" d PNone)) (fun sn =>
  dbind (as_num (py_get "script_param" d (PFloat 0))) (fun sp =>
  dbind (dec_directions (py_get "directions" d (PList []))) (fun dirs =>
    DOk {| name := n; kind := k; directions := dirs; max_range := mr;
           can_jump := py_truthy (py_get "can_jump" d (PBool false));
           explosion_radius := er;
           immune_to_explosion :=
             py_truthy (py_get "immune_to_explosion" d (PBool false));
           damaged_ok := py_truthy (py_get "damaged_ok" d (PBool false));
           is_royal := py_truthy (py_get "is_royal" d (PBool false));
           script_name := sn; script_param := sp |})))))).

(** Body of [for name, data in pt_cfg.items()]. *)
Definition import_piece_type (g : Game) (entry : string * PyVal)
  : Outcome unit :=
  let '(n, data) := entry in
  match data with
  | PDict d =>
      lift (dec_piece_type n d) g (fun pt =>
        Done tt (set_piece_types (dict_set n pt (piece_types g)) g))
  | _ => Raised AttributeError g
  end.

(** "fall back to queen-like if unknown" *)
Definition ensure_type (t : string) (g : Game) : Outcome unit :=
  if dict_mem t (piece_types g) then Done tt g
  else match dict_get "queen" (piece_types g) with
       | None => Raised AttributeError g
       | Some base =>
           Done tt
             (set_piece_types
                (dict_set t
                   (PieceType_basic t (kind base) (directions base)
                      (max_range base) (can_jump base))
                   (piece_types g)) g)
       end.

(** Body of [for entry in cfg.get("board", [])]; an exception inside the
    [try] skips the entry. *)
Definition import_board_entry (g : Game) (entry : PyVal) : Outcome unit :=
  match entry with
  | PDict d =>
      match dict_get "x" d, dict_get "y" d, dict_get "color" d,
            dict_get "type" d with
      | Some vx, Some vy, Some vc, Some vt =>
          match py_int vx, py_int vy with
          | DOk x, DOk y =>
              match vt with
              | PStr t =>
                  match first_upper t with
                  | None => Done tt g
                  | Some dflt =>
                      lift (as_str vc) g (fun c =>
                      lift (as_str (py_get "symbol" d (PStr dflt))) g (fun s =>
                        obind (ensure_type t g) (fun _ g =>
                          if in_bounds g x y then
                            let '(p, g) := new_piece c t s g in
                            Done tt (set_board (<[(x, y) := p]> (board g)) g)
                          else Done tt g)))
                  end
              | PList _ => Unmodelled
              | _ => Done tt g
              end
          | DBad, _ => Unmodelled
          | DOk _, DBad => Unmodelled
          | _, _ => Done tt g
          end
      | _, _, _, _ => Done tt g
      end
  | _ => Done tt g
  end.

(** Body of [for d in damaged_list]. *)
Definition import_damaged_entry (g : Game) (d : PyVal) : Outcome unit :=
  match d with
  | PList (a :: b :: _) =>
      match py_int a, py_int b with
      | DOk x, DOk y =>
          if in_bounds g x y
          then Done tt (set_damaged ({[ (x, y) ]} ∪ damaged g) g)
          else Done tt g
      | DBad, _ => Unmodelled
      | DOk _, DBad => Unmodelled
      | _, _ => Done tt g
      end
  | PList [a] =>
      match py_int a with
      | DBad => Unmodelled
      | _ => Done tt g
      end
  | PStr s => if str_truthy s then Unmodelled else Done tt g
  | _ => Done tt g
  end.

(** [try: cols = int(...); rows = int(...) except Exception: cols, rows = 8, 8] *)
Definition dec_dims (cfg : list (string * PyVal)) : Dec (Z * Z) :=
  match py_int (py_get "cols" cfg (PInt 8)) with
  | DOk c =>
      match py_int (py_get "rows" cfg (PInt 8)) with
      | DOk r => DOk (c, r)
      | DExn _ => DOk (8, 8)
      | DBad => DBad
      end
  | DExn _ => DOk (8, 8)
  | DBad => DBad
  end.

(** [import_config]; [now] is [pygame.time.get_ticks()]. *)
Definition import_config (cfg : list (string * PyVal)) (now : Z) (g : Game)
  : Outcome unit :=
  lift (dec_dims cfg) g (fun dims =>
  let c := Z.max 2 (Z.min 20 (fst dims)) in
  let r := Z.max 2 (Z.min 20 (snd dims)) in
  let g := set_square_size (compute_square_size c r) (set_rows r (set_cols c g)) in
  lift (as_str (py_get "turn" cfg (PStr "white"))) g (fun t =>
  let g := set_turn t g in
  lift (py_int (py_get "fullmove" cfg (PInt 1))) g (fun fm =>
  let g :=
    set_start_time_ms now
      (set_legal_targets []
      (set_selected_square None
      (set_last_move None
      (set_result_text ""
      (set_game_over false
      (set_fullmove fm g)))))) in
  (* Rules *)
  let g := init_default_rules g in
  lift (match py_get "rules" cfg PNone with
        | PDict d => update_rules d (rules g)
        | _ => DOk (rules g)
        end) g (fun rl =>
  let g := set_rules rl g in
  (* Chunks & edge triggers *)
  let g := set_chunks [] g in
  obind (match py_get "chunks" cfg (PDict []) with
         | PDict d => ofold import_chunk d g
         | _ => Done tt g
         end) (fun _ g =>
  let g := set_edge_triggers [] g in
  obind (match py_get "edge_triggers" cfg (PList []) with
         | PList l => ofold import_trigger l g
         | _ => Done tt g
         end) (fun _ g =>
  (* Piece types *)
  let g := set_piece_types [] g in
  obind (match py_get "piece_types" cfg (PDict []) with
         | PDict d => ofold import_piece_type d g
         | _ => Raised AttributeError g
         end) (fun _ g =>
  let g :=
    if negb (dict_mem "king" (piece_types g))
       || negb (dict_mem "queen" (piece_types g))
    then init_default_piece_types g else g in
  (* Board *)
  let g := set_board ∅ g in
  lift (py_iter (py_get "board" cfg (PList []))) g (fun entries =>
  obind (ofold import_board_entry entries g) (fun _ g =>
  (* Damaged squares *)
  let damaged_list := py_get "damaged" cfg (PList []) in
  let g := set_damaged ∅ g in
  lift (py_iter damaged_list) g (fun ds =>
    ofold import_damaged_entry ds g)))))))))).

(** ** Notions used by the statements *)

(** What the move generator tests before it lists a square. *)
Definition dest_ok (g : Game) (piece : Piece) (ptype : PieceType)
    (sq : Square) : Prop :=
  in_bounds g (fst sq) (snd sq) = true
  ∧ square_blocked_by_damage g (fst sq) (snd sq) (Some ptype) = false
  ∧ (board g !! sq = None
     ∨ ∃ target, board g !! sq = Some target ∧ color target ≠ color piece).

(** The fate of the piece on [sq] when the blast reaches that square. *)
Definition blasted (to_sq : Square) (spare_center : bool) (g : Game)
    (sq : Square) : option Piece :=
  if negb (in_bounds g (fst sq) (snd sq)) then board g !! sq
  else if spare_center && (fst sq =? fst to_sq) && (snd sq =? snd to_sq)
  then board g !! sq
  else match board g !! sq with
       | None => None
       | Some victim =>
           match dict_get (type_name victim) (piece_types g) with
           | Some vtype => if immune_to_explosion vtype then Some victim else None
           | None => None
           end
       end.

(** Whether explosions spare the piece [v]: its type is registered as
    immune. *)
Definition is_immune (g : Game) (v : Piece) : bool :=
  match dict_get (type_name v) (piece_types g) with
  | Some vtype => immune_to_explosion vtype
  | None => false
  end.


(** The side to move and the move counter. *)
Definition clock (g : Game) : string * Z := (turn g, fullmove g).

(** [P] holds of the engine a method leaves behind, returned or raised. *)
Definition after {A : Type} (P : Game -> Prop) (o : Outcome A) : Prop :=
  match o with
  | Done _ g => P g
  | Raised _ g => P g
  | Unmodelled => True
  end.



(** ** Well-formed engine states *)

Definition valid_owner (o : string) : Prop :=
  o = "white" ∨ o = "black" ∨ o = "any".

Definition valid_trigger (t : Trigger) : Prop :=
  match t with
  | TrigChunk _ dist chunk => 0 ≤ dist ∧ chunk ≠ ""
  | TrigRandom _ dist _ _ _ _ => 0 ≤ dist
  end.

Record wf_game (g : Game) : Prop := {
  wf_cols : 2 ≤ cols g ≤ 20;
  wf_rows : 2 ≤ rows g ≤ 20;
  wf_types_keys : NoDup (map fst (piece_types g));
  wf_king : dict_mem "king" (piece_types g) = true;
  wf_queen : dict_mem "queen" (piece_types g) = true;
  wf_chunks_keys : NoDup (map fst (chunks g));
  wf_owners : Forall (fun kv => valid_owner (owner (snd kv))) (chunks g);
  wf_triggers : Forall valid_trigger (edge_triggers g);
  wf_board :
    ∀ (sq : Square) (p : Piece),
      board g !! sq = Some p ->
      in_bounds g (fst sq) (snd sq) = true
      ∧ type_name p ≠ ""
      ∧ dict_mem (type_name p) (piece_types g) = true;
  wf_damaged :
    ∀ sq : Square, sq ∈ damaged g -> in_bounds g (fst sq) (snd sq) = true
}.

(** The registry entry [import_config] rebuilds: the key becomes the name. *)
Definition with_name (n : string) (pt : PieceType) : PieceType :=
  {| name := n; kind := kind pt; directions := directions pt;
     max_range := max_range pt; can_jump := can_jump pt;
     explosion_radius := explosion_radius pt;
     immune_to_explosion := immune_to_explosion pt;
     damaged_ok := damaged_ok pt; is_royal := is_royal pt;
     script_name := script_name pt; script_param := script_param pt |}.

(** What [export_config] records of a piece. *)
Definition strip (p : Piece) : string * string * string :=
  (color p, type_name p, symbol p).

(** ** The ordering the specification states

    The same blocks as [try_make_move], with the two reactions after the
    hand-over in the order of the specification's ordering guarantee: chunk
    enter/leave first, edge triggers second. *)
Definition try_make_move_spec_order (from_sq to_sq : Square) (now : Z)
    (g : Game) : Outcome bool :=
  match board g !! from_sq with
  | None => Done false g
  | Some piece =>
      let legal := generate_moves_for_piece g (fst from_sq) (snd from_sq) in
      if negb (bool_decide (to_sq ∈ legal)) then Done false g
      else
        let ptype := dict_get (type_name piece) (piece_types g) in
        let '(new_target, g) :=
          apply_script_pre_move piece ptype from_sq to_sq legal g in
        match new_target with
        | None => Done false g
        | Some to_sq =>
            if negb (in_bounds g (fst to_sq) (snd to_sq)) then Done false g
            else
              let target := board g !! to_sq in
              let captured_name := piece_name target in
              let g := move_piece piece from_sq to_sq g in
              let g := resolve_capture piece ptype target to_sq now g in
              let g := set_last_move (Some (from_sq, to_sq)) g in
              let g := post_move_script piece ptype from_sq to_sq g in
              let g := hand_over from_sq to_sq captured_name g in
              let g := apply_chunk_entry_exit piece from_sq to_sq g in
              obind (check_edge_triggers piece to_sq g) (fun _ g =>
                Done true (update_game_over now g))
        end
  end.

(** The engine a method leaves behind ([d] when the input is outside the
    model). *)
Definition engine_of {A : Type} (o : Outcome A) (d : Game) : Game :=
  match o with
  | Done _ g => g
  | Raised _ g => g
  | Unmodelled => d
  end.

(** ** Concrete engines and configurations *)

(** A new game at time 0, with a random generator that only yields 0. *)
Definition standard : Game := new_game 0 [].

(** The standard game with an inactive zone over rank 3 that attaches a
    decay script on entry, and an edge trigger that toggles the zone. *)
Definition zone_game : Game :=
  set_edge_triggers [TrigChunk "any" 7 "z"]
    (set_chunks
       [("z", {| rect := (0, 2, 7, 2); fill := None; active := false;
                 owner := "any";
                 enter_script :=
                   Some {| cs_name := Some "decay"; cs_param := Some (NInt 3) |};
                 leave_script := None |})]
       standard).

(** Scenario B: the zone "z1" at (0,0)-(1,1), filled with white pawns. *)
Definition z1_chunk : Chunk :=
  {| rect := (0, 0, 1, 1);
     fill := Some {| fill_color := Some "white"; fill_type := Some "pawn" |};
     active := true; owner := "any";
     enter_script := None; leave_script := None |}.

Definition z1_game : Game := set_chunks [("z1", z1_chunk)] standard.



(** A configuration whose ["fullmove"] is [null]. *)
Definition null_fullmove_cfg : list (string * PyVal) :=
  [("cols", PInt 10); ("rows", PInt 10); ("turn", PStr "black");
   ("fullmove", PNone)].

(** A configuration whose registry entry is not a dictionary. *)
Definition bad_registry_cfg : list (string * PyVal) :=
  [("piece_types", PDict [("x", PInt 5)])].

(** The engine after a load of [bad_registry_cfg] into a new game:
    [load_config_from_file] catches the exception and goes on. *)
Definition after_failed_load : Game :=
  engine_of (import_config bad_registry_cfg 0 standard) standard.

(** The white pawn on e2 and the black pawn on d7 of the standard game, the
    white queen, and the registry entries of the pawn and the queen. *)
Definition e2_pawn : Piece :=
  {| oid := 8; color := "white"; type_name := "pawn"; symbol := "P";
     state := empty_state |}.

Definition d7_pawn : Piece :=
  {| oid := 7; color := "black"; type_name := "pawn"; symbol := "P";
     state := empty_state |}.

Definition d1_queen : Piece :=
  {| oid := 28; color := "white"; type_name := "queen"; symbol := "Q";
     state := empty_state |}.

Definition pawn_type : PieceType :=
  PieceType_basic "pawn" "pawn" [] (Some 1) false.

Definition queen_type : PieceType :=
  PieceType_basic "queen" "queen" king_dirs None false.


Definition c8_bishop : Piece :=
  {| oid := 26; color := "black"; type_name := "bishop"; symbol := "B";
     state := empty_state |}.

(** The standard game after the opening move e2-e4. *)
Definition after_e4 : Game :=
  engine_of (try_make_move (4, 1) (4, 3) 0 standard) standard.

(** The engine after a load of [null_fullmove_cfg] into a new game. *)
Definition after_null_fullmove : Game :=
  engine_of (import_config null_fullmove_cfg 7 standard) standard.

(** ** Notions used by the further properties *)

(** The registry entry [pt] with the script [s] of parameter [p]. *)
Definition scripted (s : string) (p : Num) (pt : PieceType) : PieceType :=
  {| name := name pt; kind := kind pt; directions := directions pt;
     max_range := max_range pt; can_jump := can_jump pt;
     explosion_radius := explosion_radius pt;
     immune_to_explosion := immune_to_explosion pt;
     damaged_ok := damaged_ok pt; is_royal := is_royal pt;
     script_name := Some s; script_param := p |}.

(** One step of the counting loops of [count_pieces] and [update_game_over]:
    [cls] tells whether a square counts for white, for black or not at
    all. *)
Definition tally {C : Type} (cls : C -> option bool) (acc : Z * Z) (c : C)
  : Z * Z :=
  match cls c with
  | Some true => (fst acc + 1, snd acc)
  | Some false => (fst acc, snd acc + 1)
  | None => acc
  end.

(** How [count_pieces] sorts a square: white, or any other colour. *)
Definition side_of (g : Game) (c : Square) : option bool :=
  match board g !! c with
  | Some p => Some (String.eqb (color p) "white")
  | None => None
  end.

(** How the royal count of [update_game_over] sorts a square. *)
Definition royal_side_of (g : Game) (c : Square) : option bool :=
  match board g !! c with
  | None => None
  | Some p =>
      match dict_get (type_name p) (piece_types g) with
      | None => None
      | Some pt =>
          if is_royal pt then Some (String.eqb (color p) "white") else None
      end
  end.


(** [square_to_screen]: the top-left pixel of a square. *)
Definition square_to_screen (x y square_size rows : Z) : Z * Z :=
  let row_from_top := rows - 1 - y in
  (x * square_size, row_from_top * square_size).

(** [ExplosionManager.duration_ms] *)
Definition duration_ms : Z := 500.

(** [ExplosionManager.update_and_draw]: the explosions it keeps; the drawing
    itself is outside the model. *)
Definition update_and_draw (now_ms : Z) (g : Game) : Game :=
  set_explosions
    (filter (fun e => ¬ (duration_ms < now_ms - ex_start_ms e)) (explosions g))
    g.

(** A square a piece of type [ptype] may pass over: on the board, not
    blocked by damage, and empty. *)
Definition passable (g : Game) (ptype : PieceType) (sq : Square) : Prop :=
  in_bounds g (fst sq) (snd sq) = true
  ∧ square_blocked_by_damage g (fst sq) (snd sq) (Some ptype) = false
  ∧ board g !! sq = None.

(** The number of steps a slider may take: [max_range + range_bonus], or the
    larger board dimension when the type has no [max_range]. *)
Definition reach (g : Game) (piece : Piece) (ptype : PieceType) : Z :=
  match max_range ptype with
  | Some r => r + default 0 (range_bonus (state piece))
  | None => Z.max (cols g) (rows g)
  end.

(** The test of the "Knight / leaper-like" branch. *)
Definition leaps (ptype : PieceType) : bool :=
  String.eqb (kind ptype) "knight"
  || (can_jump ptype && nonempty (directions ptype)).

(** The selection is what [handle_click] makes it: a piece of the side to
    move, with the moves generated for it as targets. *)
Definition selection_ok (g : Game) : Prop :=
  match selected_square g with
  | None => True
  | Some sq =>
      own_piece (board g !! sq) g = true
      ∧ legal_targets g = generate_moves_for_piece g (fst sq) (snd sq)
  end.

(** A series of left clicks, each at a pixel and a time. *)
Definition clicks (l : list (Z * Z * Z)) (g : Game) : Outcome unit :=
  ofold (fun g c => handle_click (fst c) (snd c) g) l g.

(** ** Further concrete engines *)

(** The standard game whose pawns stutter with probability 1, with one draw
    left in the random generator. *)
Definition stutter_game : Game :=
  set_random_draws [0%Q]
    (set_piece_types
       (dict_set "pawn"
          (scripted "stutter" (NInt 1)
             (PieceType_basic "pawn" "pawn" [] (Some 1) false))
          (piece_types standard))
       standard).

(** The standard game played for the kings. *)
Definition king_capture_game : Game :=
  set_rules (set_victory "king_capture" (rules standard)) standard.

(** The standard game after the clicks on e2 and on e4. *)
Definition after_two_clicks : Game :=
  engine_of (clicks [((360, 520), 0); ((360, 360), 0)] standard) standard.


(** The standard game after a random zone has been spawned for a piece on
    a4. *)
Definition after_spawn : Game :=
  engine_of (spawn_random_chunk_near_edge (0, 3) 0 1 2 1 2 standard) standard.

(** * Properties *)

Lemma elem_of_range (a b i : Z) : i ∈ range a b ↔ a ≤ i < b.
Proof.
  unfold range. rewrite list_elem_of_fmap. split.
  - intros (n & -> & Hn). apply elem_of_seq in Hn. lia.
  - intros H. exists (Z.to_nat (i - a)). split; [lia|].
    apply elem_of_seq. lia.
Qed.

Lemma in_bounds_spec (g : Game) (x y : Z) :
  in_bounds g x y = true ↔ 0 ≤ x < cols g ∧ 0 ≤ y < rows g.
Proof. unfold in_bounds. rewrite !andb_true_iff. lia. Qed.

(** Claim C10.  Placing a piece outside the board returns the engine
    unchanged. *)
Theorem place_piece_out_of_bounds (g : Game) (x y : Z) (piece : Piece) :
  in_bounds g x y = false -> place_piece x y piece g = g.
Proof. intros H. unfold place_piece. now rewrite H. Qed.

Lemma is_none_true {A : Type} (o : option A) : is_none o = true -> o = None.
Proof. now destruct o. Qed.

Lemma pawn_moves_ok g piece ptype x y sq :
  sq ∈ pawn_moves g piece ptype x y -> dest_ok g piece ptype sq.
Proof.
  unfold pawn_moves. intros H. apply elem_of_app in H as [H|H].
  - destruct (in_bounds g x _ && is_none _ && negb _) eqn:E1; [|inversion H].
    apply andb_true_iff in E1 as [E1 E1c]. apply andb_true_iff in E1 as [E1a E1b].
    apply negb_true_iff in E1c. apply is_none_true in E1b.
    apply elem_of_cons in H as [->|H]; [repeat split; auto|].
    destruct (_ && _ && _ && negb _) eqn:E2; [|inversion H].
    apply andb_true_iff in E2 as [E2 E2c]. apply andb_true_iff in E2 as [E2 E2b].
    apply andb_true_iff in E2 as [_ E2a].
    apply negb_true_iff in E2c. apply is_none_true in E2b.
    apply list_elem_of_singleton in H as ->. repeat split; auto.
  - apply list_elem_of_In, in_flat_map in H as (dx & _ & H).
    apply list_elem_of_In in H.
    destruct (in_bounds _ _ _ && negb _) eqn:E; [|inversion H].
    apply andb_true_iff in E as [Ea Eb]. apply negb_true_iff in Eb.
    destruct (board g !! _) as [target|] eqn:Et; [|inversion H].
    destruct (negb _) eqn:Ec; [|inversion H].
    apply list_elem_of_singleton in H as ->.
    apply negb_true_iff, String.eqb_neq in Ec.
    repeat split; auto. right. eauto.
Qed.

Lemma leaper_moves_ok g piece ptype x y sq :
  sq ∈ leaper_moves g piece ptype x y -> dest_ok g piece ptype sq.
Proof.
  unfold leaper_moves. intros H.
  apply list_elem_of_In, in_flat_map in H as (d & _ & H).
  apply list_elem_of_In in H.
  destruct (negb (in_bounds _ _ _)) eqn:Ea; [inversion H|].
  apply negb_false_iff in Ea.
  destruct (square_blocked_by_damage _ _ _ _) eqn:Eb; [inversion H|].
  destruct (board g !! _) as [target|] eqn:Et.
  - destruct (negb _) eqn:Ec; [|inversion H].
    apply list_elem_of_singleton in H as ->.
    apply negb_true_iff, String.eqb_neq in Ec.
    repeat split; auto. right. eauto.
  - apply list_elem_of_singleton in H as ->. repeat split; auto.
Qed.

Lemma slide_ok g piece ptype x y dx dy steps sq :
  sq ∈ slide g piece ptype x y dx dy steps -> dest_ok g piece ptype sq.
Proof.
  induction steps as [|step rest IH]; simpl; intros H; [inversion H|].
  destruct (negb (in_bounds _ _ _)) eqn:Ea; [inversion H|].
  apply negb_false_iff in Ea.
  destruct (square_blocked_by_damage _ _ _ _) eqn:Eb; [inversion H|].
  destruct (board g !! _) as [target|] eqn:Et.
  - destruct (negb _) eqn:Ec; [|inversion H].
    apply list_elem_of_singleton in H as ->.
    apply negb_true_iff, String.eqb_neq in Ec.
    repeat split; auto. right. eauto.
  - apply elem_of_cons in H as [->|H]; [repeat split; auto|auto].
Qed.

Lemma slider_moves_ok g piece ptype x y sq :
  sq ∈ slider_moves g piece ptype x y -> dest_ok g piece ptype sq.
Proof.
  unfold slider_moves. destruct (nonempty _); intros H; [|inversion H].
  apply list_elem_of_In, in_flat_map in H as (d & _ & H).
  apply list_elem_of_In in H. eapply slide_ok; eauto.
Qed.

Lemma generate_moves_ok g x y piece ptype sq :
  board g !! (x, y) = Some piece ->
  dict_get (type_name piece) (piece_types g) = Some ptype ->
  sq ∈ generate_moves_for_piece g x y -> dest_ok g piece ptype sq.
Proof.
  intros Hp Ht. unfold generate_moves_for_piece. rewrite Hp, Ht.
  destruct (String.eqb (kind ptype) "pawn"); [apply pawn_moves_ok|].
  destruct (String.eqb (kind ptype) "knight" || _) eqn:E1; simpl.
  - destruct (String.eqb (kind ptype) "knight" || can_jump ptype); intros H.
    + now apply leaper_moves_ok in H.
    + apply elem_of_app in H as [H|H];
        [now apply leaper_moves_ok in H|now apply slider_moves_ok in H].
  - intros H. now apply slider_moves_ok in H.
Qed.

Lemma not_blocked_spec g x y pt :
  square_blocked_by_damage g x y (Some pt) = false ->
  ~ ((x, y) ∈ damaged g ∧ damage_blocks_move (rules g) = true
     ∧ damaged_ok pt = false).
Proof.
  unfold square_blocked_by_damage. intros H (Hd & Hb & Hk).
  rewrite bool_decide_eq_true_2 in H by done. rewrite Hb, Hk in H. discriminate.
Qed.

(** Claim C2.  Every square the move generator returns for the piece on
    [(x, y)] lies on the board, is empty or holds a piece of another colour,
    and is not a damaged square that blocks this piece (damaged, with
    [damage_blocks_move] on and the type not [damaged_ok]). *)
Theorem generated_moves_are_legal_destinations
    (g : Game) (x y : Z) (piece : Piece) (ptype : PieceType) (tx ty : Z) :
  board g !! (x, y) = Some piece ->
  dict_get (type_name piece) (piece_types g) = Some ptype ->
  (tx, ty) ∈ generate_moves_for_piece g x y ->
  (0 ≤ tx < cols g ∧ 0 ≤ ty < rows g)
  ∧ (board g !! (tx, ty) = None
     ∨ ∃ target, board g !! (tx, ty) = Some target
                 ∧ color target ≠ color piece)
  ∧ ~ ((tx, ty) ∈ damaged g ∧ damage_blocks_move (rules g) = true
       ∧ damaged_ok ptype = false).
Proof.
  intros Hp Ht H.
  destruct (generate_moves_ok _ _ _ _ _ _ Hp Ht H) as (Hb & Hd & Ho).
  split; [now apply in_bounds_spec in Hb|]. split; [exact Ho|].
  now apply not_blocked_spec.
Qed.

Lemma elem_of_block_cells (cx cy r : Z) (sq : Square) :
  sq ∈ block_cells cx cy r
  ↔ Z.abs (fst sq - cx) ≤ r ∧ Z.abs (snd sq - cy) ≤ r.
Proof.
  unfold block_cells. rewrite list_elem_of_In, in_flat_map. split.
  - intros (dy & Hdy & H). apply list_elem_of_In, elem_of_range in Hdy.
    apply list_elem_of_In, list_elem_of_fmap in H as (dx & -> & Hdx).
    apply elem_of_range in Hdx. simpl. lia.
  - intros [Hx Hy]. exists (snd sq - cy). split.
    + apply list_elem_of_In, elem_of_range. lia.
    + apply list_elem_of_In, list_elem_of_fmap. exists (fst sq - cx). split.
      * destruct sq as [x y]. simpl. f_equal; lia.
      * apply elem_of_range. lia.
Qed.

Lemma blast_cell_frame to_sq sc g c :
  cols (blast_cell to_sq sc g c) = cols g
  ∧ rows (blast_cell to_sq sc g c) = rows g
  ∧ piece_types (blast_cell to_sq sc g c) = piece_types g
  ∧ rules (blast_cell to_sq sc g c) = rules g
  ∧ damaged (blast_cell to_sq sc g c) = damaged g.
Proof.
  unfold blast_cell.
  destruct (negb _); [done|]. destruct (_ && _ && _); [done|].
  destruct (board g !! c); [|done].
  destruct (dict_get _ _) as [vt|]; [destruct (immune_to_explosion vt)|]; done.
Qed.

Lemma blast_cell_lookup to_sq sc g c sq :
  board (blast_cell to_sq sc g c) !! sq
  = if bool_decide (sq = c) then blasted to_sq sc g sq else board g !! sq.
Proof.
  unfold blast_cell, blasted. case_bool_decide as E; [subst sq|].
  - destruct (negb _); [done|]. destruct (_ && _ && _); [done|].
    destruct (board g !! c) as [v|] eqn:Ev; [|by rewrite Ev].
    destruct (dict_get _ _) as [vt|]; [destruct (immune_to_explosion vt)|];
      simpl; [done| |]; by rewrite lookup_delete_eq.
  - destruct (negb _); [done|]. destruct (_ && _ && _); [done|].
    destruct (board g !! c) as [v|] eqn:Ev; [|done].
    destruct (dict_get _ _) as [vt|]; [destruct (immune_to_explosion vt)|];
      simpl; [done| |]; by rewrite lookup_delete_ne.
Qed.

Lemma in_bounds_frame g g' x y :
  cols g' = cols g -> rows g' = rows g -> in_bounds g' x y = in_bounds g x y.
Proof. unfold in_bounds. now intros -> ->. Qed.

Lemma blasted_idem to_sq sc g c sq :
  blasted to_sq sc (blast_cell to_sq sc g c) sq = blasted to_sq sc g sq.
Proof.
  destruct (blast_cell_frame to_sq sc g c) as (Hc & Hr & Hp & _).
  unfold blasted at 1. rewrite (in_bounds_frame _ _ _ _ Hc Hr), Hp.
  rewrite blast_cell_lookup. case_bool_decide as E; [|done].
  unfold blasted.
  destruct (negb _); [done|]. destruct (_ && _ && _); [done|].
  destruct (board g !! sq) as [v|]; [|done].
  destruct (dict_get _ _) as [vt|] eqn:Et; [|done].
  destruct (immune_to_explosion vt) eqn:Ei; [|done].
  by rewrite Et, Ei.
Qed.

Lemma blast_fold_frame to_sq sc cells g :
  cols (foldl (blast_cell to_sq sc) g cells) = cols g
  ∧ rows (foldl (blast_cell to_sq sc) g cells) = rows g
  ∧ piece_types (foldl (blast_cell to_sq sc) g cells) = piece_types g
  ∧ rules (foldl (blast_cell to_sq sc) g cells) = rules g
  ∧ damaged (foldl (blast_cell to_sq sc) g cells) = damaged g.
Proof.
  revert g. induction cells as [|c cells IH]; intros g; simpl; [done|].
  destruct (IH (blast_cell to_sq sc g c)) as (-> & -> & -> & -> & ->).
  apply blast_cell_frame.
Qed.

Lemma blast_fold_lookup to_sq sc cells g sq :
  board (foldl (blast_cell to_sq sc) g cells) !! sq
  = if bool_decide (sq ∈ cells) then blasted to_sq sc g sq else board g !! sq.
Proof.
  revert g. induction cells as [|c cells IH]; intros g.
  - case_bool_decide as E; [by apply elem_of_nil in E|done].
  - cbn [foldl]. rewrite IH, blasted_idem, blast_cell_lookup.
    destruct (decide (sq = c)) as [->|Hne].
    + rewrite (bool_decide_eq_true_2 (c ∈ c :: cells)) by (apply elem_of_cons; by left).
      rewrite (bool_decide_eq_true_2 (c = c)) by done. by case_bool_decide.
    + rewrite (bool_decide_eq_false_2 (sq = c)) by done.
      case_bool_decide as E1; case_bool_decide as E2; try done.
      * exfalso. apply E2. apply elem_of_cons. by right.
      * exfalso. apply E1. apply elem_of_cons in E2 as [?|?]; done.
Qed.

Lemma blast_radius_formula piece ptype g :
  blast_radius piece ptype g
  = Z.max 0 (default (atomic_radius (rules g)) (ptype ≫= explosion_radius))
    + Z.max 0 (default 0 (heat_bonus (state piece))).
Proof.
  unfold blast_radius.
  destruct ptype as [pt|]; simpl; [destruct (explosion_radius pt); simpl|];
    destruct (heat_bonus (state piece)); simpl;
    destruct (Z.ltb_spec (atomic_radius (rules g)) 0); lia.
Qed.

(** Claim C1.  An atomic capture: the mover [piece] has just been put on
    [to_sq], where [target] stood.  The radius is the type's override if it
    is set, else the global [atomic_radius], plus the mover's [heat_bonus],
    each clamped at 0, so it is never negative.  When the radius is positive
    every piece within that Chebyshev distance of [to_sq] is removed unless
    its type is immune; the mover stays on [to_sq] when [center_survives] is
    on and is removed when it is off; squares out of reach keep their
    pieces.  With radius 0 the board stays as the move left it.  [to_sq]
    becomes damaged exactly when [center_damages] is on, whatever the
    radius. *)
Theorem atomic_capture_explosion
    (g : Game) (piece target : Piece) (ptype : option PieceType)
    (from_sq to_sq : Square) (now : Z) :
  capture_mode (rules g) = "atomic" ->
  let g1 := move_piece piece from_sq to_sq g in
  let g2 := resolve_capture piece ptype (Some target) to_sq now g1 in
  let base := default (atomic_radius (rules g)) (ptype ≫= explosion_radius) in
  let heat := default 0 (heat_bonus (state piece)) in
  let radius := blast_radius piece ptype g1 in
  (radius = Z.max 0 base + Z.max 0 heat
   ∧ 0 ≤ radius
   ∧ (0 ≤ base -> 0 ≤ heat -> radius = base + heat))
  ∧ (0 < radius ->
     board g2 !! to_sq
     = (if center_survives (rules g) then Some piece else None)
     ∧ (∀ sq v,
          sq ≠ to_sq -> board g1 !! sq = Some v ->
          in_bounds g (fst sq) (snd sq) = true ->
          Z.abs (fst sq - fst to_sq) ≤ radius ->
          Z.abs (snd sq - snd to_sq) ≤ radius ->
          board g2 !! sq = (if is_immune g v then Some v else None))
     ∧ (∀ sq,
          sq ≠ to_sq ->
          in_bounds g (fst sq) (snd sq) = false
          ∨ radius < Z.abs (fst sq - fst to_sq)
          ∨ radius < Z.abs (snd sq - snd to_sq) ->
          board g2 !! sq = board g1 !! sq))
  ∧ (radius = 0 -> board g2 = board g1)
  ∧ damaged g2
    = (if center_damages (rules g) then {[ to_sq ]} ∪ damaged g
       else damaged g).
Proof.
  intros Hmode g1 g2 base heat radius.
  assert (Hrad : radius = Z.max 0 base + Z.max 0 heat)
    by apply blast_radius_formula.
  split; [split; [exact Hrad|lia]|].
  assert (Hg2 : g2 =
    let g' :=
      if 0 <? radius then
        let ge := trigger_explosion to_sq now radius g1 in
        let gb := foldl (blast_cell to_sq (center_survives (rules g))) ge
                        (block_cells (fst to_sq) (snd to_sq) radius) in
        if negb (center_survives (rules g))
        then set_board (delete to_sq (board gb)) gb else gb
      else g1 in
    if center_damages (rules g)
    then set_damaged ({[ to_sq ]} ∪ damaged g') g' else g').
  { unfold g2, resolve_capture. simpl. rewrite Hmode. simpl. fold radius.
    destruct (0 <? radius); simpl; [|reflexivity].
    pose proof (blast_fold_frame to_sq (center_survives (rules g))
                  (block_cells (fst to_sq) (snd to_sq) radius)
                  (trigger_explosion to_sq now radius g1))
      as (_ & _ & _ & Hru & _).
    simpl in Hru. rewrite Hru.
    destruct (center_survives (rules g)); simpl; rewrite ?Hru; reflexivity. }
  set (ge := trigger_explosion to_sq now radius g1) in Hg2.
  set (cells := block_cells (fst to_sq) (snd to_sq) radius) in Hg2.
  set (sc := center_survives (rules g)) in *.
  pose proof (blast_fold_frame to_sq sc cells ge) as (Hc & Hr & Hp & Hru & Hd).
  pose proof (blast_fold_lookup to_sq sc cells ge) as Hl.
  assert (Hb1 : board g1 !! to_sq = Some piece)
    by (unfold g1, move_piece; simpl; apply lookup_insert_eq).
  split; [|split].
  - intros Hpos. apply Z.ltb_lt in Hpos. rewrite Hpos in Hg2. simpl in Hg2.
    assert (Hboard : board g2 =
      if negb sc
      then delete to_sq (board (foldl (blast_cell to_sq sc) ge cells))
      else board (foldl (blast_cell to_sq sc) ge cells)).
    { rewrite Hg2. destruct (center_damages (rules g)), sc; reflexivity. }
    split; [|split].
    + rewrite Hboard. destruct sc eqn:Esc; simpl.
      * rewrite Hl. case_bool_decide; [|exact Hb1].
        unfold blasted. rewrite !Z.eqb_refl. simpl.
        destruct (in_bounds ge (fst to_sq) (snd to_sq)); exact Hb1.
      * apply lookup_delete_eq.
    + intros sq v Hne Hv Hin Hx Hy.
      assert (Hsq : board (foldl (blast_cell to_sq sc) ge cells) !! sq
                    = if is_immune g v then Some v else None).
      { rewrite Hl, bool_decide_eq_true_2
          by (apply elem_of_block_cells; split; assumption).
        unfold blasted, is_immune.
        replace (in_bounds ge (fst sq) (snd sq)) with true by (symmetry; exact Hin).
        simpl.
        replace (sc && (fst sq =? fst to_sq) && (snd sq =? snd to_sq)) with false.
        2:{ symmetry. apply not_true_is_false. intros H.
            apply andb_true_iff in H as [H H2]. apply andb_true_iff in H as [_ H1].
            apply Z.eqb_eq in H1, H2. apply Hne.
            destruct sq, to_sq; simpl in *; congruence. }
        unfold g1, move_piece in Hv. simpl in Hv. rewrite Hv.
        destruct (dict_get _ _) as [vt|]; [destruct (immune_to_explosion vt)|];
          reflexivity. }
      rewrite Hboard. destruct (negb sc); [|exact Hsq].
      rewrite lookup_delete_ne by done. exact Hsq.
    + intros sq Hne Hout.
      assert (Hsq : board (foldl (blast_cell to_sq sc) ge cells) !! sq
                    = board g1 !! sq).
      { rewrite Hl. case_bool_decide as E; [|reflexivity].
        apply elem_of_block_cells in E as [Ex Ey].
        destruct Hout as [Hout|[Hout|Hout]]; [|lia|lia].
        unfold blasted.
        replace (in_bounds ge (fst sq) (snd sq)) with false by (symmetry; exact Hout).
        reflexivity. }
      rewrite Hboard. destruct (negb sc); [|exact Hsq].
      rewrite lookup_delete_ne by done. exact Hsq.
  - intros H0. assert (E : (0 <? radius) = false) by (apply Z.ltb_ge; lia).
    rewrite E in Hg2. simpl in Hg2. rewrite Hg2.
    destruct (center_damages (rules g)); reflexivity.
  - rewrite Hg2. simpl.
    destruct (0 <? radius) eqn:E.
    + assert (Hdam : damaged (foldl (blast_cell to_sq sc) ge cells) = damaged g)
        by (rewrite Hd; reflexivity).
      destruct (center_damages (rules g)), (negb sc); simpl; rewrite ?Hdam;
        reflexivity.
    + destruct (center_damages (rules g)); reflexivity.
Qed.


Lemma dict_get_set_eq {V : Type} (k : string) (v : V) (d : list (string * V)) :
  dict_get k (dict_set k v d) = Some v.
Proof.
  induction d as [|[k' v'] d IH]; simpl.
  - by rewrite String.eqb_refl.
  - destruct (String.eqb k k') eqn:E; simpl; rewrite ?String.eqb_refl, ?E; done.
Qed.

Lemma dict_get_set_ne {V : Type} (k k0 : string) (v : V) (d : list (string * V)) :
  k0 ≠ k -> dict_get k0 (dict_set k v d) = dict_get k0 d.
Proof.
  intros Hne. induction d as [|[k' v'] d IH]; simpl.
  - apply String.eqb_neq in Hne. by rewrite Hne.
  - destruct (String.eqb k k') eqn:E; simpl.
    + apply String.eqb_eq in E. subst k'.
      apply String.eqb_neq in Hne. by rewrite Hne.
    + destruct (String.eqb k0 k'); done.
Qed.

(** The "turn OFF" loop touches the board and the damaged set only. *)
Lemma void_fold_frame cells g :
  ∃ b d, foldl void_cell g cells = set_damaged d (set_board b g).
Proof.
  revert g. induction cells as [|c cells IH]; intros g.
  - exists (board g), (damaged g). by destruct g.
  - cbn [foldl]. destruct (IH (void_cell g c)) as (b & d & ->).
    exists b, d. unfold void_cell. destruct (negb _); [done|].
    by destruct g.
Qed.





(** The "turn ON" loop touches the damaged set only. *)
Lemma undamage_fold_frame cells g :
  ∃ d, foldl undamage_cell g cells = set_damaged d g.
Proof.
  revert g. induction cells as [|c cells IH]; intros g.
  - exists (damaged g). by destruct g.
  - cbn [foldl]. destruct (IH (undamage_cell g c)) as (d & ->).
    exists d. unfold undamage_cell. destruct (negb _); [done|].
    case_bool_decide; [|done]. by destruct g.
Qed.



(** The fill loop touches the board and the object counter only. *)
Lemma fill_fold_frame c t sym cells g :
  ∃ b o, foldl (fill_cell c t sym) g cells = set_next_oid o (set_board b g).
Proof.
  revert g. induction cells as [|c0 cells IH]; intros g.
  - exists (board g), (next_oid g). by destruct g.
  - cbn [foldl]. destruct (IH (fill_cell c t sym g c0)) as (b & o & ->).
    exists b, o. unfold fill_cell. destruct (negb _); [done|].
    destruct (board g !! c0); [done|]. by destruct g.
Qed.






Lemma blast_fold_only_board to_sq sc cells g :
  ∃ b, foldl (blast_cell to_sq sc) g cells = set_board b g.
Proof.
  revert g. induction cells as [|c cells IH]; intros g.
  - exists (board g). by destruct g.
  - cbn [foldl]. destruct (IH (blast_cell to_sq sc g c)) as (b & ->).
    exists b. unfold blast_cell.
    repeat case_match; try done; by destruct g.
Qed.

Lemma resolve_capture_clock piece ptype target to_sq now g :
  clock (resolve_capture piece ptype target to_sq now g) = clock g.
Proof.
  unfold resolve_capture.
  destruct (blast_fold_only_board to_sq
              (center_survives (rules (trigger_explosion to_sq now
                 (blast_radius piece ptype g) g)))
              (block_cells (fst to_sq) (snd to_sq) (blast_radius piece ptype g))
              (trigger_explosion to_sq now (blast_radius piece ptype g) g))
    as (b & Hb).
  cbv zeta. rewrite Hb. repeat case_match; reflexivity.
Qed.

Lemma apply_script_post_move_clock piece ptype from_sq to_sq g :
  clock (apply_script_post_move piece ptype from_sq to_sq g) = clock g.
Proof.
  unfold apply_script_post_move. repeat case_match; reflexivity.
Qed.

Lemma post_move_script_clock piece ptype from_sq to_sq g :
  clock (post_move_script piece ptype from_sq to_sq g) = clock g.
Proof.
  unfold post_move_script.
  repeat case_match; try reflexivity. apply apply_script_post_move_clock.
Qed.

Lemma next_random_clock g : clock (snd (next_random g)) = clock g.
Proof. unfold next_random. by destruct (random_draws g). Qed.

Lemma apply_script_pre_move_frame piece ptype from_sq to_sq legal g :
  ∃ r, snd (apply_script_pre_move piece ptype from_sq to_sq legal g)
       = set_random_draws r g.
Proof.
  assert (Hn : ∀ g0, ∃ r, snd (next_random g0) = set_random_draws r g0).
  { intros g0. unfold next_random. destruct (random_draws g0) eqn:E.
    - exists []. simpl. destruct g0. simpl in *. by subst.
    - eauto. }
  assert (Hn2 : ∀ g0 r0,
     ∃ r, snd (next_random (set_random_draws r0 g0)) = set_random_draws r g0).
  { intros g0 r0. unfold next_random. simpl. destruct r0; simpl; eauto. }
  assert (Hid : ∃ r, g = set_random_draws r g)
    by (exists (random_draws g); by destruct g).
  unfold apply_script_pre_move.
  destruct (resolve_script_descriptor piece ptype) as [[sname|] param];
    [|exact Hid].
  repeat case_match; simpl; try exact Hid; subst;
    unfold random_choice in *;
    repeat match goal with
    | H : next_random ?g0 = (_, ?g1) |- _ =>
        let Hx := fresh in
        assert (Hx : g1 = snd (next_random g0)) by (by rewrite H);
        clear H; subst g1
    | H : (let '(_, _) := next_random ?g0 in _) = _ |- _ =>
        destruct (next_random g0) eqn:?; simplify_eq
    end.
  all: try (destruct (Hn g) as (r & ->); eauto; fail).
  all: destruct (Hn g) as (r & ->); destruct (Hn2 g r) as (r' & ->); eauto.
Qed.

Lemma after_obind {A B : Type} (P : Game -> Prop) (m : Outcome A)
    (k : A -> Game -> Outcome B) :
  after P m -> (∀ a g, P g -> after P (k a g)) -> after P (obind m k).
Proof. destruct m; simpl; auto. Qed.

Ltac clock_tac :=
  unfold after, clock, add_dsl_message, set_chunk_active in *; simpl in *;
  first [done | congruence].

Lemma toggle_chunk_clock n mc g c :
  clock g = c -> after (fun g' => clock g' = c) (toggle_chunk n mc g).
Proof.
  intros Hc. unfold toggle_chunk.
  destruct (dict_get n (chunks g)) as [ch|]; [|clock_tac].
  cbv zeta. case_match; [done|].
  set (cells := rect_cells (normalize_rect (rect ch))).
  destruct (active ch).
  - destruct (void_fold_frame cells g) as (b & d & ->). clock_tac.
  - destruct (undamage_fold_frame cells g) as (d & ->).
    destruct (fill ch) as [f|]; [|clock_tac].
    apply after_obind.
    + repeat case_match; clock_tac.
    + intros _ g1 Hg1. destruct (first_upper _) as [sym|].
      * match goal with
        | |- context [foldl (fill_cell ?a ?b ?c) ?g0 ?l] =>
            destruct (fill_fold_frame a b c l g0) as (bb & o & ->)
        end. clock_tac.
      * destruct (existsb _ _); clock_tac.
Qed.

Lemma next_random_clock' g c :
  clock g = c -> clock (snd (next_random g)) = c.
Proof. intros <-. apply next_random_clock. Qed.

Lemma next_random_dims g :
  cols (snd (next_random g)) = cols g ∧ rows (snd (next_random g)) = rows g.
Proof. unfold next_random. by destruct (random_draws g). Qed.

Lemma random_randint_clock a b g c :
  clock g = c -> after (fun g' => clock g' = c) (random_randint a b g).
Proof.
  intros Hc. unfold random_randint. case_match; [done|].
  pose proof (next_random_clock' g c Hc). destruct (next_random g). done.
Qed.

Lemma spawn_clock pos d minw maxw minh maxh g c :
  clock g = c ->
  after (fun g' => clock g' = c)
        (spawn_random_chunk_near_edge pos d minw maxw minh maxh g).
Proof.
  intros Hc. unfold spawn_random_chunk_near_edge. destruct pos as [x y].
  cbv zeta. case_match; [done|]. unfold random_choice.
  pose proof (next_random_clock' g c Hc) as Hn.
  destruct (next_random g) as [q g1]. simpl in Hn.
  apply after_obind; [by apply random_randint_clock|].
  intros w g2 Hg2.
  apply after_obind; [by apply random_randint_clock|].
  intros h g3 Hg3. repeat case_match; clock_tac.
Qed.

Lemma trigger_step_clock piece pos md g trig c :
  clock g = c -> after (fun g' => clock g' = c) (trigger_step piece pos md g trig).
Proof.
  intros Hc. unfold trigger_step. destruct trig.
  - repeat case_match; try done. by apply toggle_chunk_clock.
  - repeat case_match; try done. by apply spawn_clock.
Qed.

Lemma check_edge_triggers_clock piece pos g c :
  clock g = c -> after (fun g' => clock g' = c) (check_edge_triggers piece pos g).
Proof.
  intros Hc. unfold check_edge_triggers. destruct pos as [x y]. cbv zeta.
  generalize (Z.min (Z.min x (cols g - 1 - x)) (Z.min y (rows g - 1 - y))).
  intros md.
  assert (Hacc : after (fun g' => clock g' = c) (Done tt g : Outcome unit))
    by done.
  revert Hacc. generalize (Done tt g : Outcome unit).
  induction (edge_triggers g) as [|trig l IH]; intros acc Hacc; [done|].
  cbn [foldl]. apply IH. apply after_obind; [done|].
  intros _ g1 Hg1. by apply trigger_step_clock.
Qed.

Lemma apply_chunk_script_override_clock piece scr g :
  clock (apply_chunk_script_override piece scr g) = clock g.
Proof. unfold apply_chunk_script_override. repeat case_match; done. Qed.

Lemma chunk_entry_exit_step_clock piece from_sq to_sq g e :
  clock (chunk_entry_exit_step piece from_sq to_sq g e) = clock g.
Proof.
  unfold chunk_entry_exit_step. destruct e as [n ch].
  repeat case_match; try done; unfold add_dsl_message; simpl;
    unfold clock; simpl;
    repeat match goal with
    | |- context [apply_chunk_script_override ?p ?s ?g0] =>
        let H := fresh in
        pose proof (apply_chunk_script_override_clock p s g0) as H;
        unfold clock in H; injection H as -> ->
    end; done.
Qed.

Lemma apply_chunk_entry_exit_clock piece from_sq to_sq g :
  clock (apply_chunk_entry_exit piece from_sq to_sq g) = clock g.
Proof.
  unfold apply_chunk_entry_exit. generalize (chunks g). intros l. revert g.
  induction l as [|e l IH]; intros g; [done|].
  cbn [foldl]. rewrite IH. apply chunk_entry_exit_step_clock.
Qed.

Lemma update_game_over_clock now g : clock (update_game_over now g) = clock g.
Proof.
  unfold update_game_over, decide_by_counts, check_limits_game_over,
    apply_limit_result.
  repeat case_match; simplify_eq; done.
Qed.

(** What an accepted move went through. *)
Lemma try_make_move_accepted
    (g : Game) (from_sq to_sq : Square) (now : Z) (g' : Game) :
  try_make_move from_sq to_sq now g = Done true g' ->
  ∃ (piece : Piece) (dest : Square) (g0 g5 : Game),
    let ptype := dict_get (type_name piece) (piece_types g) in
    let legal := generate_moves_for_piece g (fst from_sq) (snd from_sq) in
    board g !! from_sq = Some piece
    ∧ to_sq ∈ legal
    ∧ apply_script_pre_move piece ptype from_sq to_sq legal g = (Some dest, g0)
    ∧ in_bounds g0 (fst dest) (snd dest) = true
    ∧ let target := board g0 !! dest in
      let g1 := move_piece piece from_sq dest g0 in
      let g2 := set_last_move (Some (from_sq, dest))
                  (resolve_capture piece ptype target dest now g1) in
      let g3 := post_move_script piece ptype from_sq dest g2 in
      let g4 := hand_over from_sq dest (piece_name target) g3 in
      check_edge_triggers piece dest g4 = Done tt g5
      ∧ g' = update_game_over now
               (apply_chunk_entry_exit piece from_sq dest g5).
Proof.
  unfold try_make_move. intros H.
  destruct (board g !! from_sq) as [piece|] eqn:Ep; [|discriminate].
  destruct (bool_decide _) eqn:El; simpl in H; [|discriminate].
  apply bool_decide_eq_true_1 in El.
  destruct (apply_script_pre_move _ _ _ _ _ _) as [[dest|] g0] eqn:Epre;
    [|discriminate].
  destruct (in_bounds g0 (fst dest) (snd dest)) eqn:Eb; simpl in H;
    [|discriminate].
  destruct (check_edge_triggers _ _ _) as [[] g5| |] eqn:Ee; simpl in H;
    [|discriminate|discriminate].
  injection H as <-.
  exists piece, dest, g0, g5. cbv zeta. rewrite Ee. auto 10.
Qed.

(** Claim C3, as the code has it.  An accepted move runs, in this order: the
    pre-move hook, the board mutation, the capture and damage resolution, the
    post-move script, the hand-over of the turn with the move message, the
    edge triggers, the chunk enter/leave scripts, and the win check.  The
    edge triggers come before the chunk scripts. *)
Theorem accepted_move_phases
    (g : Game) (from_sq to_sq : Square) (now : Z) (g' : Game) :
  try_make_move from_sq to_sq now g = Done true g' ->
  ∃ (piece : Piece) (dest : Square) (g0 g5 : Game),
    let ptype := dict_get (type_name piece) (piece_types g) in
    let legal := generate_moves_for_piece g (fst from_sq) (snd from_sq) in
    board g !! from_sq = Some piece
    ∧ to_sq ∈ legal
    ∧ apply_script_pre_move piece ptype from_sq to_sq legal g = (Some dest, g0)
    ∧ in_bounds g0 (fst dest) (snd dest) = true
    ∧ let target := board g0 !! dest in
      let g1 := move_piece piece from_sq dest g0 in
      let g2 := set_last_move (Some (from_sq, dest))
                  (resolve_capture piece ptype target dest now g1) in
      let g3 := post_move_script piece ptype from_sq dest g2 in
      let g4 := hand_over from_sq dest (piece_name target) g3 in
      check_edge_triggers piece dest g4 = Done tt g5
      ∧ g' = update_game_over now
               (apply_chunk_entry_exit piece from_sq dest g5).
Proof. exact (try_make_move_accepted g from_sq to_sq now g'). Qed.

Lemma hand_over_clock from_sq to_sq name g :
  clock (hand_over from_sq to_sq name g)
  = (if String.eqb (turn g) "black" then "white" else "black",
     if String.eqb (turn g) "black" then fullmove g + 1 else fullmove g).
Proof.
  unfold hand_over, toggle_turn, send_move_osc, clock. cbv zeta.
  destruct (count_pieces _). destruct (String.eqb (turn g) "black") eqn:E;
    simpl; rewrite ?E; reflexivity.
Qed.

(** Claim C9, as the code has it.  Every accepted move flips the side to move
    once, and the move counter grows by one exactly when the side to move
    was black, whatever happened to the mover.  When the mover has the colour
    of the side to move, that is exactly when the mover was black. *)
Theorem accepted_move_hands_over_the_turn
    (g : Game) (from_sq to_sq : Square) (now : Z) (g' : Game) :
  try_make_move from_sq to_sq now g = Done true g' ->
  turn g' = (if String.eqb (turn g) "black" then "white" else "black")
  ∧ fullmove g'
    = (if String.eqb (turn g) "black" then fullmove g + 1 else fullmove g)
  ∧ (∀ piece, board g !! from_sq = Some piece -> color piece = turn g ->
       fullmove g'
       = (if String.eqb (color piece) "black" then fullmove g + 1
          else fullmove g)).
Proof.
  intros H.
  apply try_make_move_accepted in H
    as (piece & dest & g0 & g5 & Hp & Hl & Hpre & Hb & He & ->).
  pose proof (apply_script_pre_move_frame piece
                (dict_get (type_name piece) (piece_types g)) from_sq to_sq
                (generate_moves_for_piece g (fst from_sq) (snd from_sq)) g)
    as (r & Hr).
  rewrite Hpre in Hr. simpl in Hr. subst g0.
  set (c := (if String.eqb (turn g) "black" then "white" else "black",
             if String.eqb (turn g) "black" then fullmove g + 1
             else fullmove g)).
  assert (Hc : clock (update_game_over now
                        (apply_chunk_entry_exit piece from_sq dest g5)) = c).
  { rewrite update_game_over_clock, apply_chunk_entry_exit_clock.
    match type of He with
    | check_edge_triggers _ _ ?g4 = _ =>
        assert (H4 : clock g4 = c)
    end.
    { rewrite hand_over_clock.
      assert (H3 : ∀ gx, clock gx = clock g ->
                 (if String.eqb (turn gx) "black" then "white" else "black",
                  if String.eqb (turn gx) "black" then fullmove gx + 1
                  else fullmove gx) = c).
      { intros gx [= -> ->]. reflexivity. }
      apply H3. rewrite post_move_script_clock.
      transitivity (clock (resolve_capture piece
                      (dict_get (type_name piece) (piece_types g))
                      (board (set_random_draws r g) !! dest) dest now
                      (move_piece piece from_sq dest (set_random_draws r g))));
        [reflexivity|].
      rewrite resolve_capture_clock. reflexivity. }
    pose proof (check_edge_triggers_clock piece dest _ c H4) as Ha.
    rewrite He in Ha. exact Ha. }
  unfold clock, c in Hc. injection Hc as Ht Hf.
  split; [exact Ht|]. split; [exact Hf|].
  intros p Hp' Hcol. rewrite Hp in Hp'. injection Hp' as <-.
  rewrite Hf, Hcol. reflexivity.
Qed.


Lemma mutate_piece_lookup (i : Z) (f : PieceState -> PieceState) (g : Game)
    (sq : Square) :
  board (mutate_piece i f g) !! sq
  = (fun p => if oid p =? i then with_state p (f (state p)) else p)
      <$> board g !! sq.
Proof. unfold mutate_piece. simpl. apply lookup_fmap. Qed.






(** ** Reading back what was written *)











Lemma enc_piece_type_with_name (n : string) (pt : PieceType) :
  enc_piece_type (with_name n pt) = enc_piece_type pt.
Proof. reflexivity. Qed.











Lemma elem_of_grid_cells (g : Game) (sq : Square) :
  sq ∈ grid_cells g ↔ in_bounds g (fst sq) (snd sq) = true.
Proof.
  unfold grid_cells. rewrite list_elem_of_In, in_flat_map, in_bounds_spec.
  destruct sq as [x y]. simpl. split.
  - intros (y' & Hy & H). apply list_elem_of_In, elem_of_range in Hy.
    apply list_elem_of_In, list_elem_of_fmap in H as (x' & E & Hx).
    apply elem_of_range in Hx. inversion E; subst. lia.
  - intros H. exists y. split.
    + apply list_elem_of_In, elem_of_range. lia.
    + apply list_elem_of_In, list_elem_of_fmap. exists x. split; [done|].
      apply elem_of_range. lia.
Qed.





(** * Runs of the engine on concrete games *)


Lemma place_piece_out_of_bounds_witness :
  in_bounds standard 8 0 = false
  ∧ place_piece 8 0 e2_pawn standard = standard.
Proof.
  split; [reflexivity|].
  apply (place_piece_out_of_bounds standard 8 0 e2_pawn). reflexivity.
Defined.

Lemma generated_moves_witness :
  board standard !! (4, 1) = Some e2_pawn
  ∧ dict_get (type_name e2_pawn) (piece_types standard) = Some pawn_type
  ∧ (4, 3) ∈ generate_moves_for_piece standard 4 1
  ∧ (0 ≤ 4 < cols standard ∧ 0 ≤ 3 < rows standard)
  ∧ (board standard !! (4, 3) = None
     ∨ ∃ target, board standard !! (4, 3) = Some target
                 ∧ color target ≠ color e2_pawn)
  ∧ ~ ((4, 3) ∈ damaged standard
       ∧ damage_blocks_move (rules standard) = true
       ∧ damaged_ok pawn_type = false).
Proof.
  assert (H1 : board standard !! (4, 1) = Some e2_pawn)
    by (vm_compute; reflexivity).
  assert (H2 : dict_get (type_name e2_pawn) (piece_types standard)
               = Some pawn_type) by reflexivity.
  assert (H3 : (4, 3) ∈ generate_moves_for_piece standard 4 1).
  { assert (E : generate_moves_for_piece standard 4 1 = [(4, 2); (4, 3)])
      by (vm_compute; reflexivity).
    rewrite E. apply elem_of_cons. right. apply elem_of_cons. left. reflexivity. }
  split; [exact H1|]. split; [exact H2|]. split; [exact H3|].
  exact (generated_moves_are_legal_destinations standard 4 1 e2_pawn
           pawn_type 4 3 H1 H2 H3).
Defined.

Example c8_bishop_stands : board standard !! (2, 7) = Some c8_bishop.
Proof. vm_compute. reflexivity. Qed.

Lemma atomic_capture_witness :
  capture_mode (rules standard) = "atomic"
  ∧ let g1 := move_piece d1_queen (3, 0) (3, 6) standard in
    let g2 := resolve_capture d1_queen (Some queen_type) (Some d7_pawn)
                (3, 6) 0 g1 in
    blast_radius d1_queen (Some queen_type) g1 = 1
    ∧ board g2 !! (3, 6) = Some d1_queen
    ∧ board g2 !! (2, 7) = None
    ∧ board g2 !! (3, 1) = board g1 !! (3, 1)
    ∧ damaged g2 = {[ (3, 6) ]} ∪ damaged standard.
Proof.
  assert (Hmode : capture_mode (rules standard) = "atomic")
    by (vm_compute; reflexivity).
  split; [exact Hmode|]. cbv zeta.
  pose proof (atomic_capture_explosion standard d1_queen d7_pawn
                (Some queen_type) (3, 0) (3, 6) 0 Hmode) as H.
  cbv zeta in H. destruct H as (_ & Hpos & _ & Hdam).
  assert (Hrad : blast_radius d1_queen (Some queen_type)
                   (move_piece d1_queen (3, 0) (3, 6) standard) = 1)
    by (vm_compute; reflexivity).
  rewrite Hrad in Hpos. destruct (Hpos eq_refl) as (Hcenter & Hin & Hout).
  split; [exact Hrad|]. split; [|split; [|split]].
  - transitivity (if center_survives (rules standard) then Some d1_queen
                  else None); [exact Hcenter|vm_compute; reflexivity].
  - transitivity (if is_immune standard c8_bishop then Some c8_bishop
                  else None); [|vm_compute; reflexivity].
    apply (Hin (2, 7) c8_bishop);
      [discriminate|vm_compute; reflexivity
      |vm_compute; reflexivity|vm_compute; discriminate
      |vm_compute; discriminate].
  - apply (Hout (3, 1)); [discriminate|]. right. right. vm_compute. reflexivity.
  - transitivity (if center_damages (rules standard)
                  then {[ (3, 6) ]} ∪ damaged standard else damaged standard);
      [exact Hdam|vm_compute; reflexivity].
Defined.


(** Scenario B of the specification, run on the engine. *)
Example scenario_B :
  let off := engine_of (toggle_chunk "z1" None z1_game) z1_game in
  let on := engine_of (toggle_chunk "z1" None off) off in
  map (fun sq => (is_none (board off !! sq), bool_decide (sq ∈ damaged off)))
      [(0, 0); (0, 1); (1, 0); (1, 1)]
  = [(true, true); (true, true); (true, true); (true, true)]
  ∧ map (fun sq => (strip <$> board on !! sq, bool_decide (sq ∈ damaged on)))
        [(0, 0); (0, 1); (1, 0); (1, 1)]
    = [(Some ("white", "pawn", "P"), false);
       (Some ("white", "pawn", "P"), false);
       (Some ("white", "pawn", "P"), false);
       (Some ("white", "pawn", "P"), false)].
Proof. vm_compute. split; reflexivity. Qed.



Lemma accepted_move_phases_witness :
  try_make_move (4, 1) (4, 3) 0 standard = Done true after_e4
  ∧ ∃ (piece : Piece) (dest : Square) (g0 g5 : Game),
      board standard !! (4, 1) = Some piece
      ∧ in_bounds g0 (fst dest) (snd dest) = true
      ∧ check_edge_triggers piece dest
          (hand_over (4, 1) dest (piece_name (board g0 !! dest))
             (post_move_script piece
                (dict_get (type_name piece) (piece_types standard))
                (4, 1) dest
                (set_last_move (Some ((4, 1), dest))
                   (resolve_capture piece
                      (dict_get (type_name piece) (piece_types standard))
                      (board g0 !! dest) dest 0
                      (move_piece piece (4, 1) dest g0)))))
        = Done tt g5
      ∧ after_e4
        = update_game_over 0 (apply_chunk_entry_exit piece (4, 1) dest g5).
Proof.
  assert (H : try_make_move (4, 1) (4, 3) 0 standard = Done true after_e4)
    by (vm_compute; reflexivity).
  split; [exact H|].
  destruct (accepted_move_phases standard (4, 1) (4, 3) 0 after_e4 H)
    as (piece & dest & g0 & g5 & Hp & _ & _ & Hb & He & Hg).
  exists piece, dest, g0, g5. auto.
Defined.

Lemma hands_over_the_turn_witness :
  try_make_move (4, 1) (4, 3) 0 standard = Done true after_e4
  ∧ turn after_e4 = "black" ∧ fullmove after_e4 = 1.
Proof.
  assert (H : try_make_move (4, 1) (4, 3) 0 standard = Done true after_e4)
    by (vm_compute; reflexivity).
  split; [exact H|].
  destruct (accepted_move_hands_over_the_turn standard (4, 1) (4, 3) 0
              after_e4 H) as (Ht & Hf & _).
  split; [exact Ht|exact Hf].
Defined.

(** Claim C3 fails as stated: on [zone_game] the engine lets the edge trigger
    switch the zone on before the chunk scripts run, so the pawn that enters
    it gets the zone's decay script; in the stated order it would not. *)
Lemma spec_order_counterexample :
  (∃ g', try_make_move (4, 1) (4, 2) 0 zone_game = Done true g'
         ∧ (script_name_override ∘ state) <$> board g' !! (4, 2)
           = Some (Some "decay"))
  ∧ (∃ g', try_make_move_spec_order (4, 1) (4, 2) 0 zone_game = Done true g'
           ∧ (script_name_override ∘ state) <$> board g' !! (4, 2)
             = Some None).
Proof.
  split; eexists; (split; [vm_compute; reflexivity|vm_compute; reflexivity]).
Qed.

(** Claim C9 fails as stated: [try_make_move] accepts the move of a black
    pawn while white is to move, and the move counter stays. *)
Lemma black_moves_on_white_turn_counterexample :
  color <$> board standard !! (4, 6) = Some "black"
  ∧ (4, 5) ∈ generate_moves_for_piece standard 4 6
  ∧ ∃ g', try_make_move (4, 6) (4, 5) 0 standard = Done true g'
          ∧ fullmove g' = fullmove standard.
Proof.
  split; [vm_compute; reflexivity|]. split.
  - assert (E : generate_moves_for_piece standard 4 6 = [(4, 5); (4, 4)])
      by (vm_compute; reflexivity).
    rewrite E. apply elem_of_cons. by left.
  - eexists. split; vm_compute; reflexivity.
Qed.

(** Claim C5 fails on the code: a configuration whose ["fullmove"] is [null]
    makes [import_config] raise after it has written the new size and turn;
    the counter, the clock start, the board and the registry are still the
    old ones. *)
Theorem import_aborts_midway :
  import_config null_fullmove_cfg 7 standard
  = Raised TypeError after_null_fullmove
  ∧ (cols after_null_fullmove, rows after_null_fullmove,
     square_size after_null_fullmove, turn after_null_fullmove)
    = (10, 10, 64, "black")
  ∧ fullmove after_null_fullmove = fullmove standard
  ∧ start_time_ms after_null_fullmove = start_time_ms standard
  ∧ board after_null_fullmove = board standard
  ∧ piece_types after_null_fullmove = piece_types standard.
Proof.
  split; [vm_compute; reflexivity|]. split; [vm_compute; reflexivity|].
  split; [vm_compute; reflexivity|]. split; [vm_compute; reflexivity|].
  split; vm_compute; reflexivity.
Qed.

(** The two branches of the edge-trigger loop on the same invalid ["dist"]:
    the random branch falls back to 0, the chunk branch raises. *)
Example import_trigger_siblings :
  import_trigger standard
    (PDict [("mode", PStr "random"); ("dist", PNone)])
  = Done tt
      (set_edge_triggers [TrigRandom "any" 0 1 8 1 8] standard)
  ∧ import_trigger standard (PDict [("chunk", PStr "z"); ("dist", PNone)])
    = Raised TypeError standard.
Proof. split; reflexivity. Qed.

(** Claim C4 fails on the code: the engine left by an aborted import has an
    empty registry; importing its export restores the default registry, so
    the second export differs from the first. *)
Theorem round_trip_breaks_after_failed_load :
  import_config bad_registry_cfg 0 standard
  = Raised AttributeError after_failed_load
  ∧ py_get "piece_types" (export_config after_failed_load) PNone = PDict []
  ∧ ∃ g', import_config (export_config after_failed_load) 0 after_failed_load
          = Done tt g'
          ∧ map fst (piece_types g')
            = ["king"; "rook"; "bishop"; "queen"; "knight"; "pawn"]
          ∧ export_config g' ≠ export_config after_failed_load.
Proof.
  split; [vm_compute; reflexivity|]. split; [vm_compute; reflexivity|].
  eexists. split; [vm_compute; reflexivity|]. split; [vm_compute; reflexivity|].
  intros H. apply (f_equal (fun c => py_get "piece_types" c PNone)) in H.
  vm_compute in H. discriminate H.
Qed.

(** * Further properties *)

Lemma standard_dims : cols standard = 8 ∧ rows standard = 8.
Proof. split; vm_compute; reflexivity. Qed.

Lemma standard_registry : piece_types standard = default_piece_types.
Proof. vm_compute. reflexivity. Qed.

Lemma standard_no_zones :
  chunks standard = [] ∧ edge_triggers standard = [] ∧ damaged standard = ∅.
Proof. split; [|split]; vm_compute; reflexivity. Qed.

Lemma default_registry_keys : NoDup (map fst default_piece_types).
Proof. eapply bool_decide_unpack. vm_compute. exact I. Qed.

Lemma standard_pieces :
  map_Forall
    (fun (sq : Square) (p : Piece) =>
       in_bounds standard (fst sq) (snd sq) = true
       ∧ type_name p ≠ ""
       ∧ dict_mem (type_name p) (piece_types standard) = true)
    (board standard).
Proof. eapply bool_decide_unpack. vm_compute. exact I. Qed.

Lemma standard_well_formed : wf_game standard.
Proof.
  destruct standard_dims as [Hc Hr].
  destruct standard_no_zones as (Hch & Ht & Hd).
  pose proof standard_registry as Hp.
  split.
  - rewrite Hc. lia.
  - rewrite Hr. lia.
  - rewrite Hp. exact default_registry_keys.
  - rewrite Hp. reflexivity.
  - rewrite Hp. reflexivity.
  - rewrite Hch. constructor.
  - rewrite Hch. constructor.
  - rewrite Ht. constructor.
  - intros sq p Hsq. exact (standard_pieces sq p Hsq).
  - intros sq. revert Hd. generalize (damaged standard). intros d -> H.
    apply elem_of_empty in H. destruct H.
Qed.

Lemma random_choice_elem {A : Type} (l : list A) (d : A) (g : Game) :
  l ≠ [] -> fst (random_choice l d g) ∈ l.
Proof.
  intros Hne. unfold random_choice. destruct (next_random g) as [q g1]. simpl.
  apply list_elem_of_In, nth_In.
  assert (0 < length l)%nat by (destruct l; [done|simpl; lia]).
  unfold draw_index. lia.
Qed.

Lemma nonempty_true {A : Type} (l : list A) : nonempty l = true -> l ≠ [].
Proof. by destruct l. Qed.

(** A pre-move script sends the piece to the chosen square or to one of the
    legal squares it was given. *)
Lemma apply_script_pre_move_target
    (piece : Piece) (ptype : option PieceType) (from_sq to_sq : Square)
    (legal : list Square) (g : Game) (dest : Square) :
  fst (apply_script_pre_move piece ptype from_sq to_sq legal g) = Some dest ->
  dest = to_sq ∨ dest ∈ legal.
Proof.
  unfold apply_script_pre_move.
  destruct (resolve_script_descriptor piece ptype) as [[sname|] param];
    [|simpl; intros [= <-]; by left].
  destruct (String.eqb (lower sname) "stutter").
  { destruct (next_random g) as [r g1]. destruct (Qltb r _); simpl;
      [discriminate|intros [= <-]; by left]. }
  destruct (String.eqb (lower sname) "jitter").
  { destruct (nonempty legal) eqn:En; [|simpl; intros [= <-]; by left].
    destruct (next_random g) as [r g1].
    destruct (Qltb r _); [|simpl; intros [= <-]; by left].
    pose proof (random_choice_elem legal to_sq g1 (nonempty_true _ En)) as Hin.
    destruct (random_choice legal to_sq g1) as [sq g2]. simpl in *.
    intros [= <-]. by right. }
  destruct (String.eqb (lower sname) "entropy").
  { cbv zeta.
    destruct (nonempty legal) eqn:En; [|simpl; intros [= <-]; by left].
    destruct (next_random g) as [r g1].
    destruct (Qltb r _); [|simpl; intros [= <-]; by left].
    pose proof (random_choice_elem legal to_sq g1 (nonempty_true _ En)) as Hin.
    destruct (random_choice legal to_sq g1) as [sq g2]. simpl in *.
    intros [= <-]. by right. }
  simpl. intros [= <-]. by left.
Qed.








(** ** Well-formedness is kept by every step of the engine *)

Lemma foldl_invariant {A B : Type} (P : A -> Prop) (f : A -> B -> A) (l : list B) :
  (∀ a b, P a -> P (f a b)) -> ∀ a, P a -> P (foldl f a l).
Proof.
  intros Hf. induction l as [|b l IH]; intros a Ha; [exact Ha|].
  simpl. apply IH, Hf, Ha.
Qed.

Lemma wf_game_frame (g g' : Game) :
  cols g' = cols g -> rows g' = rows g ->
  piece_types g' = piece_types g -> chunks g' = chunks g ->
  edge_triggers g' = edge_triggers g -> board g' = board g ->
  damaged g' = damaged g ->
  wf_game g -> wf_game g'.
Proof.
  intros Hc Hr Hp Hch He Hb Hd [Hwc Hwr Hwt Hwk Hwq Hwck Hwo Hwtr Hwb Hwd].
  constructor; rewrite ?Hc, ?Hr, ?Hp, ?Hch, ?He; try assumption.
  - intros sq p. rewrite Hb, (in_bounds_frame g g' _ _ Hc Hr). auto.
  - intros sq. rewrite Hd, (in_bounds_frame g g' _ _ Hc Hr). auto.
Qed.

Ltac wf_frame := eapply wf_game_frame; [..|eassumption]; reflexivity.

Lemma wf_board_delete (g : Game) (sq : Square) :
  wf_game g -> wf_game (set_board (delete sq (board g)) g).
Proof.
  intros [Hwc Hwr Hwt Hwk Hwq Hwck Hwo Hwtr Hwb Hwd]. constructor; try assumption.
  intros sq' p Hp. apply (Hwb sq' p).
  simpl in Hp. destruct (decide (sq' = sq)) as [->|Hne].
  - by rewrite lookup_delete_eq in Hp.
  - by rewrite lookup_delete_ne in Hp.
Qed.

Lemma wf_board_insert (g : Game) (sq : Square) (p : Piece) :
  in_bounds g (fst sq) (snd sq) = true -> type_name p ≠ "" ->
  dict_mem (type_name p) (piece_types g) = true ->
  wf_game g -> wf_game (set_board (<[sq := p]> (board g)) g).
Proof.
  intros Hin Hn Hm [Hwc Hwr Hwt Hwk Hwq Hwck Hwo Hwtr Hwb Hwd]. constructor; try assumption.
  intros sq' p' Hp. simpl in Hp. destruct (decide (sq' = sq)) as [->|Hne].
  - rewrite lookup_insert_eq in Hp. injection Hp as <-. auto.
  - rewrite lookup_insert_ne in Hp by done. by apply Hwb.
Qed.

Lemma wf_mutate_piece (i : Z) (f : PieceState -> PieceState) (g : Game) :
  wf_game g -> wf_game (mutate_piece i f g).
Proof.
  intros [Hwc Hwr Hwt Hwk Hwq Hwck Hwo Hwtr Hwb Hwd]. constructor; try assumption.
  intros sq p Hp. rewrite mutate_piece_lookup in Hp.
  destruct (board g !! sq) as [q|] eqn:Hq; [|done].
  simpl in Hp. injection Hp as <-.
  destruct (Hwb sq q Hq) as (? & ? & ?).
  by destruct (oid q =? i).
Qed.

Lemma wf_damaged_add (g : Game) (sq : Square) :
  in_bounds g (fst sq) (snd sq) = true ->
  wf_game g -> wf_game (set_damaged ({[ sq ]} ∪ damaged g) g).
Proof.
  intros Hin [Hwc Hwr Hwt Hwk Hwq Hwck Hwo Hwtr Hwb Hwd]. constructor; try assumption.
  intros sq' Hsq. simpl in Hsq. apply elem_of_union in Hsq as [Hsq|Hsq].
  - apply elem_of_singleton in Hsq as ->. exact Hin.
  - by apply Hwd.
Qed.

Lemma wf_damaged_remove (g : Game) (sq : Square) :
  wf_game g -> wf_game (set_damaged (damaged g ∖ {[ sq ]}) g).
Proof.
  intros [Hwc Hwr Hwt Hwk Hwq Hwck Hwo Hwtr Hwb Hwd]. constructor; try assumption.
  intros sq' Hsq. simpl in Hsq. apply elem_of_difference in Hsq as [Hsq _].
  by apply Hwd.
Qed.

Lemma wf_add_dsl_message (m : Message) (g : Game) :
  wf_game g -> wf_game (add_dsl_message m g).
Proof. intros H. unfold add_dsl_message. wf_frame. Qed.

(** *** Dictionaries *)

Lemma dict_set_keys {V : Type} (k : string) (v : V) (d : list (string * V)) :
  map fst (dict_set k v d)
  = if dict_mem k d then map fst d else map fst d ++ [k].
Proof.
  unfold dict_mem. induction d as [|[k' v'] d IH]; [done|]. simpl.
  destruct (String.eqb_spec k k') as [->|Hne]; [done|].
  simpl. rewrite IH. by destruct (dict_get k d).
Qed.

Lemma dict_mem_elem {V : Type} (k : string) (d : list (string * V)) :
  dict_mem k d = true ↔ k ∈ map fst d.
Proof.
  unfold dict_mem. induction d as [|[k' v'] d IH]; simpl.
  - split; [done|]. intros H. by apply elem_of_nil in H.
  - destruct (String.eqb_spec k k') as [->|Hne].
    + split; [|done]. intros _. apply elem_of_cons. by left.
    + rewrite IH, elem_of_cons. split; [by right|]. by intros [?|?].
Qed.

Lemma dict_set_NoDup {V : Type} (k : string) (v : V) (d : list (string * V)) :
  NoDup (map fst d) -> NoDup (map fst (dict_set k v d)).
Proof.
  intros Hd. rewrite dict_set_keys.
  destruct (dict_mem k d) eqn:Hm; [done|].
  apply NoDup_app. split; [done|]. split.
  - intros x Hx Hk. apply list_elem_of_singleton in Hk as ->.
    apply dict_mem_elem in Hx. congruence.
  - apply NoDup_singleton.
Qed.

Lemma dict_mem_set {V : Type} (k k0 : string) (v : V) (d : list (string * V)) :
  dict_mem k0 d = true -> dict_mem k0 (dict_set k v d) = true.
Proof.
  intros H. unfold dict_mem in *. destruct (decide (k0 = k)) as [->|Hne].
  - by rewrite dict_get_set_eq.
  - by rewrite dict_get_set_ne.
Qed.

Lemma dict_mem_set_eq {V : Type} (k : string) (v : V) (d : list (string * V)) :
  dict_mem k (dict_set k v d) = true.
Proof. unfold dict_mem. by rewrite dict_get_set_eq. Qed.

Lemma dict_set_Forall {V : Type} (P : string * V -> Prop) (k : string) (v : V)
    (d : list (string * V)) :
  P (k, v) -> Forall P d -> Forall P (dict_set k v d).
Proof.
  intros Hk. induction d as [|[k' v'] d IH]; intros Hd; simpl.
  - by constructor.
  - apply Forall_cons in Hd as [H1 H2].
    destruct (String.eqb k k'); constructor; auto.
Qed.

Lemma dict_get_Forall {V : Type} (P : string * V -> Prop) (k : string) (v : V)
    (d : list (string * V)) :
  Forall P d -> dict_get k d = Some v -> ∃ k', P (k', v).
Proof.
  induction d as [|[k' v'] d IH]; intros Hd Hg; [done|].
  apply Forall_cons in Hd as [H1 H2]. simpl in Hg.
  destruct (String.eqb k k'); [|by apply IH].
  injection Hg as <-. by exists k'.
Qed.

Lemma wf_set_chunk (n : string) (ch : Chunk) (g : Game) :
  valid_owner (owner ch) ->
  wf_game g -> wf_game (set_chunks (dict_set n ch (chunks g)) g).
Proof.
  intros Ho [Hwc Hwr Hwt Hwk Hwq Hwck Hwo Hwtr Hwb Hwd]. constructor; try assumption.
  - by apply dict_set_NoDup.
  - by apply dict_set_Forall.
Qed.

Lemma wf_register_type (t : string) (pt : PieceType) (g : Game) :
  wf_game g -> wf_game (set_piece_types (dict_set t pt (piece_types g)) g).
Proof.
  intros [Hwc Hwr Hwt Hwk Hwq Hwck Hwo Hwtr Hwb Hwd]. constructor; try assumption.
  - by apply dict_set_NoDup.
  - by apply dict_mem_set.
  - by apply dict_mem_set.
  - intros sq p Hp. destruct (Hwb sq p Hp) as (? & ? & ?).
    repeat split; try done. by apply dict_mem_set.
Qed.

(** *** The blocks of [try_make_move] *)

Lemma wf_move_piece (piece : Piece) (from_sq to_sq : Square) (g : Game) :
  board g !! from_sq = Some piece ->
  in_bounds g (fst to_sq) (snd to_sq) = true ->
  wf_game g -> wf_game (move_piece piece from_sq to_sq g).
Proof.
  intros Hp Hin Hwf. destruct (wf_board g Hwf from_sq piece Hp) as (_ & Hn & Hm).
  pose proof (wf_board_insert (set_board (delete from_sq (board g)) g) to_sq
                piece Hin Hn Hm (wf_board_delete g from_sq Hwf)) as H.
  eapply wf_game_frame; [..|exact H]; reflexivity.
Qed.

Lemma wf_blast_cell (to_sq : Square) (sc : bool) (g : Game) (c : Square) :
  wf_game g -> wf_game (blast_cell to_sq sc g c).
Proof.
  intros H. unfold blast_cell. repeat case_match; try done;
    by apply wf_board_delete.
Qed.

Lemma wf_trigger_explosion (c : Square) (now r : Z) (g : Game) :
  wf_game g -> wf_game (trigger_explosion c now r g).
Proof. intros H. unfold trigger_explosion. wf_frame. Qed.

Lemma wf_resolve_capture (piece : Piece) (ptype : option PieceType)
    (target : option Piece) (to_sq : Square) (now : Z) (g : Game) :
  in_bounds g (fst to_sq) (snd to_sq) = true ->
  wf_game g -> wf_game (resolve_capture piece ptype target to_sq now g).
Proof.
  intros Hin H. unfold resolve_capture.
  destruct (negb _); [done|]. destruct (String.eqb _ "normal"); [done|].
  destruct (String.eqb _ "atomic"); [|done].
  set (g1 := if 0 <? _ then _ else g).
  assert (H1 : wf_game g1 ∧ cols g1 = cols g ∧ rows g1 = rows g).
  { unfold g1. destruct (0 <? _); [|done].
    set (gt := trigger_explosion _ _ _ g).
    pose proof (wf_trigger_explosion to_sq now (blast_radius piece ptype g) g H)
      as Ht. fold gt in Ht.
    set (gf := foldl _ gt _).
    assert (Hf : wf_game gf)
      by (apply foldl_invariant; [intros; by apply wf_blast_cell|exact Ht]).
    destruct (blast_fold_frame to_sq (center_survives (rules gt))
                (block_cells (fst to_sq) (snd to_sq) (blast_radius piece ptype g))
                gt) as (Hc & Hr & _).
    fold gf in Hc, Hr.
    destruct (negb _); [split; [by apply wf_board_delete|]|]; split; done. }
  destruct H1 as (H1 & Hc & Hr).
  destruct (center_damages _); [|done].
  apply wf_damaged_add; [|done].
  by rewrite (in_bounds_frame g g1 _ _ Hc Hr).
Qed.

Lemma wf_apply_script_post_move piece ptype (from_sq to_sq : Square) (g : Game) :
  wf_game g -> wf_game (apply_script_post_move piece ptype from_sq to_sq g).
Proof.
  intros H. unfold apply_script_post_move.
  repeat case_match; subst; try done;
    repeat first [ apply wf_board_delete | apply wf_mutate_piece ]; done.
Qed.

Lemma wf_post_move_script piece ptype (from_sq to_sq : Square) (g : Game) :
  wf_game g -> wf_game (post_move_script piece ptype from_sq to_sq g).
Proof.
  intros H. unfold post_move_script.
  repeat case_match; try done. by apply wf_apply_script_post_move.
Qed.

Lemma wf_hand_over (from_sq to_sq : Square) (cn : string) (g : Game) :
  wf_game g -> wf_game (hand_over from_sq to_sq cn g).
Proof.
  intros H. unfold hand_over, send_move_osc, toggle_turn.
  destruct (count_pieces _). destruct (String.eqb (turn g) "black"); wf_frame.
Qed.

(** *** Zones and edge triggers *)

Lemma wf_void_cell (g : Game) (c : Square) : wf_game g -> wf_game (void_cell g c).
Proof.
  intros H. unfold void_cell.
  destruct (in_bounds g (fst c) (snd c)) eqn:Hin; [|done]. simpl.
  apply (wf_damaged_add (set_board (delete c (board g)) g) c Hin).
  by apply wf_board_delete.
Qed.

Lemma wf_undamage_cell (g : Game) (c : Square) :
  wf_game g -> wf_game (undamage_cell g c).
Proof.
  intros H. unfold undamage_cell. repeat case_match; try done.
  by apply wf_damaged_remove.
Qed.

Lemma wf_fill_cell (c t sym : string) (g : Game) (sq : Square) :
  t ≠ "" -> dict_mem t (piece_types g) = true ->
  wf_game g ->
  wf_game (fill_cell c t sym g sq)
  ∧ piece_types (fill_cell c t sym g sq) = piece_types g.
Proof.
  intros Ht Hm H. unfold fill_cell.
  destruct (in_bounds g (fst sq) (snd sq)) eqn:Hin; [|done]. simpl.
  destruct (board g !! sq); [done|]. split; [|done].
  pose proof (wf_board_insert g sq
                {| oid := next_oid g; color := c; type_name := t;
                   symbol := sym; state := empty_state |} Hin Ht Hm H) as H'.
  eapply wf_game_frame; [..|exact H']; reflexivity.
Qed.

Lemma wf_fill_fold (c t sym : string) (cells : list Square) (g : Game) :
  t ≠ "" -> dict_mem t (piece_types g) = true ->
  wf_game g -> wf_game (foldl (fill_cell c t sym) g cells).
Proof.
  intros Ht. revert g. induction cells as [|sq cells IH]; intros g Hm H; [done|].
  simpl. destruct (wf_fill_cell c t sym g sq Ht Hm H) as [H1 Hp].
  apply IH; [by rewrite Hp|done].
Qed.

Lemma first_upper_not_empty (t : string) (sym : string) :
  first_upper t = Some sym -> t ≠ "".
Proof. by intros H ->. Qed.

Lemma wf_toggle_chunk (n : string) (mc : option string) (g : Game) :
  wf_game g -> after wf_game (toggle_chunk n mc g).
Proof.
  intros H. unfold toggle_chunk.
  destruct (dict_get n (chunks g)) as [ch|] eqn:Hch;
    [|by apply wf_add_dsl_message].
  assert (Ho : valid_owner (owner ch)).
  { destruct (dict_get_Forall _ n ch (chunks g) (wf_owners g H) Hch) as [k Hk].
    exact Hk. }
  match goal with |- context [if ?b then Done tt g else _] => destruct b end;
    [exact H|].
  destruct (active ch).
  - apply wf_add_dsl_message. apply wf_set_chunk; [exact Ho|].
    apply foldl_invariant; [intros; by apply wf_void_cell|exact H].
  - set (g1 := foldl undamage_cell g _).
    assert (H1 : wf_game g1)
      by (apply foldl_invariant; [intros; by apply wf_undamage_cell|exact H]).
    set (g2 := set_chunk_active n ch true g1).
    assert (H2 : wf_game g2) by (by apply wf_set_chunk).
    clearbody g2. clear g1 H1.
    destruct (fill ch) as [f|]; [|by apply wf_add_dsl_message].
    set (t := lower (default "pawn" (fill_type f))).
    assert (Hk : ∀ g3, wf_game g3 -> dict_mem t (piece_types g3) = true ->
              after wf_game
                (match first_upper t with
                 | None =>
                     if existsb
                          (fun sq : Square =>
                             in_bounds g3 (fst sq) (snd sq)
                             && is_none (board g3 !! sq))
                          (rect_cells (normalize_rect (rect ch)))
                     then Raised IndexError g3
                     else Done tt (add_dsl_message (MsgChunkEnabled n) g3)
                 | Some sym =>
                     Done tt
                       (add_dsl_message (MsgChunkEnabled n)
                          (foldl (fill_cell
                                    (lower (default "white" (fill_color f)))
                                    t sym) g3
                                 (rect_cells (normalize_rect (rect ch)))))
                 end)).
    { intros g3 H3 Hm. destruct (first_upper t) as [sym|] eqn:Hsym.
      - apply wf_add_dsl_message. apply wf_fill_fold; try done.
        by apply (first_upper_not_empty t sym).
      - destruct (existsb _ _); [exact H3|]. by apply wf_add_dsl_message. }
    destruct (dict_mem t (piece_types g2)) eqn:Hm; [by apply Hk|].
    destruct (dict_get "queen" (piece_types g2)) as [base|]; [|exact H2].
    apply Hk; [by apply wf_register_type|apply dict_mem_set_eq].
Qed.

Lemma wf_random_choice {A : Type} (l : list A) (d : A) (g : Game) :
  wf_game g -> wf_game (snd (random_choice l d g)).
Proof.
  intros H. unfold random_choice, next_random.
  destruct (random_draws g); simpl; [done|wf_frame].
Qed.

Lemma wf_random_randint (a b : Z) (g : Game) :
  wf_game g -> after wf_game (random_randint a b g).
Proof.
  intros H. unfold random_randint, next_random.
  destruct (b <? a); [done|]. destruct (random_draws g); simpl; [done|wf_frame].
Qed.

Lemma wf_spawn (pos : Square) (d minw maxw minh maxh : Z) (g : Game) :
  wf_game g ->
  after wf_game (spawn_random_chunk_near_edge pos d minw maxw minh maxh g).
Proof.
  intros H. unfold spawn_random_chunk_near_edge. destruct pos as [x y].
  destruct (d <? _); [done|].
  match goal with
  | |- context [random_choice ?l ?dflt g] =>
      pose proof (wf_random_choice l dflt g H) as H1;
      destruct (random_choice l dflt g) as [edge g1]
  end.
  simpl in H1.
  apply after_obind; [by apply wf_random_randint|]. intros w g2 H2.
  apply after_obind; [by apply wf_random_randint|]. intros h g3 H3.
  repeat case_match; apply wf_add_dsl_message;
    match goal with
    | |- wf_game (set_chunks (dict_set ?k ?c _) ?gg) =>
        apply (wf_set_chunk k c gg); [right; by right|wf_frame]
    end.
Qed.

Lemma wf_trigger_step piece (pos : Square) (md : Z) (g : Game) (trig : Trigger) :
  wf_game g -> after wf_game (trigger_step piece pos md g trig).
Proof.
  intros H. unfold trigger_step. destruct trig.
  - repeat case_match; try done. by apply wf_toggle_chunk.
  - repeat case_match; try done. by apply wf_spawn.
Qed.

Lemma after_ofold_invariant {B : Type} (P : Game -> Prop)
    (f : Game -> B -> Outcome unit) (l : list B) :
  (∀ g b, P g -> after P (f g b)) ->
  ∀ acc, after P acc ->
    after P (foldl (fun (acc : Outcome unit) b => obind acc (fun _ g => f g b))
               acc l).
Proof.
  intros Hf. induction l as [|b l IH]; intros acc Ha; [exact Ha|].
  simpl. apply IH. apply after_obind; [exact Ha|]. intros _ g. apply Hf.
Qed.

Lemma wf_check_edge_triggers piece (pos : Square) (g : Game) :
  wf_game g -> after wf_game (check_edge_triggers piece pos g).
Proof.
  intros H. unfold check_edge_triggers. destruct pos as [x y].
  apply (after_ofold_invariant wf_game
           (fun g trig => trigger_step piece (x, y) _ g trig)); [|exact H].
  intros g' trig. apply wf_trigger_step.
Qed.

Lemma wf_apply_chunk_script_override piece scr (g : Game) :
  wf_game g -> wf_game (apply_chunk_script_override piece scr g).
Proof.
  intros H. unfold apply_chunk_script_override.
  repeat case_match; try done; by apply wf_mutate_piece.
Qed.

Lemma wf_chunk_entry_exit_step piece (from_sq to_sq : Square) (g : Game)
    (entry : string * Chunk) :
  wf_game g -> wf_game (chunk_entry_exit_step piece from_sq to_sq g entry).
Proof.
  intros H. unfold chunk_entry_exit_step. destruct entry as [n ch].
  destruct (negb (active ch)); [done|].
  match goal with |- context [if ?b then g else _] => destruct b end; [done|].
  set (g1 := if _ && _ && script_truthy (enter_script ch) then _ else g).
  assert (H1 : wf_game g1).
  { unfold g1. destruct (_ && _ && script_truthy (enter_script ch)); [|done].
    by apply wf_add_dsl_message, wf_apply_chunk_script_override. }
  clearbody g1.
  destruct (_ && _ && script_truthy (leave_script ch)); [|done].
  by apply wf_add_dsl_message, wf_apply_chunk_script_override.
Qed.

Lemma wf_apply_chunk_entry_exit piece (from_sq to_sq : Square) (g : Game) :
  wf_game g -> wf_game (apply_chunk_entry_exit piece from_sq to_sq g).
Proof.
  intros H. unfold apply_chunk_entry_exit.
  apply foldl_invariant; [|exact H].
  intros; by apply wf_chunk_entry_exit_step.
Qed.

Lemma wf_set_result (text r o : string) (g : Game) :
  wf_game g -> wf_game (set_result text r o g).
Proof. intros H. unfold set_result, send_game_over_osc. wf_frame. Qed.

Lemma wf_decide_by_counts w b t1 t2 t3 (g g' : Game) :
  decide_by_counts w b t1 t2 t3 g = Some g' -> wf_game g -> wf_game g'.
Proof.
  unfold decide_by_counts. intros Hd H.
  repeat case_match; simplify_eq; by apply wf_set_result.
Qed.

Lemma wf_apply_limit_result (a b c : string) (g : Game) :
  wf_game g -> wf_game (apply_limit_result a b c g).
Proof.
  intros H. unfold apply_limit_result.
  repeat case_match; try done; by apply wf_set_result.
Qed.

Lemma wf_check_limits_game_over (now : Z) (g : Game) :
  wf_game g -> wf_game (check_limits_game_over now g).
Proof.
  intros H. unfold check_limits_game_over.
  repeat case_match; try done; by apply wf_apply_limit_result.
Qed.

Lemma wf_update_game_over (now : Z) (g : Game) :
  wf_game g -> wf_game (update_game_over now g).
Proof.
  intros H. unfold update_game_over.
  destruct (game_over g); [done|].
  destruct (String.eqb _ "king_capture").
  - destruct (count_royals g) as [wr br].
    destruct (decide_by_counts wr br _ _ _ g) as [g'|] eqn:Hd;
      [by eapply wf_decide_by_counts|].
    destruct (String.eqb _ "elimination");
      [|by apply wf_check_limits_game_over].
    destruct (count_pieces g) as [wc bc].
    destruct (decide_by_counts wc bc _ _ _ g) as [g'|] eqn:Hd2;
      [by eapply wf_decide_by_counts|by apply wf_check_limits_game_over].
  - destruct (String.eqb _ "elimination");
      [|by apply wf_check_limits_game_over].
    destruct (count_pieces g) as [wc bc].
    destruct (decide_by_counts wc bc _ _ _ g) as [g'|] eqn:Hd2;
      [by eapply wf_decide_by_counts|by apply wf_check_limits_game_over].
Qed.

Lemma wf_try_make_move (g : Game) (from_sq to_sq : Square) (now : Z) :
  wf_game g -> after wf_game (try_make_move from_sq to_sq now g).
Proof.
  intros H. unfold try_make_move.
  destruct (board g !! from_sq) as [piece|] eqn:Hp; [|exact H].
  destruct (negb _); [exact H|].
  set (ptype := dict_get (type_name piece) (piece_types g)).
  set (legal := generate_moves_for_piece g (fst from_sq) (snd from_sq)).
  destruct (apply_script_pre_move_frame piece ptype from_sq to_sq legal g)
    as [r Hr].
  destruct (apply_script_pre_move piece ptype from_sq to_sq legal g)
    as [nt g0]. simpl in Hr. subst g0.
  assert (H0 : wf_game (set_random_draws r g)) by wf_frame.
  destruct nt as [dest|]; [|exact H0].
  destruct (in_bounds _ (fst dest) (snd dest)) eqn:Hin; [|exact H0]. simpl.
  apply after_obind.
  - apply wf_check_edge_triggers, wf_hand_over, wf_post_move_script.
    eapply wf_game_frame;
      [..|apply (wf_resolve_capture piece ptype
                   (board (set_random_draws r g) !! dest) dest now
                   (move_piece piece from_sq dest (set_random_draws r g)))];
      try reflexivity; [exact Hin|].
    by apply wf_move_piece.
  - intros _ g' H'. apply wf_update_game_over, wf_apply_chunk_entry_exit, H'.
Qed.

Lemma wf_select_square (x y : Z) (g : Game) :
  wf_game g -> wf_game (select_square x y g).
Proof. intros H. unfold select_square. wf_frame. Qed.

Lemma wf_handle_click (pos : Z * Z) (now : Z) (g : Game) :
  wf_game g -> after wf_game (handle_click pos now g).
Proof.
  intros H. unfold handle_click.
  destruct (_ || _); [exact H|].
  destruct (screen_to_square _ _ _ _ _) as [[x y]|]; [|exact H].
  destruct (selected_square g) as [sel|].
  - destruct (bool_decide _); [simpl; wf_frame|].
    apply after_obind; [by apply wf_try_make_move|].
    intros moved g' H'. destruct (negb moved); [|exact H'].
    destruct (own_piece _ _); [by apply wf_select_square|exact H'].
  - destruct (own_piece _ _); [by apply wf_select_square|exact H].
Qed.

(** ** What the reactions to a move leave alone

    [obs] is any observation of the engine that does not depend on the fields
    the zone and trigger code assigns. *)

Section Frame.
Context {X : Type} (obs : Game -> X).
Hypothesis obs_board : ∀ v g, obs (set_board v g) = obs g.
Hypothesis obs_damaged : ∀ v g, obs (set_damaged v g) = obs g.
Hypothesis obs_chunks : ∀ v g, obs (set_chunks v g) = obs g.
Hypothesis obs_piece_types : ∀ v g, obs (set_piece_types v g) = obs g.
Hypothesis obs_dsl_messages : ∀ v g, obs (set_dsl_messages v g) = obs g.
Hypothesis obs_random_draws : ∀ v g, obs (set_random_draws v g) = obs g.
Hypothesis obs_rand_chunk_counter :
  ∀ v g, obs (set_rand_chunk_counter v g) = obs g.
Hypothesis obs_next_oid : ∀ v g, obs (set_next_oid v g) = obs g.

Ltac obs_tac :=
  unfold after, add_dsl_message, set_chunk_active, mutate_piece in *;
  cbv beta iota zeta;
  repeat (progress rewrite ?obs_dsl_messages, ?obs_chunks, ?obs_damaged,
            ?obs_board, ?obs_piece_types, ?obs_rand_chunk_counter,
            ?obs_next_oid, ?obs_random_draws);
  first [assumption | reflexivity].

Lemma toggle_chunk_obs n mc g x :
  obs g = x -> after (fun g' => obs g' = x) (toggle_chunk n mc g).
Proof.
  intros Hc. unfold toggle_chunk.
  destruct (dict_get n (chunks g)) as [ch|]; [|obs_tac].
  cbv zeta. case_match; [done|].
  set (cells := rect_cells (normalize_rect (rect ch))).
  destruct (active ch).
  - destruct (void_fold_frame cells g) as (b & d & ->). obs_tac.
  - destruct (undamage_fold_frame cells g) as (d & ->).
    destruct (fill ch) as [f|]; [|obs_tac].
    apply after_obind.
    + repeat case_match; obs_tac.
    + intros _ g1 Hg1. destruct (first_upper _) as [sym|].
      * match goal with
        | |- context [foldl (fill_cell ?a ?b ?c) ?g0 ?l] =>
            destruct (fill_fold_frame a b c l g0) as (bb & o & ->)
        end. obs_tac.
      * destruct (existsb _ _); obs_tac.
Qed.

Lemma next_random_obs g x : obs g = x -> obs (snd (next_random g)) = x.
Proof.
  intros Hc. unfold next_random. destruct (random_draws g); simpl; obs_tac.
Qed.

Lemma random_randint_obs a b g x :
  obs g = x -> after (fun g' => obs g' = x) (random_randint a b g).
Proof.
  intros Hc. unfold random_randint. case_match; [done|].
  pose proof (next_random_obs g x Hc). destruct (next_random g). done.
Qed.

Lemma spawn_obs pos d minw maxw minh maxh g x :
  obs g = x ->
  after (fun g' => obs g' = x)
        (spawn_random_chunk_near_edge pos d minw maxw minh maxh g).
Proof.
  intros Hc. unfold spawn_random_chunk_near_edge. destruct pos as [px py].
  cbv zeta. case_match; [done|]. unfold random_choice.
  pose proof (next_random_obs g x Hc) as Hn.
  destruct (next_random g) as [q g1]. simpl in Hn.
  apply after_obind; [by apply random_randint_obs|].
  intros w g2 Hg2.
  apply after_obind; [by apply random_randint_obs|].
  intros h g3 Hg3. repeat case_match; obs_tac.
Qed.

Lemma trigger_step_obs piece pos md g trig x :
  obs g = x -> after (fun g' => obs g' = x) (trigger_step piece pos md g trig).
Proof.
  intros Hc. unfold trigger_step. destruct trig.
  - repeat case_match; try done. by apply toggle_chunk_obs.
  - repeat case_match; try done. by apply spawn_obs.
Qed.

Lemma check_edge_triggers_obs piece pos g x :
  obs g = x -> after (fun g' => obs g' = x) (check_edge_triggers piece pos g).
Proof.
  intros Hc. unfold check_edge_triggers. destruct pos as [px py]. cbv zeta.
  generalize (Z.min (Z.min px (cols g - 1 - px)) (Z.min py (rows g - 1 - py))).
  intros md.
  assert (Hacc : after (fun g' => obs g' = x) (Done tt g : Outcome unit))
    by done.
  revert Hacc. generalize (Done tt g : Outcome unit).
  induction (edge_triggers g) as [|trig l IH]; intros acc Hacc; [done|].
  cbn [foldl]. apply IH. apply after_obind; [done|].
  intros _ g1 Hg1. by apply trigger_step_obs.
Qed.

Lemma apply_chunk_script_override_obs piece scr g :
  obs (apply_chunk_script_override piece scr g) = obs g.
Proof. unfold apply_chunk_script_override. repeat case_match; obs_tac. Qed.

Lemma chunk_entry_exit_step_obs piece from_sq to_sq g e :
  obs (chunk_entry_exit_step piece from_sq to_sq g e) = obs g.
Proof.
  unfold chunk_entry_exit_step. destruct e as [n ch].
  repeat case_match; try done; unfold add_dsl_message;
    rewrite ?obs_dsl_messages, ?apply_chunk_script_override_obs,
      ?obs_dsl_messages, ?apply_chunk_script_override_obs; done.
Qed.

Lemma apply_chunk_entry_exit_obs piece from_sq to_sq g :
  obs (apply_chunk_entry_exit piece from_sq to_sq g) = obs g.
Proof.
  unfold apply_chunk_entry_exit. generalize (chunks g). intros l. revert g.
  induction l as [|e l IH]; intros g; [done|].
  cbn [foldl]. rewrite IH. apply chunk_entry_exit_step_obs.
Qed.

Lemma apply_script_post_move_obs piece ptype from_sq to_sq g :
  obs (apply_script_post_move piece ptype from_sq to_sq g) = obs g.
Proof.
  unfold apply_script_post_move. repeat case_match; obs_tac.
Qed.

Lemma post_move_script_obs piece ptype from_sq to_sq g :
  obs (post_move_script piece ptype from_sq to_sq g) = obs g.
Proof.
  unfold post_move_script.
  repeat case_match; try reflexivity. apply apply_script_post_move_obs.
Qed.

(** The rest of an accepted move also assigns the turn, the counters, the
    selection and the outcome. *)
Hypothesis obs_explosions : ∀ v g, obs (set_explosions v g) = obs g.
Hypothesis obs_osc_out : ∀ v g, obs (set_osc_out v g) = obs g.
Hypothesis obs_turn : ∀ v g, obs (set_turn v g) = obs g.
Hypothesis obs_fullmove : ∀ v g, obs (set_fullmove v g) = obs g.
Hypothesis obs_selected_square : ∀ v g, obs (set_selected_square v g) = obs g.
Hypothesis obs_legal_targets : ∀ v g, obs (set_legal_targets v g) = obs g.
Hypothesis obs_game_over : ∀ v g, obs (set_game_over v g) = obs g.
Hypothesis obs_result_text : ∀ v g, obs (set_result_text v g) = obs g.

Ltac obs_tac2 :=
  unfold set_result, send_game_over_osc;
  repeat (progress rewrite ?obs_osc_out, ?obs_result_text, ?obs_game_over,
            ?obs_explosions, ?obs_turn, ?obs_fullmove, ?obs_selected_square,
            ?obs_legal_targets, ?obs_board, ?obs_damaged);
  first [assumption | reflexivity].

Lemma resolve_capture_obs piece ptype target to_sq now g :
  obs (resolve_capture piece ptype target to_sq now g) = obs g.
Proof.
  unfold resolve_capture.
  destruct (blast_fold_only_board to_sq
              (center_survives (rules (trigger_explosion to_sq now
                 (blast_radius piece ptype g) g)))
              (block_cells (fst to_sq) (snd to_sq) (blast_radius piece ptype g))
              (trigger_explosion to_sq now (blast_radius piece ptype g) g))
    as (b & Hb).
  cbv zeta. rewrite Hb. unfold trigger_explosion.
  repeat case_match; obs_tac2.
Qed.

Lemma hand_over_obs from_sq to_sq cn g :
  obs (hand_over from_sq to_sq cn g) = obs g.
Proof.
  unfold hand_over, send_move_osc, toggle_turn.
  destruct (count_pieces _). repeat case_match; obs_tac2.
Qed.

Lemma update_game_over_obs now g : obs (update_game_over now g) = obs g.
Proof.
  unfold update_game_over, decide_by_counts, check_limits_game_over,
    apply_limit_result.
  repeat case_match; simplify_eq; obs_tac2.
Qed.

Hypothesis obs_last_move : ∀ v g, obs (set_last_move v g) = obs g.

Lemma try_make_move_obs from_sq to_sq now g :
  after (fun g' => obs g' = obs g) (try_make_move from_sq to_sq now g).
Proof.
  unfold try_make_move.
  destruct (board g !! from_sq) as [piece|]; [|done].
  destruct (negb _); [done|].
  set (ptype := dict_get (type_name piece) (piece_types g)).
  set (legal := generate_moves_for_piece g (fst from_sq) (snd from_sq)).
  destruct (apply_script_pre_move_frame piece ptype from_sq to_sq legal g)
    as [r Hr].
  destruct (apply_script_pre_move piece ptype from_sq to_sq legal g)
    as [nt g0]. simpl in Hr. subst g0.
  destruct nt as [dest|]; [|apply obs_random_draws].
  destruct (negb _); [apply obs_random_draws|].
  apply after_obind.
  - apply check_edge_triggers_obs.
    rewrite hand_over_obs, post_move_script_obs, obs_last_move,
      resolve_capture_obs. unfold move_piece.
    by rewrite obs_board, obs_random_draws.
  - intros _ g' H'. simpl.
    by rewrite update_game_over_obs, apply_chunk_entry_exit_obs.
Qed.
End Frame.

(** X12.  A move attempt never touches the settings of the game: the board
    dimensions, the square size, the rules, the start of the clock, the DSL
    mode and the list of edge triggers are the same afterwards, whether the
    move was accepted, rejected or ended in an exception. *)
Theorem try_make_move_keeps_settings
    (g : Game) (from_sq to_sq : Square) (now : Z) :
  after (fun g' =>
           cols g' = cols g ∧ rows g' = rows g
           ∧ square_size g' = square_size g ∧ rules g' = rules g
           ∧ start_time_ms g' = start_time_ms g ∧ dsl_mode g' = dsl_mode g
           ∧ edge_triggers g' = edge_triggers g)
        (try_make_move from_sq to_sq now g).
Proof.
  pose proof (try_make_move_obs
                (fun g => (cols g, rows g, square_size g, rules g,
                           start_time_ms g, dsl_mode g, edge_triggers g))) as H.
  specialize (H ltac:(reflexivity) ltac:(reflexivity) ltac:(reflexivity)
                ltac:(reflexivity) ltac:(reflexivity) ltac:(reflexivity)
                ltac:(reflexivity) ltac:(reflexivity) ltac:(reflexivity)
                ltac:(reflexivity) ltac:(reflexivity) ltac:(reflexivity)
                ltac:(reflexivity) ltac:(reflexivity) ltac:(reflexivity)
                ltac:(reflexivity) ltac:(reflexivity)
                from_sq to_sq now g).
  destruct (try_make_move from_sq to_sq now g) as [b g'|e g'|]; simpl in *;
    [| |exact I]; injection H as -> -> -> -> -> -> ->; done.
Qed.

(** X10.  An accepted move went to a square the move generator listed for the
    piece on the origin, that square is on the board, and the move is what
    [last_move] holds afterwards, whatever the pre-move script chose and
    whatever the zones and triggers did. *)
Theorem accepted_move_is_generated_and_recorded
    (g : Game) (from_sq to_sq : Square) (now : Z) (g' : Game) :
  try_make_move from_sq to_sq now g = Done true g' ->
  ∃ dest : Square,
    last_move g' = Some (from_sq, dest)
    ∧ dest ∈ generate_moves_for_piece g (fst from_sq) (snd from_sq)
    ∧ in_bounds g (fst dest) (snd dest) = true.
Proof.
  unfold try_make_move.
  destruct (board g !! from_sq) as [piece|]; [|discriminate].
  destruct (bool_decide _) eqn:Hleg; [|discriminate]. simpl.
  apply bool_decide_eq_true in Hleg.
  set (ptype := dict_get (type_name piece) (piece_types g)).
  set (legal := generate_moves_for_piece g (fst from_sq) (snd from_sq)) in *.
  pose proof (apply_script_pre_move_target piece ptype from_sq to_sq legal g) as Ht.
  destruct (apply_script_pre_move_frame piece ptype from_sq to_sq legal g)
    as [r Hr].
  destruct (apply_script_pre_move piece ptype from_sq to_sq legal g)
    as [nt g0]. simpl in Hr, Ht. subst g0.
  destruct nt as [dest|]; [|discriminate].
  destruct (in_bounds _ (fst dest) (snd dest)) eqn:Hin; [|discriminate]. simpl.
  intros Hrun. exists dest. split; [|split].
  - set (g4 := hand_over from_sq dest _ _) in Hrun.
    assert (H4 : last_move g4 = Some (from_sq, dest)).
    { unfold g4.
      rewrite (hand_over_obs last_move) by reflexivity.
      rewrite (post_move_script_obs last_move) by reflexivity.
      reflexivity. }
    pose proof (check_edge_triggers_obs last_move
                  ltac:(reflexivity) ltac:(reflexivity) ltac:(reflexivity)
                  ltac:(reflexivity) ltac:(reflexivity) ltac:(reflexivity)
                  ltac:(reflexivity) ltac:(reflexivity)
                  piece dest g4 _ H4) as H5.
    destruct (check_edge_triggers piece dest g4) as [[] g5|e g5|];
      simpl in Hrun, H5; [|discriminate..].
    injection Hrun as <-.
    rewrite (update_game_over_obs last_move) by reflexivity.
    rewrite (apply_chunk_entry_exit_obs last_move) by reflexivity.
    exact H5.
  - destruct (Ht dest eq_refl) as [->|Hd]; [exact Hleg|exact Hd].
  - exact Hin.
Qed.

(** ** Counting pieces *)

Lemma tally_step {C : Type} (cls : C -> option bool) (acc : Z * Z) (c : C) :
  fst (tally cls acc c)
  = fst acc + (if bool_decide (cls c = Some true) then 1 else 0)
  ∧ snd (tally cls acc c)
    = snd acc + (if bool_decide (cls c = Some false) then 1 else 0).
Proof.
  unfold tally. destruct (cls c) as [[]|]; simpl; split;
    repeat case_bool_decide; simplify_eq; lia.
Qed.

Lemma tally_mono {C : Type} (cls : C -> option bool) (l : list C) (acc : Z * Z) :
  fst acc ≤ fst (foldl (tally cls) acc l)
  ∧ snd acc ≤ snd (foldl (tally cls) acc l).
Proof.
  revert acc. induction l as [|c l IH]; intros acc; [simpl; lia|].
  simpl. destruct (IH (tally cls acc c)) as [H1 H2].
  destruct (tally_step cls acc c) as [E1 E2].
  repeat case_bool_decide; lia.
Qed.

Lemma tally_first_zero {C : Type} (cls : C -> option bool) (l : list C)
    (acc : Z * Z) :
  fst (foldl (tally cls) acc l) = fst acc ↔ ∀ c, c ∈ l -> cls c ≠ Some true.
Proof.
  revert acc. induction l as [|c l IH]; intros acc.
  - simpl. split; [|done]. intros _ c Hc. by apply elem_of_nil in Hc.
  - simpl. pose proof (tally_mono cls l (tally cls acc c)) as [Hm _].
    destruct (tally_step cls acc c) as [E1 _].
    specialize (IH (tally cls acc c)). split.
    + intros Hf c' Hc'. apply elem_of_cons in Hc' as [->|Hc'].
      * intros Hc. rewrite bool_decide_eq_true_2 in E1 by done. lia.
      * apply IH; [|done]. case_bool_decide; lia.
    + intros Hall.
      assert (Hc : cls c ≠ Some true) by (apply Hall, elem_of_cons; by left).
      assert (Hl : ∀ c', c' ∈ l -> cls c' ≠ Some true)
        by (intros c' Hc'; apply Hall, elem_of_cons; by right).
      apply IH in Hl. rewrite Hl, E1.
      rewrite bool_decide_eq_false_2 by done. lia.
Qed.

Lemma tally_second_zero {C : Type} (cls : C -> option bool) (l : list C)
    (acc : Z * Z) :
  snd (foldl (tally cls) acc l) = snd acc ↔ ∀ c, c ∈ l -> cls c ≠ Some false.
Proof.
  revert acc. induction l as [|c l IH]; intros acc.
  - simpl. split; [|done]. intros _ c Hc. by apply elem_of_nil in Hc.
  - simpl. pose proof (tally_mono cls l (tally cls acc c)) as [_ Hm].
    destruct (tally_step cls acc c) as [_ E1].
    specialize (IH (tally cls acc c)). split.
    + intros Hf c' Hc'. apply elem_of_cons in Hc' as [->|Hc'].
      * intros Hc. rewrite bool_decide_eq_true_2 in E1 by done. lia.
      * apply IH; [|done]. case_bool_decide; lia.
    + intros Hall.
      assert (Hc : cls c ≠ Some false) by (apply Hall, elem_of_cons; by left).
      assert (Hl : ∀ c', c' ∈ l -> cls c' ≠ Some false)
        by (intros c' Hc'; apply Hall, elem_of_cons; by right).
      apply IH in Hl. rewrite Hl, E1.
      rewrite bool_decide_eq_false_2 by done. lia.
Qed.

Lemma foldl_ext_all {A B : Type} (f f' : A -> B -> A) (l : list B) (a : A) :
  (∀ a b, f a b = f' a b) -> foldl f a l = foldl f' a l.
Proof.
  intros H. revert a. induction l as [|b l IH]; intros a; [done|].
  simpl. by rewrite H, IH.
Qed.

Lemma count_pieces_tally (g : Game) :
  count_pieces g = foldl (tally (side_of g)) (0, 0) (grid_cells g).
Proof.
  unfold count_pieces. apply foldl_ext_all. intros acc c.
  unfold tally, side_of. destruct (board g !! c) as [p|]; [|done].
  by destruct (String.eqb (color p) "white").
Qed.

Lemma count_royals_tally (g : Game) :
  count_royals g = foldl (tally (royal_side_of g)) (0, 0) (grid_cells g).
Proof.
  unfold count_royals. apply foldl_ext_all. intros acc c.
  unfold tally, royal_side_of. destruct (board g !! c) as [p|]; [|done].
  destruct (dict_get _ _) as [pt|]; [|done].
  destruct (is_royal pt); [|done]. simpl.
  by destruct (String.eqb (color p) "white").
Qed.

(** The two counts are zero exactly when no square of the grid counts for
    that side. *)
Lemma tally_grid_zero (cls : Square -> option bool) (g : Game) :
  (fst (foldl (tally cls) (0, 0) (grid_cells g)) = 0
   ↔ ∀ sq : Square, in_bounds g (fst sq) (snd sq) = true -> cls sq ≠ Some true)
  ∧ (snd (foldl (tally cls) (0, 0) (grid_cells g)) = 0
     ↔ ∀ sq : Square, in_bounds g (fst sq) (snd sq) = true ->
                      cls sq ≠ Some false).
Proof.
  split.
  - rewrite (tally_first_zero cls (grid_cells g) (0, 0)).
    split; intros H sq Hsq; apply H; by apply elem_of_grid_cells.
  - rewrite (tally_second_zero cls (grid_cells g) (0, 0)).
    split; intros H sq Hsq; apply H; by apply elem_of_grid_cells.
Qed.

Lemma decide_by_counts_cases (w b : Z) (both wl bl : string * string * string)
    (g : Game) :
  decide_by_counts w b both wl bl g
  = if bool_decide (w = 0) then
      if bool_decide (b = 0)
      then Some (set_result (fst (fst both)) (snd (fst both)) (snd both) g)
      else Some (set_result (fst (fst wl)) (snd (fst wl)) (snd wl) g)
    else if bool_decide (b = 0)
      then Some (set_result (fst (fst bl)) (snd (fst bl)) (snd bl) g)
      else None.
Proof.
  unfold decide_by_counts.
  destruct (Z.eqb_spec w 0), (Z.eqb_spec b 0); simpl;
    repeat case_bool_decide; done.
Qed.

(** X16.  The verdict of an elimination game. *)
Theorem elimination_verdict (g : Game) (now : Z) :
  game_over g = false ->
  victory (rules g) = "elimination" ->
  let white_left :=
    ∃ sq : Square, in_bounds g (fst sq) (snd sq) = true
                   ∧ side_of g sq = Some true in
  let black_left :=
    ∃ sq : Square, in_bounds g (fst sq) (snd sq) = true
                   ∧ side_of g sq = Some false in
  (¬ white_left -> ¬ black_left ->
   update_game_over now g
   = set_result "½–½ (Mutual destruction)" "1/2-1/2" "MUTUAL_DESTRUCTION" g)
  ∧ (¬ white_left -> black_left ->
     update_game_over now g
     = set_result "0–1 (White eliminated)" "0-1" "WHITE_ELIMINATED" g)
  ∧ (white_left -> ¬ black_left ->
     update_game_over now g
     = set_result "1–0 (Black eliminated)" "1-0" "BLACK_ELIMINATED" g)
  ∧ (white_left -> black_left ->
     update_game_over now g = check_limits_game_over now g).
Proof.
  intros Hgo Hv white_left black_left.
  unfold update_game_over. rewrite Hgo, Hv.
  change (String.eqb "elimination" "king_capture") with false.
  change (String.eqb "elimination" "elimination") with true. cbv iota.
  rewrite count_pieces_tally.
  destruct (tally_grid_zero (side_of g) g) as [Hw Hb].
  destruct (foldl (tally (side_of g)) (0, 0) (grid_cells g)) as [w b].
  simpl in Hw, Hb. rewrite decide_by_counts_cases.
  assert (Hwl : w = 0 ↔ ¬ white_left).
  { rewrite Hw. unfold white_left. split.
    - intros H (sq & Hin & Hs). by apply (H sq Hin).
    - intros H sq Hin Hs. apply H. by exists sq. }
  assert (Hbl : b = 0 ↔ ¬ black_left).
  { rewrite Hb. unfold black_left. split.
    - intros H (sq & Hin & Hs). by apply (H sq Hin).
    - intros H sq Hin Hs. apply H. by exists sq. }
  repeat split; intros H1 H2; repeat case_bool_decide; try reflexivity;
    tauto.
Qed.

(** X17.  The verdict of a king-capture game. *)
Theorem king_capture_verdict (g : Game) (now : Z) :
  game_over g = false ->
  victory (rules g) = "king_capture" ->
  let white_left :=
    ∃ sq : Square, in_bounds g (fst sq) (snd sq) = true
                   ∧ royal_side_of g sq = Some true in
  let black_left :=
    ∃ sq : Square, in_bounds g (fst sq) (snd sq) = true
                   ∧ royal_side_of g sq = Some false in
  (¬ white_left -> ¬ black_left ->
   update_game_over now g
   = set_result "½–½ (No royals left)" "1/2-1/2" "NO_ROYALS" g)
  ∧ (¬ white_left -> black_left ->
     update_game_over now g
     = set_result "0–1 (White royal lost)" "0-1" "WHITE_ROYAL_LOST" g)
  ∧ (white_left -> ¬ black_left ->
     update_game_over now g
     = set_result "1–0 (Black royal lost)" "1-0" "BLACK_ROYAL_LOST" g)
  ∧ (white_left -> black_left ->
     update_game_over now g = check_limits_game_over now g).
Proof.
  intros Hgo Hv white_left black_left.
  unfold update_game_over. rewrite Hgo, Hv.
  change (String.eqb "king_capture" "king_capture") with true.
  change (String.eqb "king_capture" "elimination") with false. cbv iota.
  rewrite count_royals_tally.
  destruct (tally_grid_zero (royal_side_of g) g) as [Hw Hb].
  destruct (foldl (tally (royal_side_of g)) (0, 0) (grid_cells g)) as [w b].
  simpl in Hw, Hb. rewrite decide_by_counts_cases.
  assert (Hwl : w = 0 ↔ ¬ white_left).
  { rewrite Hw. unfold white_left. split.
    - intros H (sq & Hin & Hs). by apply (H sq Hin).
    - intros H sq Hin Hs. apply H. by exists sq. }
  assert (Hbl : b = 0 ↔ ¬ black_left).
  { rewrite Hb. unfold black_left. split.
    - intros H (sq & Hin & Hs). by apply (H sq Hin).
    - intros H sq Hin Hs. apply H. by exists sq. }
  repeat split; intros H1 H2; repeat case_bool_decide; try reflexivity;
    tauto.
Qed.

(** X19.  A pixel is mapped to a square only when that square is on the board
    and the pixel lies inside the box in which the square is drawn. *)
Theorem screen_to_square_sound (px py sq_size r c x y : Z) :
  screen_to_square px py sq_size r c = Some (x, y) ->
  0 < sq_size
  ∧ 0 ≤ x < c ∧ 0 ≤ y < r
  ∧ fst (square_to_screen x y sq_size r) ≤ px
    < fst (square_to_screen x y sq_size r) + sq_size
  ∧ snd (square_to_screen x y sq_size r) ≤ py
    < snd (square_to_screen x y sq_size r) + sq_size.
Proof.
  unfold screen_to_square, square_to_screen. cbv zeta.
  destruct (Z.ltb_spec px 0); [discriminate|].
  destruct (Z.ltb_spec py 0); [discriminate|]. simpl.
  destruct (Z.leb_spec (c * sq_size) px); [discriminate|].
  destruct (Z.leb_spec (r * sq_size) py); [discriminate|]. simpl.
  destruct (Z.leb_spec 0 (px / sq_size)); [|discriminate].
  destruct (Z.ltb_spec (px / sq_size) c); [|discriminate].
  destruct (Z.leb_spec 0 (r - 1 - py / sq_size)); [|discriminate].
  destruct (Z.ltb_spec (r - 1 - py / sq_size) r); [|discriminate]. simpl.
  intros [= <- <-].
  assert (Hs : 0 < sq_size) by nia.
  pose proof (Z.mul_div_le px sq_size Hs).
  pose proof (Z.mul_succ_div_gt px sq_size Hs).
  pose proof (Z.mul_div_le py sq_size Hs).
  pose proof (Z.mul_succ_div_gt py sq_size Hs).
  simpl. repeat split; try lia; nia.
Qed.

(** X20.  Every pixel of the box in which a square of the board is drawn is
    mapped back to that square. *)
Theorem screen_to_square_round_trip (x y sq_size r c dx dy : Z) :
  0 < sq_size -> 0 ≤ x < c -> 0 ≤ y < r ->
  0 ≤ dx < sq_size -> 0 ≤ dy < sq_size ->
  screen_to_square (fst (square_to_screen x y sq_size r) + dx)
                   (snd (square_to_screen x y sq_size r) + dy) sq_size r c
  = Some (x, y).
Proof.
  intros Hs Hx Hy Hdx Hdy. unfold screen_to_square, square_to_screen.
  cbv zeta. simpl.
  assert (Ex : (x * sq_size + dx) / sq_size = x).
  { rewrite Z.add_comm, Z.div_add by lia. rewrite Z.div_small by lia. lia. }
  assert (Ey : ((r - 1 - y) * sq_size + dy) / sq_size = r - 1 - y).
  { rewrite Z.add_comm, Z.div_add by lia. rewrite Z.div_small by lia. lia. }
  rewrite Ex, Ey.
  destruct (Z.ltb_spec (x * sq_size + dx) 0); [nia|].
  destruct (Z.ltb_spec ((r - 1 - y) * sq_size + dy) 0); [nia|]. simpl.
  destruct (Z.leb_spec (c * sq_size) (x * sq_size + dx)); [nia|].
  destruct (Z.leb_spec (r * sq_size) ((r - 1 - y) * sq_size + dy)); [nia|].
  simpl.
  destruct (Z.leb_spec 0 x); [|lia].
  destruct (Z.ltb_spec x c); [|lia].
  destruct (Z.leb_spec 0 (r - 1 - (r - 1 - y))); [|lia].
  destruct (Z.ltb_spec (r - 1 - (r - 1 - y)) r); [|lia]. simpl.
  f_equal. f_equal. lia.
Qed.

(** X21.  Explosions are only ever dropped by the animation step, in order, and
    exactly those older than the duration; a step at a later time makes an
    earlier one redundant. *)
Theorem update_and_draw_expires (g : Game) (now later : Z) (e : Explosion) :
  (e ∈ explosions (update_and_draw now g)
   ↔ e ∈ explosions g ∧ now - ex_start_ms e ≤ duration_ms)
  ∧ explosions (update_and_draw now g) `sublist_of` explosions g
  ∧ (now ≤ later ->
     update_and_draw later (update_and_draw now g) = update_and_draw later g).
Proof.
  split; [|split].
  - unfold update_and_draw. simpl. rewrite list_elem_of_filter.
    split; intros [H1 H2]; split; try done; lia.
  - apply sublist_filter.
  - intros Hle.
    assert (Hl : ∀ l : list Explosion,
              filter (fun e => ¬ duration_ms < later - ex_start_ms e)
                (filter (fun e => ¬ duration_ms < now - ex_start_ms e) l)
              = filter (fun e => ¬ duration_ms < later - ex_start_ms e) l).
    { induction l as [|a l IH]; [done|].
      rewrite !filter_cons.
      destruct (decide (¬ duration_ms < now - ex_start_ms a)).
      - rewrite filter_cons. destruct (decide _); by rewrite IH.
      - rewrite IH. destruct (decide _); [lia|done]. }
    unfold update_and_draw. simpl. by rewrite Hl.
Qed.

Lemma next_random_draws (g : Game) :
  ∃ r, snd (next_random g) = set_random_draws r g.
Proof.
  unfold next_random. destruct (random_draws g) eqn:E; [|simpl; eauto].
  exists []. simpl. destruct g. simpl in *. by subst.
Qed.

Lemma random_randint_range (a b : Z) (g : Game) (w : Z) (g' : Game) :
  random_randint a b g = Done w g' ->
  a ≤ w ≤ b ∧ ∃ r, g' = set_random_draws r g.
Proof.
  unfold random_randint. destruct (Z.ltb_spec b a); [discriminate|].
  destruct (next_random_draws g) as [r Hr].
  destruct (next_random g) as [q g1]. simpl in Hr. intros [= <- <-].
  split; [|by exists r]. unfold draw_index. lia.
Qed.

Lemma random_randint_raises (a b : Z) (g : Game) :
  b < a -> random_randint a b g = Raised ValueError g.
Proof.
  intros H. unfold random_randint. by destruct (Z.ltb_spec b a); [|lia].
Qed.

Lemma random_randint_returns (a b : Z) (g : Game) :
  a ≤ b -> ∃ w g', random_randint a b g = Done w g'.
Proof.
  intros H. unfold random_randint. destruct (Z.ltb_spec b a); [lia|].
  destruct (next_random g). eauto.
Qed.

(** X22.  A random zone is a rectangle of the board attached to an edge that is
    nearest to the piece and spanning the piece along that edge. *)
Theorem spawned_chunk_is_on_the_board
    (pos : Square) (d minw maxw minh maxh : Z) (g g' : Game) :
  in_bounds g (fst pos) (snd pos) = true ->
  let mind :=
    Z.min (Z.min (fst pos) (cols g - 1 - fst pos))
          (Z.min (snd pos) (rows g - 1 - snd pos)) in
  mind ≤ d ->
  spawn_random_chunk_near_edge pos d minw maxw minh maxh g = Done tt g' ->
  ∃ x1 y1 x2 y2 : Z,
    chunks g'
    = dict_set (rand_chunk_name (rand_chunk_counter g))
        {| rect := (x1, y1, x2, y2); fill := None; active := true;
           owner := "any"; enter_script := None; leave_script := None |}
        (chunks g)
    ∧ rand_chunk_counter g' = rand_chunk_counter g + 1
    ∧ board g' = board g ∧ damaged g' = damaged g
    ∧ 0 ≤ x1 ≤ x2 ∧ x2 < cols g ∧ 0 ≤ y1 ≤ y2 ∧ y2 < rows g
    ∧ x2 - x1 + 1 ≤ Z.max (Z.max 1 minw) maxw
    ∧ y2 - y1 + 1 ≤ Z.max (Z.max 1 minh) maxh
    ∧ ((x1 = 0 ∧ fst pos = mind ∧ y1 ≤ snd pos ≤ y2)
       ∨ (x2 = cols g - 1 ∧ cols g - 1 - fst pos = mind ∧ y1 ≤ snd pos ≤ y2)
       ∨ (y1 = 0 ∧ snd pos = mind ∧ x1 ≤ fst pos ≤ x2)
       ∨ (y2 = rows g - 1 ∧ rows g - 1 - snd pos = mind
          ∧ x1 ≤ fst pos ≤ x2)).
Proof.
  destruct pos as [x y]. simpl fst. simpl snd. intros Hin mind Hd.
  apply in_bounds_spec in Hin as [Hx Hy].
  unfold spawn_random_chunk_near_edge. cbv zeta. fold mind.
  destruct (Z.ltb_spec d mind); [lia|].
  set (dists := [("left", x); ("right", cols g - 1 - x); ("bottom", y);
                 ("top", rows g - 1 - y)]).
  set (nearest := map fst (filter (fun ed : string * Z => snd ed = mind) dists)).
  assert (Hne : nearest ≠ []).
  { unfold nearest, dists. rewrite !filter_cons. simpl.
    repeat case_decide; simpl; try discriminate. unfold mind in *. lia. }
  pose proof (random_choice_elem nearest "left" g Hne) as Hedge.
  assert (Hg1 : ∃ r, snd (random_choice nearest "left" g) = set_random_draws r g).
  { unfold random_choice. destruct (next_random_draws g) as [r Hr].
    destruct (next_random g). simpl in *. eauto. }
  destruct (random_choice nearest "left" g) as [edge g1].
  simpl in Hedge, Hg1. destruct Hg1 as [r1 ->].
  assert (Hcases : (edge = "left" ∧ x = mind)
                   ∨ (edge = "right" ∧ cols g - 1 - x = mind)
                   ∨ (edge = "bottom" ∧ y = mind)
                   ∨ (edge = "top" ∧ rows g - 1 - y = mind)).
  { unfold nearest in Hedge. apply list_elem_of_fmap in Hedge as ([e v] & -> & He).
    apply list_elem_of_filter in He as [Hv He]. simpl in Hv. unfold dists in He.
    repeat (apply elem_of_cons in He as [He|He]; [injection He as -> ->; tauto|]).
    by apply elem_of_nil in He. }
  clear Hedge Hne nearest dists.
  change (cols (set_random_draws r1 g)) with (cols g).
  destruct (random_randint _ _ (set_random_draws r1 g)) as [w g2|e g2|] eqn:Hw;
    [|discriminate..].
  apply random_randint_range in Hw as [Hw [r2 ->]]. simpl.
  destruct (random_randint _ _ (set_random_draws r2 _)) as [h g3|e g3|] eqn:Hh;
    [|discriminate..].
  apply random_randint_range in Hh as [Hh [r3 ->]]. simpl in Hh |- *.
  assert (Hw' : 1 ≤ w ≤ cols g ∧ w ≤ Z.max (Z.max 1 minw) maxw)
    by (clear -Hw; lia).
  assert (Hh' : 1 ≤ h ≤ rows g ∧ h ≤ Z.max (Z.max 1 minh) maxh)
    by (clear -Hh; lia).
  clear Hw Hh. revert Hw' Hh'.
  generalize (Z.max (Z.max 1 minw) maxw) (Z.max (Z.max 1 minh) maxh).
  intros Wmax Hmax [Hw HW] [Hh HH].
  pose proof (Z.mul_div_le h 2 ltac:(lia)) as Hh1.
  pose proof (Z.mul_succ_div_gt h 2 ltac:(lia)) as Hh2.
  pose proof (Z.mul_div_le w 2 ltac:(lia)) as Hw1.
  pose proof (Z.mul_succ_div_gt w 2 ltac:(lia)) as Hw2.
  revert Hh1 Hh2 Hw1 Hw2. generalize (h / 2) (w / 2). intros hh ww ? ? ? ?.
  clearbody mind.
  destruct Hcases as [[-> Hm]|[[-> Hm]|[[-> Hm]|[-> Hm]]]];
    simpl; intros [= <-]; simpl;
    eexists _, _, _, _; (split; [reflexivity|]);
    (split; [reflexivity|]); (split; [reflexivity|]); (split; [reflexivity|]);
    (split; [lia|]); (split; [lia|]); (split; [lia|]); (split; [lia|]);
    (split; [lia|]); (split; [lia|]).
  - left. split; [done|]. split; [done|]. lia.
  - right; left. split; [done|]. split; [done|]. lia.
  - right; right; left. split; [done|]. split; [done|]. lia.
  - right; right; right. split; [done|]. split; [done|]. lia.
Qed.

(** X23.  Once triggered, the spawn returns exactly when the smallest allowed
    width and height fit the board; otherwise [random.randint] is called on
    an empty range and its [ValueError] leaves the zones as they were. *)
Theorem spawn_returns_iff_sizes_fit
    (pos : Square) (d minw maxw minh maxh : Z) (g : Game) :
  Z.min (Z.min (fst pos) (cols g - 1 - fst pos))
        (Z.min (snd pos) (rows g - 1 - snd pos)) ≤ d ->
  (Z.max 1 minw ≤ cols g ∧ Z.max 1 minh ≤ rows g ->
   ∃ g', spawn_random_chunk_near_edge pos d minw maxw minh maxh g = Done tt g')
  ∧ (cols g < Z.max 1 minw ∨ rows g < Z.max 1 minh ->
     ∃ g', spawn_random_chunk_near_edge pos d minw maxw minh maxh g
           = Raised ValueError g'
           ∧ chunks g' = chunks g
           ∧ rand_chunk_counter g' = rand_chunk_counter g).
Proof.
  destruct pos as [x y]. simpl fst. simpl snd. intros Hd.
  unfold spawn_random_chunk_near_edge. cbv zeta.
  destruct (Z.ltb_spec d (Z.min (Z.min x (cols g - 1 - x))
                                (Z.min y (rows g - 1 - y)))); [lia|].
  clear Hd H.
  match goal with
  | |- context [random_choice ?l ?dflt g] =>
      assert (Hg1 : ∃ r, snd (random_choice l dflt g) = set_random_draws r g);
      [unfold random_choice; destruct (next_random_draws g) as [r Hr];
       destruct (next_random g); simpl in *; eauto|];
      destruct (random_choice l dflt g) as [edge g1]
  end.
  simpl in Hg1. destruct Hg1 as [r1 ->].
  change (cols (set_random_draws r1 g)) with (cols g).
  split.
  - intros [Hw Hh].
    destruct (random_randint_returns (Z.max 1 minw)
                (Z.min (Z.max (Z.max 1 minw) maxw) (cols g))
                (set_random_draws r1 g) ltac:(lia)) as (w & g2 & Ew).
    rewrite Ew. simpl.
    apply random_randint_range in Ew as [_ [r2 ->]].
    change (rows (set_random_draws r2 (set_random_draws r1 g))) with (rows g).
    destruct (random_randint_returns (Z.max 1 minh)
                (Z.min (Z.max (Z.max 1 minh) maxh) (rows g))
                (set_random_draws r2 (set_random_draws r1 g)) ltac:(lia))
      as (h & g3 & Eh).
    rewrite Eh. simpl. repeat case_match; eauto.
  - intros Hbad.
    destruct (Z.le_gt_cases (Z.max 1 minw) (cols g)) as [Hfit|Hwide].
    + destruct (random_randint_returns (Z.max 1 minw)
                  (Z.min (Z.max (Z.max 1 minw) maxw) (cols g))
                  (set_random_draws r1 g) ltac:(lia)) as (w & g2 & Ew).
      rewrite Ew. simpl.
      apply random_randint_range in Ew as [_ [r2 ->]].
      change (rows (set_random_draws r2 (set_random_draws r1 g)))
        with (rows g).
      rewrite random_randint_raises by lia.
      simpl. eexists. split; [reflexivity|]. done.
    + rewrite random_randint_raises by lia.
      simpl. eexists. split; [reflexivity|]. done.
Qed.

(** ** The shape of the generated moves *)

Lemma range_nil (a b : Z) : b ≤ a -> range a b = [].
Proof.
  intros H. unfold range. replace (Z.to_nat (b - a)) with 0%nat by lia. done.
Qed.

Lemma range_cons (a b : Z) : a < b -> range a b = a :: range (a + 1) b.
Proof.
  intros H. unfold range.
  replace (Z.to_nat (b - a)) with (S (Z.to_nat (b - (a + 1)))) by lia.
  cbn [seq map]. f_equal; [lia|].
  rewrite <- seq_shift, map_map. apply map_ext. intros i. lia.
Qed.

Lemma is_none_spec {A : Type} (o : option A) : is_none o = true ↔ o = None.
Proof. destruct o; simpl; split; congruence. Qed.

Lemma slide_spec (g : Game) (piece : Piece) (ptype : PieceType)
    (x y dx dy : Z) (sq : Square) (n : nat) :
  ∀ a : Z,
    sq ∈ slide g piece ptype x y dx dy (range a (a + Z.of_nat n))
    ↔ ∃ k : Z,
        a ≤ k < a + Z.of_nat n
        ∧ sq = (x + dx * k, y + dy * k)
        ∧ dest_ok g piece ptype sq
        ∧ ∀ j : Z, a ≤ j < k -> passable g ptype (x + dx * j, y + dy * j).
Proof.
  induction n as [|n IH]; intros a.
  - rewrite range_nil by lia. simpl. split.
    + intros H. by apply elem_of_nil in H.
    + intros (k & Hk & _). lia.
  - rewrite range_cons by lia.
    replace (a + Z.of_nat (S n)) with (a + 1 + Z.of_nat n) by lia.
    cbn [slide]. specialize (IH (a + 1)).
    set (nx := x + dx * a). set (ny := y + dy * a).
    destruct (in_bounds g nx ny) eqn:Hin; simpl.
    2:{ split; [intros H; by apply elem_of_nil in H|].
        intros (k & Hk & -> & Hd & Hpath).
        destruct (decide (k = a)) as [->|Hne].
        - destruct Hd as (Hd & _). simpl in Hd. fold nx ny in Hd. congruence.
        - destruct (Hpath a ltac:(lia)) as (Hp & _). simpl in Hp.
          fold nx ny in Hp. congruence. }
    destruct (square_blocked_by_damage g nx ny (Some ptype)) eqn:Hbl.
    { split; [intros H; by apply elem_of_nil in H|].
      intros (k & Hk & -> & Hd & Hpath).
      destruct (decide (k = a)) as [->|Hne].
      - destruct Hd as (_ & Hd & _). simpl in Hd. fold nx ny in Hd. congruence.
      - destruct (Hpath a ltac:(lia)) as (_ & Hp & _). simpl in Hp.
        fold nx ny in Hp. congruence. }
    destruct (board g !! (nx, ny)) as [target|] eqn:Hb.
    + destruct (String.eqb_spec (color target) (color piece)) as [Hc|Hc]; simpl.
      * split; [intros H; by apply elem_of_nil in H|].
        intros (k & Hk & -> & Hd & Hpath).
        destruct (decide (k = a)) as [->|Hne].
        -- unfold nx, ny in *.
           destruct Hd as (_ & _ & [Hd|(t & Hd & Ht)]);
             pose proof (eq_trans (eq_sym Hb) Hd) as E; simplify_eq.
        -- destruct (Hpath a ltac:(lia)) as (_ & _ & Hp).
           pose proof (eq_trans (eq_sym Hb) Hp) as E. simplify_eq.
      * rewrite list_elem_of_singleton. split.
        -- intros ->. exists a. split; [lia|]. split; [done|]. split.
           ++ repeat split; try done. right. by exists target.
           ++ intros j Hj. lia.
        -- intros (k & Hk & -> & Hd & Hpath).
           destruct (decide (k = a)) as [->|Hne]; [done|].
           destruct (Hpath a ltac:(lia)) as (_ & _ & Hp).
           pose proof (eq_trans (eq_sym Hb) Hp) as E. simplify_eq.
    + rewrite elem_of_cons, IH. split.
      * intros [->|(k & Hk & -> & Hd & Hpath)].
        -- exists a. split; [lia|]. split; [done|]. split.
           ++ repeat split; try done. by left.
           ++ intros j Hj. lia.
        -- exists k. split; [lia|]. split; [done|]. split; [done|].
           intros j Hj. destruct (decide (j = a)) as [->|Hne].
           ++ repeat split; done.
           ++ apply Hpath. lia.
      * intros (k & Hk & -> & Hd & Hpath).
        destruct (decide (k = a)) as [->|Hne]; [by left|].
        right. exists k. split; [lia|]. split; [done|]. split; [done|].
        intros j Hj. apply Hpath. lia.
Qed.

(** X24.  A slider reaches exactly the squares that lie at most [reach] steps
    away along one of its directions, are legal destinations, and have only
    passable squares before them: sliders never jump. *)
Theorem slider_moves_characterised
    (g : Game) (piece : Piece) (ptype : PieceType) (x y : Z) (sq : Square) :
  sq ∈ slider_moves g piece ptype x y
  ↔ ∃ (d : Z * Z) (k : Z),
      d ∈ directions ptype
      ∧ 1 ≤ k ≤ reach g piece ptype
      ∧ sq = (x + fst d * k, y + snd d * k)
      ∧ dest_ok g piece ptype sq
      ∧ ∀ j : Z, 1 ≤ j < k ->
                 passable g ptype (x + fst d * j, y + snd d * j).
Proof.
  unfold slider_moves.
  assert (Hreach : (match max_range ptype with
                    | Some _ =>
                        match max_range ptype with
                        | Some r => r
                        | None => Z.max (cols g) (rows g)
                        end + default 0 (range_bonus (state piece))
                    | None =>
                        match max_range ptype with
                        | Some r => r
                        | None => Z.max (cols g) (rows g)
                        end
                    end) = reach g piece ptype).
  { unfold reach. by destruct (max_range ptype). }
  cbv zeta. rewrite Hreach.
  destruct (directions ptype) as [|d0 ds] eqn:Hdirs; simpl nonempty; cbv iota.
  { split; [intros H; by apply elem_of_nil in H|].
    intros (d & k & Hd & _). by apply elem_of_nil in Hd. }
  rewrite <- Hdirs. clear Hdirs.
  rewrite list_elem_of_In, in_flat_map. split.
  - intros (d & Hd & Hsq). apply list_elem_of_In in Hd, Hsq.
    destruct (Z.le_gt_cases 1 (reach g piece ptype)) as [Hr|Hr].
    + replace (reach g piece ptype + 1)
        with (1 + Z.of_nat (Z.to_nat (reach g piece ptype))) in Hsq by lia.
      apply slide_spec in Hsq as (k & Hk & -> & Hok & Hpath).
      exists d, k. split; [done|]. split; [lia|]. split; [done|].
      split; [done|]. intros j Hj. apply Hpath. lia.
    + rewrite range_nil in Hsq by lia. by apply elem_of_nil in Hsq.
  - intros (d & k & Hd & Hk & -> & Hok & Hpath).
    exists d. split; [by apply list_elem_of_In|]. apply list_elem_of_In.
    replace (reach g piece ptype + 1)
      with (1 + Z.of_nat (Z.to_nat (reach g piece ptype))) by lia.
    apply slide_spec. exists k. split; [lia|]. split; [done|].
    split; [done|]. intros j Hj. apply Hpath. lia.
Qed.

(** X25.  A leaper reaches exactly the legal destinations one offset away. *)
Theorem leaper_moves_characterised
    (g : Game) (piece : Piece) (ptype : PieceType) (x y : Z) (sq : Square) :
  sq ∈ leaper_moves g piece ptype x y
  ↔ ∃ d : Z * Z,
      d ∈ directions ptype
      ∧ sq = (x + fst d, y + snd d)
      ∧ dest_ok g piece ptype sq.
Proof.
  unfold leaper_moves. rewrite list_elem_of_In, in_flat_map. split.
  - intros (d & Hd & Hsq). apply list_elem_of_In in Hd, Hsq.
    exists d. split; [done|].
    destruct (in_bounds g _ _) eqn:Hin; simpl in Hsq;
      [|by apply elem_of_nil in Hsq].
    destruct (square_blocked_by_damage _ _ _ _) eqn:Hbl;
      [by apply elem_of_nil in Hsq|].
    destruct (board g !! _) as [target|] eqn:Hb.
    + destruct (String.eqb_spec (color target) (color piece)); simpl in Hsq;
        [by apply elem_of_nil in Hsq|].
      apply list_elem_of_singleton in Hsq as ->.
      repeat split; try done. right. by exists target.
    + apply list_elem_of_singleton in Hsq as ->.
      repeat split; try done. by left.
  - intros (d & Hd & -> & Hin & Hbl & Hb). simpl in Hin, Hbl.
    exists d. split; [by apply list_elem_of_In|]. apply list_elem_of_In.
    rewrite Hin, Hbl. simpl.
    destruct (board g !! (x + fst d, y + snd d)) as [t|] eqn:Hb';
      [|by apply list_elem_of_singleton].
    destruct Hb as [Hb|(target & Hb & Hc)];
      pose proof (eq_trans (eq_sym Hb') Hb) as E; simplify_eq.
    destruct (String.eqb_spec (color target) (color piece)); [done|].
    simpl. by apply list_elem_of_singleton.
Qed.

(** X26.  A pawn moves one square forward onto a passable square, two from its
    start rank over two passable squares, or one square diagonally forward
    onto a piece of another colour; forward is up for white and down for
    every other colour. *)
Theorem pawn_moves_characterised
    (g : Game) (piece : Piece) (ptype : PieceType) (x y : Z) (sq : Square) :
  let dir_y := if String.eqb (color piece) "white" then 1 else -1 in
  let start_rank :=
    if String.eqb (color piece) "white" then 1 else rows g - 2 in
  sq ∈ pawn_moves g piece ptype x y
  ↔ (sq = (x, y + dir_y) ∧ passable g ptype sq)
    ∨ (sq = (x, y + 2 * dir_y) ∧ y = start_rank
       ∧ passable g ptype (x, y + dir_y) ∧ passable g ptype sq)
    ∨ (∃ dx target,
         (dx = -1 ∨ dx = 1)
         ∧ sq = (x + dx, y + dir_y)
         ∧ in_bounds g (fst sq) (snd sq) = true
         ∧ square_blocked_by_damage g (fst sq) (snd sq) (Some ptype) = false
         ∧ board g !! sq = Some target
         ∧ color target ≠ color piece).
Proof.
  intros dir_y start_rank. unfold pawn_moves. fold dir_y start_rank.
  cbv zeta. rewrite elem_of_app.
  set (P1 := passable g ptype (x, y + dir_y)).
  set (P2 := passable g ptype (x, y + 2 * dir_y)).
  assert (H1 : in_bounds g x (y + dir_y) && is_none (board g !! (x, y + dir_y))
               && negb (square_blocked_by_damage g x (y + dir_y) (Some ptype))
               = true ↔ P1).
  { unfold P1, passable. simpl.
    rewrite !andb_true_iff, negb_true_iff, is_none_spec. tauto. }
  assert (H2 : (y =? start_rank) && in_bounds g x (y + 2 * dir_y)
               && is_none (board g !! (x, y + 2 * dir_y))
               && negb (square_blocked_by_damage g x (y + 2 * dir_y)
                          (Some ptype))
               = true ↔ y = start_rank ∧ P2).
  { unfold P2, passable. simpl.
    rewrite !andb_true_iff, negb_true_iff, is_none_spec, Z.eqb_eq. tauto. }
  assert (Hcap :
    ∀ dx, sq ∈ (if in_bounds g (x + dx) (y + dir_y)
                   && negb (square_blocked_by_damage g (x + dx) (y + dir_y)
                              (Some ptype))
                then match board g !! (x + dx, y + dir_y) with
                     | Some target =>
                         if negb (String.eqb (color target) (color piece))
                         then [(x + dx, y + dir_y)] else []
                     | None => []
                     end
                else [])
          ↔ ∃ target,
              sq = (x + dx, y + dir_y)
              ∧ in_bounds g (fst sq) (snd sq) = true
              ∧ square_blocked_by_damage g (fst sq) (snd sq) (Some ptype)
                = false
              ∧ board g !! sq = Some target
              ∧ color target ≠ color piece).
  { intros dx. split.
    - destruct (in_bounds g (x + dx) (y + dir_y)) eqn:Hin; simpl;
        [|intros H; by apply elem_of_nil in H].
      destruct (square_blocked_by_damage g (x + dx) _ _) eqn:Hbl; simpl;
        [intros H; by apply elem_of_nil in H|].
      destruct (board g !! (x + dx, y + dir_y)) as [target|] eqn:Hb;
        [|intros H; by apply elem_of_nil in H].
      destruct (String.eqb_spec (color target) (color piece)); simpl;
        [intros H; by apply elem_of_nil in H|].
      intros H. apply list_elem_of_singleton in H as ->. by exists target.
    - intros (target & -> & Hin & Hbl & Hb & Hc). simpl in Hin, Hbl.
      rewrite Hin, Hbl. simpl.
      destruct (board g !! (x + dx, y + dir_y)) as [t|] eqn:Hb';
        pose proof (eq_trans (eq_sym Hb') Hb) as E; simplify_eq.
      destruct (String.eqb_spec (color target) (color piece)); [done|].
      simpl. by apply list_elem_of_singleton. }
  split.
  - intros [Hf|Hc].
    + destruct (_ && _ && negb _) eqn:E1 in Hf; [|by apply elem_of_nil in Hf].
      apply H1 in E1. apply elem_of_cons in Hf as [->|Hf]; [by left|].
      destruct (_ && _ && _ && negb _) eqn:E2 in Hf;
        [|by apply elem_of_nil in Hf].
      apply H2 in E2 as [E2 E3].
      apply list_elem_of_singleton in Hf as ->. right; left. done.
    + right; right. simpl in Hc. rewrite app_nil_r in Hc.
      apply elem_of_app in Hc as [Hc|Hc]; apply Hcap in Hc as (t & Hc);
        [exists (-1), t|exists 1, t]; split; auto.
  - intros [[-> Hp]|[(-> & Hs & Hp1 & Hp2)|(dx & t & Hdx & Hc)]].
    + left. apply H1 in Hp. rewrite Hp. apply elem_of_cons. by left.
    + left. apply H1 in Hp1. rewrite Hp1.
      assert (E2 : y = start_rank ∧ P2) by done. apply H2 in E2.
      rewrite E2. apply elem_of_cons. right. by apply list_elem_of_singleton.
    + right. simpl. rewrite app_nil_r. apply elem_of_app.
      destruct Hdx as [->| ->]; [left|right]; apply Hcap; by exists t.
Qed.

(** X27.  A piece either leaps or slides, never both: the test that ends the
    leaper branch always holds when the branch was entered. *)
Theorem generate_moves_dispatch
    (g : Game) (x y : Z) (piece : Piece) (ptype : PieceType) :
  board g !! (x, y) = Some piece ->
  dict_get (type_name piece) (piece_types g) = Some ptype ->
  generate_moves_for_piece g x y
  = if String.eqb (kind ptype) "pawn" then pawn_moves g piece ptype x y
    else if leaps ptype then leaper_moves g piece ptype x y
    else slider_moves g piece ptype x y.
Proof.
  intros Hp Ht. unfold generate_moves_for_piece, leaps. rewrite Hp, Ht.
  destruct (String.eqb (kind ptype) "pawn"); [done|].
  destruct (String.eqb (kind ptype) "knight"); simpl; [done|].
  destruct (can_jump ptype); simpl; [|done].
  by destruct (nonempty (directions ptype)).
Qed.

Lemma reset_game_pieces (now : Z) (g : Game) :
  map_Forall
    (fun (sq : Square) (p : Piece) =>
       in_bounds (reset_game now g) (fst sq) (snd sq) = true
       ∧ type_name p ≠ ""
       ∧ dict_mem (type_name p) (piece_types (reset_game now g)) = true)
    (board (reset_game now g)).
Proof. eapply bool_decide_unpack. vm_compute. exact I. Qed.

(** X4.  [reset_game] puts the engine in a well-formed state whatever state it
    was in, also after a load that was aborted midway. *)
Theorem reset_game_is_well_formed (now : Z) (g : Game) :
  wf_game (reset_game now g).
Proof.
  assert (Hc : cols (reset_game now g) = 8) by reflexivity.
  assert (Hr : rows (reset_game now g) = 8) by reflexivity.
  assert (Hp : piece_types (reset_game now g) = default_piece_types)
    by reflexivity.
  assert (Hch : chunks (reset_game now g) = []) by reflexivity.
  assert (Ht : edge_triggers (reset_game now g) = []) by reflexivity.
  assert (Hd : damaged (reset_game now g) = ∅) by reflexivity.
  split.
  - rewrite Hc. lia.
  - rewrite Hr. lia.
  - rewrite Hp. exact default_registry_keys.
  - rewrite Hp. reflexivity.
  - rewrite Hp. reflexivity.
  - rewrite Hch. constructor.
  - rewrite Hch. constructor.
  - rewrite Ht. constructor.
  - intros sq p Hsq. exact (reset_game_pieces now g sq p Hsq).
  - intros sq. rewrite Hd. intros H. apply elem_of_empty in H. destruct H.
Qed.

(** ** What a completed import establishes *)














(** X28.  The message log keeps the newest message last and never more than
    sixteen lines: what it holds is the tail of the old log followed by the
    new message. *)
Theorem add_dsl_message_keeps_sixteen (m : Message) (g : Game) :
  let l := dsl_messages (add_dsl_message m g) in
  (length l = Nat.min 16 (S (length (dsl_messages g))))
  ∧ List.last l m = m
  ∧ l `suffix_of` (dsl_messages g ++ [m]).
Proof.
  unfold add_dsl_message. cbn [dsl_messages set_dsl_messages].
  set (old := dsl_messages g).
  assert (Hlen : length (old ++ [m]) = S (length old))
    by (rewrite length_app; simpl; lia).
  split; [|split].
  - rewrite length_drop, Hlen. lia.
  - rewrite Hlen, drop_app_le by lia. apply last_last.
  - apply suffix_drop.
Qed.

(** X29.  After [resize_board] both dimensions lie between 2 and 20, the
    squares are at least 32 pixels wide and the whole board fits the
    640-pixel window; the board is empty and the game is a new one. *)
Theorem resize_board_fits_the_window (c r now : Z) (g : Game) :
  let g' := resize_board c r now g in
  2 ≤ cols g' ≤ 20 ∧ 2 ≤ rows g' ≤ 20
  ∧ (2 ≤ c ≤ 20 -> cols g' = c) ∧ (2 ≤ r ≤ 20 -> rows g' = r)
  ∧ 32 ≤ square_size g'
  ∧ cols g' * square_size g' ≤ BOARD_PIXELS
  ∧ rows g' * square_size g' ≤ BOARD_PIXELS
  ∧ board g' = ∅ ∧ damaged g' = ∅
  ∧ turn g' = "white" ∧ fullmove g' = 1 ∧ game_over g' = false
  ∧ selected_square g' = None ∧ last_move g' = None.
Proof.
  unfold resize_board. simpl. unfold compute_square_size, BOARD_PIXELS.
  set (c' := Z.max 2 (Z.min 20 c)). set (r' := Z.max 2 (Z.min 20 r)).
  assert (Hc : 2 ≤ c' ≤ 20) by (unfold c'; lia).
  assert (Hr : 2 ≤ r' ≤ 20) by (unfold r'; lia).
  assert (Hm : 2 ≤ Z.max c' r' ≤ 20) by lia.
  assert (Hc' : c' ≤ Z.max c' r') by lia.
  assert (Hr' : r' ≤ Z.max c' r') by lia.
  assert (Hcc : 2 ≤ c ≤ 20 -> c' = c) by (unfold c'; lia).
  assert (Hrr : 2 ≤ r ≤ 20 -> r' = r) by (unfold r'; lia).
  clearbody c' r'. revert Hm Hc' Hr'. generalize (Z.max c' r'). intros m Hm ? ?.
  pose proof (Z.mul_div_le 640 m ltac:(lia)) as Hd.
  assert (Hq : 32 ≤ 640 / m) by (apply Z.div_le_lower_bound; lia).
  revert Hd Hq. generalize (640 / m). intros q Hd Hq.
  repeat split; try done; try lia; nia.
Qed.

(** A zone's rectangle means the same whichever two opposite corners are
    given, and in whichever order. *)
Theorem pos_in_rect_any_corners (pos : Square) (x1 y1 x2 y2 : Z) :
  pos_in_rect pos (x2, y1, x1, y2) = pos_in_rect pos (x1, y1, x2, y2)
  ∧ pos_in_rect pos (x1, y2, x2, y1) = pos_in_rect pos (x1, y1, x2, y2)
  ∧ pos_in_rect pos (x2, y2, x1, y1) = pos_in_rect pos (x1, y1, x2, y2)
  ∧ (pos_in_rect pos (x1, y1, x2, y2) = true
     ↔ Z.min x1 x2 ≤ fst pos ≤ Z.max x1 x2
       ∧ Z.min y1 y2 ≤ snd pos ≤ Z.max y1 y2).
Proof.
  destruct pos as [x y].
  assert (H : ∀ a1 b1 a2 b2,
            pos_in_rect (x, y) (a1, b1, a2, b2) = true
            ↔ Z.min a1 a2 ≤ x ≤ Z.max a1 a2 ∧ Z.min b1 b2 ≤ y ≤ Z.max b1 b2).
  { intros a1 b1 a2 b2. unfold pos_in_rect, normalize_rect.
    destruct (Z.ltb_spec a2 a1), (Z.ltb_spec b2 b1);
      rewrite !andb_true_iff, !Z.leb_le; lia. }
  assert (E : ∀ r r', (pos_in_rect (x, y) r = true ↔ pos_in_rect (x, y) r' = true)
                      -> pos_in_rect (x, y) r = pos_in_rect (x, y) r').
  { intros r r' Hrr.
    destruct (pos_in_rect (x, y) r), (pos_in_rect (x, y) r'); try done.
    - symmetry. by apply Hrr.
    - by apply Hrr. }
  split; [|split; [|split]]; [apply E; rewrite !H; simpl; lia..|apply H].
Qed.

(** X30.  The neighbour list of a move message names exactly the pieces of the
    board within the neighbour radius of the destination, and is empty when
    the rule is switched off. *)
Theorem neighbours_are_the_pieces_in_reach
    (center sq : Square) (label : string) (g : Game) :
  (sq, label) ∈ get_neighbour_pieces center g
  ↔ osc_neighbours (rules g) = true
    ∧ in_bounds g (fst sq) (snd sq) = true
    ∧ Z.abs (fst sq - fst center) ≤ Z.max 0 (osc_neighbour_radius (rules g))
    ∧ Z.abs (snd sq - snd center) ≤ Z.max 0 (osc_neighbour_radius (rules g))
    ∧ ∃ p, board g !! sq = Some p ∧ label = piece_name (Some p).
Proof.
  unfold get_neighbour_pieces. destruct center as [cx cy]. simpl fst. simpl snd.
  destruct (osc_neighbours (rules g)); simpl.
  2:{ split; [intros H; by apply elem_of_nil in H|]. by intros [? _]. }
  rewrite list_elem_of_In, in_flat_map. split.
  - intros (c & Hc & Hin). apply list_elem_of_In in Hc, Hin.
    apply elem_of_block_cells in Hc as [Hx Hy].
    destruct (in_bounds g (fst c) (snd c)) eqn:Hb; [|by apply elem_of_nil in Hin].
    destruct (board g !! c) as [p|] eqn:Hp; [|by apply elem_of_nil in Hin].
    apply list_elem_of_singleton in Hin. injection Hin as -> ->.
    repeat split; try done. by exists p.
  - intros (_ & Hb & Hx & Hy & p & Hp & ->).
    exists sq. split.
    + apply list_elem_of_In, elem_of_block_cells. done.
    + apply list_elem_of_In. rewrite Hb, Hp. by apply list_elem_of_singleton.
Qed.

Lemma update_game_over_cases (now : Z) (g : Game) :
  update_game_over now g = g
  ∨ (game_over g = false
     ∧ ∃ text result outcome,
         update_game_over now g = set_result text result outcome g
         ∧ (result = "1-0" ∨ result = "0-1" ∨ result = "1/2-1/2")).
Proof.
  unfold update_game_over.
  destruct (game_over g) eqn:Hgo; [by left|].
  assert (Hd : ∀ w b t1 r1 o1 t2 r2 o2 t3 r3 o3 g',
     (r1 = "1-0" ∨ r1 = "0-1" ∨ r1 = "1/2-1/2") ->
     (r2 = "1-0" ∨ r2 = "0-1" ∨ r2 = "1/2-1/2") ->
     (r3 = "1-0" ∨ r3 = "0-1" ∨ r3 = "1/2-1/2") ->
     decide_by_counts w b (t1, r1, o1) (t2, r2, o2) (t3, r3, o3) g = Some g' ->
     ∃ text result outcome,
       g' = set_result text result outcome g
       ∧ (result = "1-0" ∨ result = "0-1" ∨ result = "1/2-1/2")).
  { intros w b t1 r1 o1 t2 r2 o2 t3 r3 o3 g' H1 H2 H3. unfold decide_by_counts.
    repeat case_match; intros [= <-]; simpl; eauto 10. }
  assert (Hl : check_limits_game_over now g = g
               ∨ ∃ text result outcome,
                   check_limits_game_over now g
                   = set_result text result outcome g
                   ∧ (result = "1-0" ∨ result = "0-1" ∨ result = "1/2-1/2")).
  { unfold check_limits_game_over, apply_limit_result. rewrite Hgo.
    repeat case_match; eauto 10. }
  assert (Hl' : check_limits_game_over now g = g
                ∨ (false = false
                   ∧ ∃ text result outcome,
                       check_limits_game_over now g
                       = set_result text result outcome g
                       ∧ (result = "1-0" ∨ result = "0-1"
                          ∨ result = "1/2-1/2"))).
  { destruct Hl as [Hl|Hl]; [by left|right; by split]. }
  destruct (String.eqb (victory (rules g)) "king_capture").
  - destruct (count_royals g) as [wr br].
    destruct (decide_by_counts wr br _ _ _ g) as [g'|] eqn:E.
    + right. split; [done|].
      eapply Hd in E as (t & r & o & -> & Hr); eauto 10.
    + destruct (String.eqb (victory (rules g)) "elimination"); [|exact Hl'].
      destruct (count_pieces g) as [wc bc].
      destruct (decide_by_counts wc bc _ _ _ g) as [g'|] eqn:E2; [|exact Hl'].
      right. split; [done|].
      eapply Hd in E2 as (t & r & o & -> & Hr); eauto 10.
  - destruct (String.eqb (victory (rules g)) "elimination"); [|exact Hl'].
    destruct (count_pieces g) as [wc bc].
    destruct (decide_by_counts wc bc _ _ _ g) as [g'|] eqn:E2; [|exact Hl'].
    right. split; [done|].
    eapply Hd in E2 as (t & r & o & -> & Hr); eauto 10.
Qed.

(** ** The selection *)

Lemma blocked_frame (g g' : Game) (x y : Z) (pt : option PieceType) :
  damaged g' = damaged g -> rules g' = rules g ->
  square_blocked_by_damage g' x y pt = square_blocked_by_damage g x y pt.
Proof. intros Hd Hr. unfold square_blocked_by_damage. by rewrite Hd, Hr. Qed.

Lemma slide_frame (g g' : Game) piece ptype (x y dx dy : Z) (steps : list Z) :
  board g' = board g -> cols g' = cols g -> rows g' = rows g ->
  damaged g' = damaged g -> rules g' = rules g ->
  slide g' piece ptype x y dx dy steps = slide g piece ptype x y dx dy steps.
Proof.
  intros Hb Hc Hr Hd Hrl. induction steps as [|s rest IH]; [done|].
  simpl. rewrite (in_bounds_frame g g' _ _ Hc Hr),
    (blocked_frame g g' _ _ _ Hd Hrl), Hb, IH. done.
Qed.

Lemma generate_moves_frame (g g' : Game) (x y : Z) :
  board g' = board g -> piece_types g' = piece_types g ->
  cols g' = cols g -> rows g' = rows g ->
  damaged g' = damaged g -> rules g' = rules g ->
  generate_moves_for_piece g' x y = generate_moves_for_piece g x y.
Proof.
  intros Hb Hp Hc Hr Hd Hrl. unfold generate_moves_for_piece.
  rewrite Hb, Hp. destruct (board g !! (x, y)) as [piece|]; [|done].
  destruct (dict_get _ _) as [ptype|]; [|done].
  assert (E1 : pawn_moves g' piece ptype x y = pawn_moves g piece ptype x y).
  { unfold pawn_moves. cbn [flat_map]. rewrite Hr, Hb.
    rewrite !(in_bounds_frame g g' _ _ Hc Hr),
      !(blocked_frame g g' _ _ _ Hd Hrl). done. }
  assert (E2 : leaper_moves g' piece ptype x y
               = leaper_moves g piece ptype x y).
  { unfold leaper_moves. apply flat_map_ext. intros d.
    by rewrite (in_bounds_frame g g' _ _ Hc Hr),
      (blocked_frame g g' _ _ _ Hd Hrl), Hb. }
  assert (E3 : slider_moves g' piece ptype x y
               = slider_moves g piece ptype x y).
  { unfold slider_moves. rewrite Hc, Hr.
    destruct (nonempty _); [|done]. apply flat_map_ext. intros d.
    by apply slide_frame. }
  by rewrite E1, E2, E3.
Qed.

Lemma selection_ok_frame (g g' : Game) :
  selected_square g' = selected_square g ->
  legal_targets g' = legal_targets g ->
  board g' = board g -> turn g' = turn g ->
  piece_types g' = piece_types g ->
  cols g' = cols g -> rows g' = rows g ->
  damaged g' = damaged g -> rules g' = rules g ->
  selection_ok g -> selection_ok g'.
Proof.
  intros Hs Hl Hb Ht Hp Hc Hr Hd Hrl. unfold selection_ok, own_piece.
  rewrite Hs, Hl, Hb, Ht.
  destruct (selected_square g) as [sq|]; [|done].
  by rewrite (generate_moves_frame g g' _ _ Hb Hp Hc Hr Hd Hrl).
Qed.

Lemma select_square_ok (x y : Z) (g : Game) :
  own_piece (board g !! (x, y)) g = true -> selection_ok (select_square x y g).
Proof.
  intros H. unfold selection_ok, select_square. simpl. split; [exact H|].
  symmetry. by apply generate_moves_frame.
Qed.

(** A move attempt either is rejected, and then only the random generator
    has moved on, or it clears the selection. *)
Lemma try_make_move_selection (g : Game) (from_sq to_sq : Square) (now : Z) :
  match try_make_move from_sq to_sq now g with
  | Done false g' => ∃ r, g' = set_random_draws r g
  | Done true g' => selected_square g' = None
  | Raised _ g' => selected_square g' = None
  | Unmodelled => True
  end.
Proof.
  assert (Hid : ∃ draws, g = set_random_draws draws g)
    by (exists (random_draws g); by destruct g).
  unfold try_make_move.
  destruct (board g !! from_sq) as [piece|]; [|exact Hid].
  destruct (negb (bool_decide _)); [exact Hid|].
  pose proof (apply_script_pre_move_frame piece
                (dict_get (type_name piece) (piece_types g)) from_sq to_sq
                (generate_moves_for_piece g (fst from_sq) (snd from_sq)) g)
    as (r & Hr).
  destruct (apply_script_pre_move _ _ _ _ _ _) as [[dest|] g0]; simpl in Hr;
    subst g0; [|by exists r].
  destruct (negb (in_bounds _ _ _)); [by exists r|].
  match goal with
  | |- context [check_edge_triggers ?p ?d ?g4] =>
      assert (H5 : after (fun g' => selected_square g' = None)
                     (check_edge_triggers p d g4))
        by (apply (check_edge_triggers_obs selected_square); reflexivity);
      destruct (check_edge_triggers p d g4) as [[] g5|e5 g5|]
  end; simpl in *; [|exact H5|exact I].
  rewrite (update_game_over_obs selected_square) by reflexivity.
  by rewrite (apply_chunk_entry_exit_obs selected_square) by reflexivity.
Qed.

Lemma handle_click_selection (pos : Z * Z) (now : Z) (g : Game) :
  selection_ok g -> after selection_ok (handle_click pos now g).
Proof.
  intros H. unfold handle_click.
  destruct (_ || _); [exact H|].
  destruct (screen_to_square _ _ _ _ _) as [[x y]|]; [|exact H].
  destruct (selected_square g) as [sel|] eqn:Hsel.
  - destruct (bool_decide _); [simpl; by unfold selection_ok|].
    pose proof (try_make_move_selection g sel (x, y) now) as Ht.
    destruct (try_make_move sel (x, y) now g) as [[] g'|e g'|]; simpl;
      [by unfold selection_ok; rewrite Ht| |by unfold selection_ok; rewrite Ht
      |done].
    destruct Ht as [r ->].
    destruct (own_piece _ _) eqn:Hown; [by apply select_square_ok|].
    simpl. eapply selection_ok_frame; [..|exact H]; reflexivity.
  - destruct (own_piece _ _) eqn:Hown; [by apply select_square_ok|exact H].
Qed.

(** ** New games and what clicks reach from them *)






(** X11.  An accepted move sends exactly one move message, numbered with the
    move counter after the hand-over and naming what stood on the
    destination, followed by a game-over message exactly when the move
    decided the game. *)
Theorem accepted_move_sends_one_move_message
    (g : Game) (from_sq to_sq : Square) (now : Z) (g' : Game) :
  try_make_move from_sq to_sq now g = Done true g' ->
  ∃ (dest : Square) (wc bc : Z) (nb : list (Square * string))
    (over : list OscMessage),
    osc_out g'
    = osc_out g
      ++ OscMove (fullmove g') from_sq dest (piece_name (board g !! dest))
           wc bc nb (osc_label (rules g)) :: over
    ∧ (game_over g' = game_over g ∧ over = []
       ∨ game_over g = false ∧ game_over g' = true
         ∧ ∃ r o, over = [OscGameOver r o]).
Proof.
  unfold try_make_move.
  destruct (board g !! from_sq) as [piece|]; [|discriminate].
  destruct (negb _); [discriminate|].
  set (ptype := dict_get (type_name piece) (piece_types g)).
  set (legal := generate_moves_for_piece g (fst from_sq) (snd from_sq)).
  destruct (apply_script_pre_move_frame piece ptype from_sq to_sq legal g)
    as [r Hr].
  destruct (apply_script_pre_move piece ptype from_sq to_sq legal g)
    as [nt g0]. simpl in Hr. subst g0.
  destruct nt as [dest|]; [|discriminate].
  destruct (negb _); [discriminate|].
  change (board (set_random_draws r g) !! dest) with (board g !! dest).
  set (g3 := post_move_script piece ptype from_sq dest _).
  assert (H3 : (osc_out g3, rules g3, game_over g3)
               = (osc_out g, rules g, game_over g)).
  { unfold g3.
    etransitivity;
      [apply (post_move_script_obs
                (fun g => (osc_out g, rules g, game_over g)));
       reflexivity|].
    cbv beta.
    change (?f (set_last_move ?v ?x)) with (f x) at 1.
    etransitivity;
      [apply (resolve_capture_obs
                (fun g => (osc_out g, rules g, game_over g)));
       reflexivity|].
    reflexivity. }
  injection H3 as Ho3 Hr3 Hg3. clearbody g3.
  set (g4 := hand_over from_sq dest _ g3).
  assert (H4 : ∃ wc bc nb,
            (osc_out g4, fullmove g4, game_over g4)
            = (osc_out g
                 ++ [OscMove (fullmove g4) from_sq dest
                       (piece_name (board g !! dest)) wc bc nb
                       (osc_label (rules g))],
               fullmove g4, game_over g)).
  { unfold g4, hand_over, send_move_osc.
    destruct (count_pieces (toggle_turn g3)) as [wc bc].
    exists wc, bc, (get_neighbour_pieces dest g3). simpl.
    rewrite <- Hr3, <- Ho3, <- Hg3. unfold toggle_turn.
    by destruct (String.eqb (turn g3) "black"). }
  destruct H4 as (wc & bc & nb & H4). clearbody g4.
  assert (H5 : after (fun g' => (osc_out g', fullmove g', game_over g')
                               = (osc_out g
                                    ++ [OscMove (fullmove g4) from_sq dest
                                          (piece_name (board g !! dest)) wc bc
                                          nb (osc_label (rules g))],
                                  fullmove g4, game_over g))
                (check_edge_triggers piece dest g4)).
  { apply (check_edge_triggers_obs
             (fun g => (osc_out g, fullmove g, game_over g)));
      first [reflexivity|exact H4]. }
  destruct (check_edge_triggers piece dest g4) as [[] g5|e g5|];
    simpl; [|discriminate..].
  intros [= <-]. simpl in H5.
  set (g6 := apply_chunk_entry_exit piece from_sq dest g5).
  assert (H6 : (osc_out g6, fullmove g6, game_over g6)
               = (osc_out g5, fullmove g5, game_over g5)).
  { apply (apply_chunk_entry_exit_obs
             (fun g => (osc_out g, fullmove g, game_over g)));
      reflexivity. }
  rewrite H5 in H6. clearbody g6. injection H6 as Ho6 Hf6 Hg6.
  clear H4 H5. rewrite <- Hf6 in Ho6.
  exists dest, wc, bc, nb.
  destruct (update_game_over_cases now g6)
    as [->|(Hgo & text & res & out & -> & _)].
  - exists []. split; [by rewrite Ho6, Hf6|]. left. by rewrite Hg6.
  - exists [OscGameOver res out]. simpl. split.
    + rewrite Ho6, Hf6, <- app_assoc. done.
    + right. rewrite <- Hg6. split; [done|]. split; [done|]. eauto.
Qed.



(** X6.  Clicks alone keep the selection on a piece of the side to move, with
    the moves generated for it as targets, and keep the engine well-formed,
    also when the click ends in an exception. *)
Theorem handle_click_keeps_the_invariants
    (pos : Z * Z) (now : Z) (g : Game) :
  wf_game g -> selection_ok g ->
  after (fun g' => wf_game g' ∧ selection_ok g') (handle_click pos now g).
Proof.
  intros Hw Hs.
  pose proof (wf_handle_click pos now g Hw) as H1.
  pose proof (handle_click_selection pos now g Hs) as H2.
  destruct (handle_click pos now g); simpl in *; done.
Qed.

(** X7.  A move attempt keeps the engine well-formed, whether the move is
    accepted, rejected or ends in an exception of a zone fill or of a random
    spawn: the pieces stay on the board and of registered types, the damaged
    squares on the board, the zones and triggers valid. *)
Theorem try_make_move_keeps_well_formed
    (g : Game) (from_sq to_sq : Square) (now : Z) :
  wf_game g -> after wf_game (try_make_move from_sq to_sq now g).
Proof. intros H. exact (wf_try_make_move g from_sq to_sq now H). Qed.

(** X8.  Toggling a zone keeps the engine well-formed, also when the fill
    registers a new piece type or raises. *)
Theorem toggle_chunk_keeps_well_formed
    (n : string) (mover_color : option string) (g : Game) :
  wf_game g -> after wf_game (toggle_chunk n mover_color g).
Proof. intros H. exact (wf_toggle_chunk n mover_color g H). Qed.

(** X9.  A rejected move leaves the engine as it was, the random generator
    apart (a stutter script draws before it cancels the move). *)
Theorem rejected_move_changes_nothing
    (g : Game) (from_sq to_sq : Square) (now : Z) (g' : Game) :
  try_make_move from_sq to_sq now g = Done false g' ->
  ∃ draws, g' = set_random_draws draws g.
Proof.
  intros H. pose proof (try_make_move_selection g from_sq to_sq now) as Hs.
  rewrite H in Hs. exact Hs.
Qed.

(** X18.  The win-condition check either changes nothing at all or decides the
    game: it sets [game_over] and the result text and sends one game-over
    message, whose result is one of the three scores. *)
Theorem update_game_over_decides_once (now : Z) (g : Game) :
  update_game_over now g = g
  ∨ (game_over g = false
     ∧ ∃ text result outcome,
         update_game_over now g = set_result text result outcome g
         ∧ (result = "1-0" ∨ result = "0-1" ∨ result = "1/2-1/2")).
Proof. exact (update_game_over_cases now g). Qed.


(** * Further runs of the engine *)

Lemma standard_selection : selection_ok standard.
Proof.
  unfold selection_ok.
  assert (H : selected_square standard = None) by (vm_compute; reflexivity).
  rewrite H. exact I.
Qed.

Lemma z1_game_well_formed : wf_game z1_game.
Proof.
  pose proof (wf_set_chunk "z1" z1_chunk standard
                (or_intror (or_intror eq_refl)) standard_well_formed) as H.
  eapply wf_game_frame; [..|exact H]; vm_compute; reflexivity.
Qed.


Lemma handle_click_keeps_the_invariants_witness :
  wf_game standard ∧ selection_ok standard
  ∧ after (fun g' => wf_game g' ∧ selection_ok g')
          (handle_click (360, 520) 0 standard).
Proof.
  split; [exact standard_well_formed|]. split; [exact standard_selection|].
  exact (handle_click_keeps_the_invariants (360, 520) 0 standard
           standard_well_formed standard_selection).
Defined.

Lemma try_make_move_keeps_well_formed_witness :
  wf_game standard ∧ after wf_game (try_make_move (4, 1) (4, 3) 0 standard).
Proof.
  split; [exact standard_well_formed|].
  exact (try_make_move_keeps_well_formed standard (4, 1) (4, 3) 0
           standard_well_formed).
Defined.

Lemma toggle_chunk_keeps_well_formed_witness :
  wf_game z1_game ∧ after wf_game (toggle_chunk "z1" None z1_game).
Proof.
  split; [exact z1_game_well_formed|].
  exact (toggle_chunk_keeps_well_formed "z1" None z1_game z1_game_well_formed).
Defined.

Lemma rejected_move_changes_nothing_witness :
  try_make_move (4, 1) (4, 3) 0 stutter_game
  = Done false (set_random_draws [] stutter_game)
  ∧ ∃ draws,
      set_random_draws [] stutter_game = set_random_draws draws stutter_game.
Proof.
  assert (H : try_make_move (4, 1) (4, 3) 0 stutter_game
              = Done false (set_random_draws [] stutter_game))
    by (vm_compute; reflexivity).
  split; [exact H|].
  exact (rejected_move_changes_nothing stutter_game (4, 1) (4, 3) 0
           (set_random_draws [] stutter_game) H).
Defined.

Lemma accepted_move_is_generated_and_recorded_witness :
  try_make_move (4, 1) (4, 3) 0 standard = Done true after_e4
  ∧ ∃ dest : Square,
      last_move after_e4 = Some ((4, 1), dest)
      ∧ dest ∈ generate_moves_for_piece standard (fst (4, 1)) (snd (4, 1))
      ∧ in_bounds standard (fst dest) (snd dest) = true.
Proof.
  assert (H : try_make_move (4, 1) (4, 3) 0 standard = Done true after_e4)
    by (vm_compute; reflexivity).
  split; [exact H|].
  exact (accepted_move_is_generated_and_recorded standard (4, 1) (4, 3) 0
           after_e4 H).
Defined.

Lemma accepted_move_sends_one_move_message_witness :
  try_make_move (4, 1) (4, 3) 0 standard = Done true after_e4
  ∧ ∃ (dest : Square) (wc bc : Z) (nb : list (Square * string))
      (over : list OscMessage),
      osc_out after_e4
      = osc_out standard
        ++ OscMove (fullmove after_e4) (4, 1) dest
             (piece_name (board standard !! dest)) wc bc nb
             (osc_label (rules standard)) :: over
      ∧ (game_over after_e4 = game_over standard ∧ over = []
         ∨ game_over standard = false ∧ game_over after_e4 = true
           ∧ ∃ r o, over = [OscGameOver r o]).
Proof.
  assert (H : try_make_move (4, 1) (4, 3) 0 standard = Done true after_e4)
    by (vm_compute; reflexivity).
  split; [exact H|].
  exact (accepted_move_sends_one_move_message standard (4, 1) (4, 3) 0
           after_e4 H).
Defined.




Lemma elimination_verdict_witness :
  game_over standard = false
  ∧ victory (rules standard) = "elimination"
  ∧ update_game_over 0 standard = check_limits_game_over 0 standard.
Proof.
  assert (Hg : game_over standard = false) by (vm_compute; reflexivity).
  assert (Hv : victory (rules standard) = "elimination")
    by (vm_compute; reflexivity).
  split; [exact Hg|]. split; [exact Hv|].
  destruct (elimination_verdict standard 0 Hg Hv) as (_ & _ & _ & H).
  apply H.
  - exists (4, 1). split; vm_compute; reflexivity.
  - exists (4, 6). split; vm_compute; reflexivity.
Defined.

Lemma king_capture_verdict_witness :
  game_over king_capture_game = false
  ∧ victory (rules king_capture_game) = "king_capture"
  ∧ update_game_over 0 king_capture_game
    = check_limits_game_over 0 king_capture_game.
Proof.
  assert (Hg : game_over king_capture_game = false)
    by (vm_compute; reflexivity).
  assert (Hv : victory (rules king_capture_game) = "king_capture")
    by (vm_compute; reflexivity).
  split; [exact Hg|]. split; [exact Hv|].
  destruct (king_capture_verdict king_capture_game 0 Hg Hv) as (_ & _ & _ & H).
  apply H.
  - exists (4, 0). split; vm_compute; reflexivity.
  - exists (4, 7). split; vm_compute; reflexivity.
Defined.

Lemma screen_to_square_sound_witness :
  screen_to_square 100 100 80 8 8 = Some (1, 6)
  ∧ 0 < 80 ∧ 0 ≤ 1 < 8 ∧ 0 ≤ 6 < 8
  ∧ fst (square_to_screen 1 6 80 8) ≤ 100
    < fst (square_to_screen 1 6 80 8) + 80
  ∧ snd (square_to_screen 1 6 80 8) ≤ 100
    < snd (square_to_screen 1 6 80 8) + 80.
Proof.
  split; [reflexivity|].
  exact (screen_to_square_sound 100 100 80 8 8 1 6 eq_refl).
Defined.

Lemma screen_to_square_round_trip_witness :
  screen_to_square (fst (square_to_screen 4 1 80 8) + 40)
                   (snd (square_to_screen 4 1 80 8) + 40) 80 8 8
  = Some (4, 1).
Proof.
  apply (screen_to_square_round_trip 4 1 80 8 8 40 40); lia.
Defined.

Lemma spawned_chunk_is_on_the_board_witness :
  in_bounds standard 0 3 = true
  ∧ spawn_random_chunk_near_edge (0, 3) 0 1 2 1 2 standard
    = Done tt after_spawn
  ∧ rand_chunk_counter after_spawn = rand_chunk_counter standard + 1
  ∧ board after_spawn = board standard.
Proof.
  assert (Hin : in_bounds standard (fst (0, 3)) (snd (0, 3)) = true)
    by (vm_compute; reflexivity).
  assert (Hd : Z.min (Z.min (fst (0, 3)) (cols standard - 1 - fst (0, 3)))
                 (Z.min (snd (0, 3)) (rows standard - 1 - snd (0, 3))) ≤ 0)
    by (vm_compute; discriminate).
  assert (Hrun : spawn_random_chunk_near_edge (0, 3) 0 1 2 1 2 standard
                 = Done tt after_spawn) by (vm_compute; reflexivity).
  split; [exact Hin|]. split; [exact Hrun|].
  destruct (spawned_chunk_is_on_the_board (0, 3) 0 1 2 1 2 standard
              after_spawn Hin Hd Hrun)
    as (x1 & y1 & x2 & y2 & _ & Hc & Hb & _).
  split; [exact Hc|exact Hb].
Defined.

Lemma spawn_returns_iff_sizes_fit_witness :
  ∃ g', spawn_random_chunk_near_edge (0, 3) 0 1 2 1 2 standard = Done tt g'.
Proof.
  assert (Hd : Z.min (Z.min (fst (0, 3)) (cols standard - 1 - fst (0, 3)))
                 (Z.min (snd (0, 3)) (rows standard - 1 - snd (0, 3))) ≤ 0)
    by (vm_compute; discriminate).
  assert (Hfit : Z.max 1 1 ≤ cols standard ∧ Z.max 1 1 ≤ rows standard)
    by (split; vm_compute; discriminate).
  exact (proj1 (spawn_returns_iff_sizes_fit (0, 3) 0 1 2 1 2 standard Hd)
           Hfit).
Defined.

Lemma generate_moves_dispatch_witness :
  board standard !! (4, 1) = Some e2_pawn
  ∧ dict_get (type_name e2_pawn) (piece_types standard) = Some pawn_type
  ∧ generate_moves_for_piece standard 4 1
    = if String.eqb (kind pawn_type) "pawn"
      then pawn_moves standard e2_pawn pawn_type 4 1
      else if leaps pawn_type then leaper_moves standard e2_pawn pawn_type 4 1
      else slider_moves standard e2_pawn pawn_type 4 1.
Proof.
  assert (Hp : board standard !! (4, 1) = Some e2_pawn)
    by (vm_compute; reflexivity).
  assert (Ht : dict_get (type_name e2_pawn) (piece_types standard)
               = Some pawn_type) by (vm_compute; reflexivity).
  split; [exact Hp|]. split; [exact Ht|].
  exact (generate_moves_dispatch standard 4 1 e2_pawn pawn_type Hp Ht).
Defined.



(** The clicks on e2 and e4 open the game with the king's pawn. *)
Example two_clicks_play_e4 :
  (color <$> board after_two_clicks !! (4, 3)) = Some "white"
  ∧ board after_two_clicks !! (4, 1) = None
  ∧ turn after_two_clicks = "black"
  ∧ selected_square after_two_clicks = None.
Proof. repeat split; vm_compute; reflexivity. Qed.
